(** * Verification of the template-creation endpoint

    The development embeds the request handler of
    [backendSrc/apps/posts/api/createTemplates.ts] (the size-gated,
    duplicate-aware variant) and of its sibling that inserts through the
    ORM, and proves the properties of the sanitize / validate / persist
    pipeline.

    Layout: JavaScript strings, JSON values, the recursive [sanitize],
    [JSON.stringify] and the textual scrub ([contentForDb]), the request
    schema, the two handlers written in a small exception monad over
    store events, and finally the theorems. *)

From Stdlib Require Import List NArith ZArith Lia Bool String Ascii.
From Equations Require Import Equations.
Import ListNotations.

Set Warnings "-register-all".
Set Warnings "-notation-overridden".

(* ===================================================================== *)
(** * JavaScript strings *)
(* ===================================================================== *)

(** A JavaScript string is a sequence of UTF-16 code units. *)
Definition char16 := N.
Definition jsstring := list char16.

Module JsString.

(** A source-text literal made of ASCII characters. *)
Definition lit (s : string) : jsstring :=
  map N_of_ascii (list_ascii_of_string s).

(** [a === b] on strings. *)
Fixpoint eqb (a b : jsstring) : bool :=
  match a, b with
  | [], [] => true
  | x :: a', y :: b' => N.eqb x y && eqb a' b'
  | _, _ => false
  end.

(** [s.startsWith(p)]. *)
Fixpoint starts_with (p s : jsstring) : bool :=
  match p, s with
  | [], _ => true
  | x :: p', y :: s' => N.eqb x y && starts_with p' s'
  | _ :: _, [] => false
  end.

(** [s.includes(p)]: some suffix of [s] starts with [p]. *)
Fixpoint includes (p s : jsstring) : bool :=
  starts_with p s ||
  match s with
  | [] => false
  | _ :: s' => includes p s'
  end.

Definition is_high_surrogate (c : char16) : bool :=
  (55296 <=? c)%N && (c <=? 56319)%N.
Definition is_low_surrogate (c : char16) : bool :=
  (56320 <=? c)%N && (c <=? 57343)%N.

(** Size in bytes of the UTF-8 encoding, as [new Blob([s]).size] reports
    it: a surrogate pair is one code point of four bytes, an unpaired
    surrogate is encoded as U+FFFD (three bytes). *)
Fixpoint utf8_length (s : jsstring) : Z :=
  match s with
  | [] => 0
  | c :: rest =>
      if (c <? 128)%N then 1 + utf8_length rest
      else if (c <? 2048)%N then 2 + utf8_length rest
      else if is_high_surrogate c then
        match rest with
        | d :: rest' =>
            if is_low_surrogate d then 4 + utf8_length rest'
            else 3 + utf8_length rest
        | [] => 3
        end
      else 3 + utf8_length rest
  end%Z.

(** [Canonicalize] of the regular-expression flag [i], as far as a
    pattern of ASCII characters can tell: [a]..[z] map to [A]..[Z]; a
    code unit of 128 or more is never mapped onto an ASCII one. *)
Definition canonicalize (c : char16) : char16 :=
  if (97 <=? c)%N && (c <=? 122)%N then (c - 32)%N else c.

(** [/alt1|alt2|.../i.test(s)] for literal alternatives. *)
Definition regex_test_i (alternatives : list jsstring) (s : jsstring) : bool :=
  existsb (fun alt => includes (map canonicalize alt) (map canonicalize s))
          alternatives.

End JsString.

Definition lit := JsString.lit.

(* ===================================================================== *)
(** * JavaScript numbers *)
(* ===================================================================== *)

(** A number is carried by the text [Number::toString] gives for it (see
    [JSON] below).  For a finite number that text is a JSON number
    literal: digits, possibly with a point, or one digit, possibly a
    fraction, and an exponent with its sign.  The other texts are
    [Infinity], [-Infinity] and [NaN]. *)
Module JsNumber.

Definition is_digit (c : char16) : bool := ((48 <=? c) && (c <=? 57))%N.

(** Number literals: an optional minus sign; a zero, or a non-zero digit
    followed by digits; optionally a point and one digit or more;
    optionally an exponent mark, a sign and one digit or more. *)
Definition number_char (c : char16) : bool :=
  (is_digit c || (c =? 45) || (c =? 43) || (c =? 46) || (c =? 101) || (c =? 69))%N.

Fixpoint drop_digits (s : jsstring) : jsstring :=
  match s with
  | c :: s' => if is_digit c then drop_digits s' else s
  | [] => []
  end.

Definition exponent_ok (s : jsstring) : bool :=
  match s with
  | [] => true
  | c :: t =>
      ((c =? 101) || (c =? 69))%N &&
      match (match t with
             | x :: u => if ((x =? 43) || (x =? 45))%N then u else t
             | [] => t
             end) with
      | d :: u => is_digit d && match drop_digits u with [] => true | _ => false end
      | [] => false
      end
  end.

Definition fraction_ok (s : jsstring) : bool :=
  match s with
  | c :: t =>
      if (c =? 46)%N then
        match t with
        | d :: u => is_digit d && exponent_ok (drop_digits u)
        | [] => false
        end
      else exponent_ok s
  | [] => true
  end.

Definition integer_ok (s : jsstring) : bool :=
  match s with
  | d :: t =>
      if (d =? 48)%N then fraction_ok t
      else is_digit d && fraction_ok (drop_digits t)
  | [] => false
  end.

Definition is_number (s : jsstring) : bool :=
  forallb number_char s &&
  integer_ok (match s with
              | c :: t => if (c =? 45)%N then t else s
              | [] => s
              end).

(** [Number.isFinite(x)], on the text of [x]. *)
Definition is_finite (repr : jsstring) : bool := is_number repr.

End JsNumber.

(* ===================================================================== *)
(** * JSON values *)
(* ===================================================================== *)

(** The values [request.json()] produces.  An object is the list of its
    own enumerable properties in the order [Object.entries] reports them.
    A number is carried by the text [Number::toString] gives for it: the
    handler never computes with a number, it only has [JSON.stringify]
    print it. *)
Unset Elimination Schemes.
Inductive JSON : Type :=
| JNull
| JBool (b : bool)
| JNumber (repr : jsstring)
| JString (s : jsstring)
| JArray (items : list JSON)
| JObject (props : list (jsstring * JSON)).
Set Elimination Schemes.

Definition entries := list (jsstring * JSON).

Definition keys (o : entries) : list jsstring := map fst o.

Definition has_own (k : jsstring) (o : entries) : bool :=
  existsb (fun kv => JsString.eqb (fst kv) k) o.

(** [o[k]] for an own property. *)
Fixpoint get (k : jsstring) (o : entries) : option JSON :=
  match o with
  | [] => None
  | (k', v) :: o' => if JsString.eqb k' k then Some v else get k o'
  end.

(** Deep equality of two values: arrays are equal element by element;
    objects are equal when they have as many properties and every property
    of the first has an equal one under the same key in the second,
    whatever the order. *)
Fixpoint deep_equal (a b : JSON) : bool :=
  match a, b with
  | JNull, JNull => true
  | JBool x, JBool y => Bool.eqb x y
  | JNumber x, JNumber y => JsString.eqb x y
  | JString x, JString y => JsString.eqb x y
  | JArray xs, JArray ys =>
      (fix go (xs ys : list JSON) : bool :=
         match xs, ys with
         | [], [] => true
         | x :: xs', y :: ys' => deep_equal x y && go xs' ys'
         | _, _ => false
         end) xs ys
  | JObject xs, JObject ys =>
      Nat.eqb (List.length xs) (List.length ys) &&
      forallb (fun kv => match get (fst kv) ys with
                         | Some y => deep_equal (snd kv) y
                         | None => false
                         end) xs
  | _, _ => false
  end.

(* ===================================================================== *)
(** * The sanitizer *)
(* ===================================================================== *)

Definition elementScript : jsstring := lit "elementScript".
Definition proto_key : jsstring := lit "__proto__".

(** [output[k] = x] on an object that started as the literal [{}].
    The key [__proto__] is the accessor inherited from [Object.prototype]:
    the assignment runs its setter, which changes the prototype slot (or
    does nothing for a primitive) and creates no own property.  Any other
    key overwrites the property in place when it exists and adds it at the
    end otherwise. *)
Fixpoint overwrite (k : jsstring) (x : JSON) (o : entries) : entries :=
  match o with
  | [] => []
  | (k', y) :: o' =>
      if JsString.eqb k' k then (k', x) :: o' else (k', y) :: overwrite k x o'
  end.

Definition assign (output : entries) (k : jsstring) (x : JSON) : entries :=
  if JsString.eqb k proto_key then output
  else if has_own k output then overwrite k x output
  else output ++ [(k, x)].

(** [sanitize], lines 55-69 of createTemplates.ts. *)
Fixpoint sanitize (value : JSON) : JSON :=
  match value with
  | JArray items => JArray (map sanitize items)
  | JObject input =>
      JObject
        (fold_left
           (fun output kv =>
              if JsString.eqb (fst kv) elementScript then output
              else assign output (fst kv) (sanitize (snd kv)))
           input [])
  | _ => value
  end.

(** The loop of [sanitize] over the entries of an object, by itself. *)
Definition sanitize_step (output : entries) (kv : jsstring * JSON) : entries :=
  if JsString.eqb (fst kv) elementScript then output
  else assign output (fst kv) (sanitize (snd kv)).

Definition sanitize_entries (input output : entries) : entries :=
  fold_left sanitize_step input output.

(** Own properties of a value ([Object.entries]); empty for a non-object. *)
Definition own_entries (v : JSON) : entries :=
  match v with
  | JObject props => props
  | _ => []
  end.

(** Elements of an array; empty for any other value. *)
Definition own_items (v : JSON) : list JSON :=
  match v with
  | JArray items => items
  | _ => []
  end.

(** The keys that the loop of [sanitize] turns into properties of its
    output. *)
Definition kept (k : jsstring) : bool :=
  negb (JsString.eqb k elementScript) && negb (JsString.eqb k proto_key).

(** [mentions k v]: some object inside [v], at any depth, has the own
    key [k]. *)
Fixpoint mentions (k : jsstring) (v : JSON) : bool :=
  match v with
  | JArray items => existsb (mentions k) items
  | JObject props =>
      existsb (fun kv => JsString.eqb (fst kv) k || mentions k (snd kv)) props
  | _ => false
  end.

(** [StringLeaf s v]: the string [s] is a value somewhere inside [v]. *)
Inductive StringLeaf (s : jsstring) : JSON -> Prop :=
| Leaf_here : StringLeaf s (JString s)
| Leaf_item items x : In x items -> StringLeaf s x -> StringLeaf s (JArray items)
| Leaf_prop props k x :
    In (k, x) props -> StringLeaf s x -> StringLeaf s (JObject props).

(** The shape of a value that [sanitize] has produced: in every object the
    keys are pairwise distinct and none is [elementScript] or
    [__proto__]. *)
Inductive Sanitized : JSON -> Prop :=
| San_null : Sanitized JNull
| San_bool b : Sanitized (JBool b)
| San_number r : Sanitized (JNumber r)
| San_string s : Sanitized (JString s)
| San_array items : Forall Sanitized items -> Sanitized (JArray items)
| San_object props :
    NoDup (keys props) ->
    Forall (fun kv => fst kv <> elementScript /\ fst kv <> proto_key
                      /\ Sanitized (snd kv)) props ->
    Sanitized (JObject props).


(* ===================================================================== *)
(** * JSON.stringify and the textual scrub *)
(* ===================================================================== *)

Module JSONText.
Import JsString.

Definition hex_digit (n : N) : char16 :=
  (if n <? 10 then 48 + n else 87 + n)%N.

(** [UnicodeEscape]: a backslash, [u] and four lower-case hex digits. *)
Definition unicode_escape (c : char16) : jsstring :=
  [92; 117; hex_digit (c / 4096); hex_digit ((c / 256) mod 16);
   hex_digit ((c / 16) mod 16); hex_digit (c mod 16)]%N.

(** One code unit that is not part of a surrogate pair, as
    [QuoteJSONString] writes it. *)
Definition quote_unit (c : char16) : jsstring :=
  (if c =? 8 then lit "\b"
   else if c =? 9 then lit "\t"
   else if c =? 10 then lit "\n"
   else if c =? 12 then lit "\f"
   else if c =? 13 then lit "\r"
   else if c =? 34 then [92; 34]
   else if c =? 92 then [92; 92]
   else if (c <? 32) || is_high_surrogate c || is_low_surrogate c
        then unicode_escape c
   else [c])%N.

(** The characters between the quotes: a surrogate pair is copied, an
    unpaired surrogate is escaped. *)
Fixpoint quote_body (s : jsstring) : jsstring :=
  match s with
  | [] => []
  | c :: rest =>
      if is_high_surrogate c then
        match rest with
        | d :: rest' =>
            if is_low_surrogate d then c :: d :: quote_body rest'
            else unicode_escape c ++ quote_body rest
        | [] => unicode_escape c
        end
      else quote_unit c ++ quote_body rest
  end.

Definition quote (s : jsstring) : jsstring :=
  [34%N] ++ quote_body s ++ [34%N].

(** [parts.join(",")]. *)
Definition join_comma (parts : list jsstring) : jsstring :=
  match parts with
  | [] => []
  | p :: ps => p ++ flat_map (fun q => 44%N :: q) ps
  end.

(** [JSON.stringify(value)] with no replacer and no indentation.  A
    number that is not finite is written [null]. *)
Fixpoint stringify (value : JSON) : jsstring :=
  match value with
  | JNull => lit "null"
  | JBool true => lit "true"
  | JBool false => lit "false"
  | JNumber repr => if JsNumber.is_finite repr then repr else lit "null"
  | JString s => quote s
  | JArray items =>
      lit "[" ++ join_comma (map stringify items) ++ lit "]"
  | JObject props =>
      lit "{" ++
      join_comma
        (map (fun kv => quote (fst kv) ++ lit ":" ++ stringify (snd kv)) props)
      ++ lit "}"
  end.

(** [s.replace(/pat/g, rep)] for a non-empty literal pattern without
    metacharacters: matches are found from left to right and do not
    overlap; the text between them is copied. *)
Equations? replace_all (pat rep s : jsstring) : jsstring by wf (List.length s) lt :=
  replace_all pat rep [] := [];
  replace_all pat rep (c :: s') with starts_with pat (c :: s') => {
    | true := rep ++ replace_all pat rep (skipn (Nat.pred (List.length pat)) s');
    | false := c :: replace_all pat rep s' }.
Proof.
  rewrite length_skipn. lia.
Qed.

End JSONText.

Definition script_open : jsstring := lit "<script>".
Definition script_close : jsstring := lit "</script>".
Definition script_open_escaped : jsstring := lit "&lt;script&gt;".
Definition script_close_escaped : jsstring := lit "&lt;/script&gt;".

(** The two chained [replace] calls of lines 73-75. *)
Definition scrub (text : jsstring) : jsstring :=
  JSONText.replace_all script_close script_close_escaped
    (JSONText.replace_all script_open script_open_escaped text).

(** [contentForDb], lines 73-75, from [sanitizedContent]. *)
Definition contentForDb (sanitizedContent : JSON) : jsstring :=
  scrub (JSONText.stringify sanitizedContent).

(* ===================================================================== *)
(** * Effects of the handler *)
(* ===================================================================== *)

(** One entry of [ZodError.errors], as the validation library builds it
    for the checks of this schema: a value of the wrong type, a string in
    the wrong format, or a value that no member of a union accepts (with
    the issues of every member). *)
Unset Elimination Schemes.
Inductive ZodIssue : Type :=
| invalid_type (expected received : jsstring) (path : list jsstring)
| invalid_string (validation : jsstring) (path : list jsstring)
| invalid_union (unionErrors : list (list ZodIssue)) (path : list jsstring).
Set Elimination Schemes.

(** What the handler can catch: a [ZodError] or any other error, known by
    its message. *)
Inductive Exception : Type :=
| ZodError (errors : list ZodIssue)
| Error (message : jsstring).

(** The calls the handler makes to its collaborators, indexed by what they
    answer.  A database call either rejects with an error ([inl] of its
    message) or resolves. *)
Inductive Event : Type -> Type :=
| RandomUUID : Event jsstring
| D1Run (sql : jsstring) (bindings : list jsstring) : Event (jsstring + unit)
| D1First (sql : jsstring) (bindings : list jsstring)
    : Event (jsstring + option JSON)
| DrizzleInsert (table : jsstring) (values : list (jsstring * jsstring))
    : Event (jsstring + unit)
| ConsoleError (label : jsstring) (error : Exception) : Event unit.

(** Programs over these calls. *)
Inductive Prog (R : Type) : Type :=
| Ret (r : R)
| Vis (X : Type) (e : Event X) (k : X -> Prog R).

Arguments Ret {R} r.
Arguments Vis {R X} e k.

Fixpoint bind {A B : Type} (p : Prog A) (f : A -> Prog B) : Prog B :=
  match p with
  | Ret a => f a
  | Vis e k => Vis e (fun x => bind (k x) f)
  end.

(** An [async] body: it ends with a value or with a thrown exception. *)
Definition Async (R : Type) : Type := Prog (Exception + R).

Definition ret {R : Type} (r : R) : Async R := Ret (inr r).
Definition throw {R : Type} (e : Exception) : Async R := Ret (inl e).

Definition bindA {A B : Type} (p : Async A) (f : A -> Async B) : Async B :=
  bind p (fun r => match r with
                   | inl e => Ret (inl e)
                   | inr a => f a
                   end).

(** A call whose answer is used as it is. *)
Definition call {X : Type} (e : Event X) : Async X :=
  Vis e (fun x => Ret (inr x)).

(** [await] of a database call: a rejection is thrown. *)
Definition await {X : Type} (e : Event (jsstring + X)) : Async X :=
  Vis e (fun r => match r with
                  | inl m => throw (Error m)
                  | inr x => ret x
                  end).

(** [try { body } catch (error) { handler }] around a whole function
    body. *)
Definition try_catch {R : Type} (body : Async R) (handler : Exception -> Prog R)
  : Prog R :=
  bind body (fun r => match r with
                      | inl e => handler e
                      | inr x => Ret x
                      end).

Declare Scope async_scope.
Delimit Scope async_scope with async.
Notation "x <- p ;; q" := (bindA p (fun x => q))
  (at level 61, p at next level, right associativity) : async_scope.
Notation "' pat <- p ;; q" := (bindA p (fun x => match x with pat => q end))
  (at level 61, pat pattern, p at next level, right associativity) : async_scope.

(** An HTTP response: [Response.json(body, { status })]. *)
Record Response : Type := mkResponse {
  body : JSON;
  status : N
}.

(** The request, known by what [await request.json()] gives: the parsed
    body, or the message of the error it rejects with. *)
Record Request : Type := mkRequest {
  json : jsstring + JSON
}.

Definition request_json (request : Request) : Async JSON :=
  match json request with
  | inl m => throw (Error m)
  | inr b => ret b
  end.

(** An issue as [Response.json] serialises it: the keys in the order the
    library sets them; a member of [unionErrors] is a [ZodError], whose
    enumerable properties are [issues] and [name]. *)
Fixpoint issue_json (i : ZodIssue) : JSON :=
  match i with
  | invalid_type expected received path =>
      JObject [(lit "code", JString (lit "invalid_type"));
               (lit "expected", JString expected);
               (lit "received", JString received);
               (lit "path", JArray (map JString path));
               (lit "message",
                JString (if JsString.eqb received (lit "undefined")
                         then lit "Required"
                         else lit "Expected " ++ expected
                              ++ lit ", received " ++ received))]
  | invalid_string validation path =>
      JObject [(lit "validation", JString validation);
               (lit "code", JString (lit "invalid_string"));
               (lit "message", JString (lit "Invalid " ++ validation));
               (lit "path", JArray (map JString path))]
  | invalid_union unionErrors path =>
      JObject [(lit "code", JString (lit "invalid_union"));
               (lit "unionErrors",
                JArray (map (fun issues =>
                               JObject [(lit "issues", JArray (map issue_json issues));
                                        (lit "name", JString (lit "ZodError"))])
                            unionErrors));
               (lit "path", JArray (map JString path));
               (lit "message", JString (lit "Invalid input"))]
  end.

(* ===================================================================== *)
(** * The request schema *)
(* ===================================================================== *)

Module RequestSchema.

Definition is_hex (c : char16) : bool :=
  ((48 <=? c) && (c <=? 57) || (97 <=? c) && (c <=? 102)
   || (65 <=? c) && (c <=? 70))%N.

(** Modelled from the spec: the check behind [z.string().uuid()] lives in
    the validation library, which is not part of the sources.  The spec
    describes the canonical textual format: 32 hex digits in 5 groups
    (8-4-4-4-12) separated by hyphens. *)
Fixpoint uuid_groups (groups : list nat) (s : jsstring) : bool :=
  match groups with
  | [] => match s with [] => true | _ => false end
  | n :: groups' =>
      forallb is_hex (firstn n s) && Nat.eqb (List.length (firstn n s)) n &&
      match groups', skipn n s with
      | [], [] => true
      | _ :: _, 45%N :: s' => uuid_groups groups' s'
      | _, _ => false
      end
  end.

Definition is_uuid (s : jsstring) : bool := uuid_groups [8; 4; 4; 4; 12]%nat s.

(** The name the library gives to the type of a received value. *)
Definition received (v : option JSON) : jsstring :=
  match v with
  | None => lit "undefined"
  | Some JNull => lit "null"
  | Some (JBool _) => lit "boolean"
  | Some (JNumber _) => lit "number"
  | Some (JString _) => lit "string"
  | Some (JArray _) => lit "array"
  | Some (JObject _) => lit "object"
  end.

(** [id: z.string().uuid().optional()] *)
Definition check_id (v : option JSON) : list ZodIssue + option jsstring :=
  match v with
  | None => inr None
  | Some (JString s) =>
      if is_uuid s then inr (Some s)
      else inl [invalid_string (lit "uuid") [lit "id"]]
  | Some _ => inl [invalid_type (lit "string") (received v) [lit "id"]]
  end.

(** [content: z.union([z.string(), z.record(z.unknown()),
    z.array(z.unknown())])] *)
Definition check_content (v : option JSON) : list ZodIssue + JSON :=
  match v with
  | Some (JString s) => inr (JString s)
  | Some (JObject props) => inr (JObject props)
  | Some (JArray items) => inr (JArray items)
  | _ =>
      inl [invalid_union
             [[invalid_type (lit "string") (received v) [lit "content"]];
              [invalid_type (lit "object") (received v) [lit "content"]];
              [invalid_type (lit "array") (received v) [lit "content"]]]
             [lit "content"]]
  end.

(** [RequestSchema.safeParse(body)], lines 7-10: the parsed
    [{id, content}], or the issues found; the issues of both fields are
    collected. *)
Definition safeParse (body : JSON) : list ZodIssue + (option jsstring * JSON) :=
  match body with
  | JObject props =>
      match check_id (get (lit "id") props),
            check_content (get (lit "content") props) with
      | inr id, inr content => inr (id, content)
      | inl i1, inr _ => inl i1
      | inr _, inl i2 => inl i2
      | inl i1, inl i2 => inl (i1 ++ i2)
      end
  | _ =>
      inl [invalid_type (lit "object") (received (Some body)) []]
  end.

(** [RequestSchema.parse(body)], line 52: the same, the issues being
    thrown as a [ZodError]. *)
Definition parse (body : JSON) : Async (option jsstring * JSON) :=
  match safeParse body with
  | inl issues => throw (ZodError issues)
  | inr r => ret r
  end.

End RequestSchema.


(* ===================================================================== *)
(** * The handlers *)
(* ===================================================================== *)

(** [new Blob([text]).size] *)
Definition Blob_size (text : jsstring) : Z := JsString.utf8_length text.

Definition validation_failed (errors : list ZodIssue) : Response :=
  mkResponse
    (JObject [(lit "error", JString (lit "Validation failed"));
              (lit "details", JArray (map issue_json errors))])
    400.

Definition internal_error (message : jsstring) : Response :=
  mkResponse
    (JObject [(lit "error", JString (lit "Internal server error"));
              (lit "details", JString message)])
    500.

(** The [catch (error)] block that ends both handlers (lines 113-127);
    the details of an [Error] are its message. *)
Definition on_error (error : Exception) : Prog Response :=
  Vis (ConsoleError (lit "CreateTemplateApi error:") error) (fun _ =>
    match error with
    | ZodError errors => Ret (validation_failed errors)
    | Error message => Ret (internal_error message)
    end).

Definition select_sql : jsstring :=
  lit "SELECT * FROM templates_table WHERE id = ?".

(** Lines 104-112: read the row back and answer 201. *)
Definition read_back (templateId : jsstring) : Async Response :=
  (result <- await (D1First select_sql [templateId]) ;;
   match result with
   | None => throw (Error (lit "Failed to fetch inserted template"))
   | Some row => ret (mkResponse row 201)
   end)%async.

(** [id ?? crypto.randomUUID()] *)
Definition resolve_id (id : option jsstring) : Async jsstring :=
  match id with
  | Some i => ret i
  | None => call RandomUUID
  end.

(** ** createTemplates.ts: the size-gated, duplicate-aware handler *)
Module CreateTemplateApi.

Definition maxBytes : Z := 900 * 1024.

Definition insert_sql : jsstring :=
  lit "INSERT INTO templates_table (id, content) VALUES (?, ?)".

Definition unique_violation (message : jsstring) : bool :=
  JsString.regex_test_i
    [lit "unique constraint failed"; lit "UNIQUE constraint failed"] message.

Definition too_large : Response :=
  mkResponse
    (JObject [(lit "error", JString (lit "Payload too large"));
              (lit "details", JString (lit "content exceeds size limit"))])
    413.

Definition duplicate_id : Response :=
  mkResponse
    (JObject [(lit "error", JString (lit "Duplicate id"));
              (lit "details",
               JString (lit "Template with this id already exists"))])
    409.

(** The [try] block, lines 51-112. *)
Definition handle_body (request : Request) : Async Response :=
  (b <- request_json request ;;
   '(id, content) <- RequestSchema.parse b ;;
   let sanitizedContent := sanitize content in
   let text := contentForDb sanitizedContent in
   templateId <- resolve_id id ;;
   if (maxBytes <? Blob_size text)%Z then ret too_large
   else
     Vis (D1Run insert_sql [templateId; text]) (fun outcome =>
       match outcome with
       | inl message =>
           if unique_violation message then ret duplicate_id
           else throw (Error message)
       | inr _ => read_back templateId
       end))%async.

Definition handle (request : Request) : Prog Response :=
  try_catch (handle_body request) on_error.

End CreateTemplateApi.

(** ** The sibling handler that inserts through the ORM *)
Module CreateTemplateApiOrm.

Definition templatesTable : jsstring := lit "templatesTable".

(** The [try] block, lines 51-92. *)
Definition handle_body (request : Request) : Async Response :=
  (b <- request_json request ;;
   '(id, content) <- RequestSchema.parse b ;;
   let sanitizedContent := sanitize content in
   let text := contentForDb sanitizedContent in
   templateId <- resolve_id id ;;
   _ <- await (DrizzleInsert templatesTable
                 [(lit "id", templateId); (lit "content", text)]) ;;
   read_back templateId)%async.

Definition handle (request : Request) : Prog Response :=
  try_catch (handle_body request) on_error.

End CreateTemplateApiOrm.

(* ===================================================================== *)
(** * Running a handler against its collaborators *)
(* ===================================================================== *)

(** The collaborators answer every call from a state of their own. *)
Definition Oracle (W : Type) : Type := forall X : Type, Event X -> W -> X * W.

Inductive Call : Type :=
| Called (X : Type) (e : Event X).
Arguments Called {X} e.

(** [run oracle p w]: the result of [p], the final state of the
    collaborators and the calls made, in order. *)
Fixpoint run {W R : Type} (oracle : Oracle W) (p : Prog R) (w : W)
  : R * W * list Call :=
  match p with
  | Ret r => (r, w, [])
  | Vis e k =>
      let (x, w1) := oracle _ e w in
      let '(r, w2, calls) := run oracle (k x) w1 in
      (r, w2, Called e :: calls)
  end.

Definition response_of {W : Type} (out : Response * W * list Call) : Response :=
  fst (fst out).
Definition calls_of {W : Type} (out : Response * W * list Call) : list Call :=
  snd out.

(** The calls that write to the store. *)
Definition is_insert (c : Call) : bool :=
  match c with
  | Called (D1Run _ _) => true
  | Called (DrizzleInsert _ _) => true
  | _ => false
  end.

Definition is_random (c : Call) : bool :=
  match c with
  | Called RandomUUID => true
  | _ => false
  end.

(* ===================================================================== *)
(** * A store to run the handlers against *)
(* ===================================================================== *)

(** Modelled from the spec: the persistence store and the identifier
    generator are collaborators outside the sources.  The spec describes a
    store keyed by identifier whose insert reports a uniqueness violation
    and whose point lookup sees the preceding insert; [fresh] holds the
    identifiers the generator will hand out, and [outage], when set, is
    the message every insert rejects with. *)
Module D1.

Record World : Type := mkWorld {
  rows : list (jsstring * jsstring);
  fresh : list jsstring;
  outage : option jsstring
}.

Definition unique_failed : jsstring :=
  lit "D1_ERROR: UNIQUE constraint failed: templates_table.id: SQLITE_CONSTRAINT".

Fixpoint find (id : jsstring) (rs : list (jsstring * jsstring)) : option jsstring :=
  match rs with
  | [] => None
  | (i, c) :: rs' => if JsString.eqb i id then Some c else find id rs'
  end.

Definition row (id content : jsstring) : JSON :=
  JObject [(lit "id", JString id); (lit "content", JString content)].

Definition insert (id content : jsstring) (w : World) : (jsstring + unit) * World :=
  match outage w with
  | Some m => (inl m, w)
  | None =>
      match find id (rows w) with
      | Some _ => (inl unique_failed, w)
      | None => (inr tt, mkWorld (rows w ++ [(id, content)]) (fresh w) None)
      end
  end.

Definition oracle : Oracle World :=
  fun X e =>
    match e in Event X return World -> X * World with
    | RandomUUID => fun w =>
        match fresh w with
        | u :: us => (u, mkWorld (rows w) us (outage w))
        | [] => (lit "00000000-0000-4000-8000-000000000000", w)
        end
    | D1Run _ [id; content] => insert id content
    | D1Run _ _ => fun w => (inl (lit "D1_ERROR: wrong number of bindings"), w)
    | D1First _ [id] => fun w =>
        (inr (option_map (row id) (find id (rows w))), w)
    | D1First _ _ => fun w => (inl (lit "D1_ERROR: wrong number of bindings"), w)
    | DrizzleInsert _ [(_, id); (_, content)] => insert id content
    | DrizzleInsert _ _ => fun w => (inl (lit "D1_ERROR: missing column"), w)
    | ConsoleError _ _ => fun w => (tt, w)
    end.

Definition empty : World := mkWorld [] [] None.

End D1.

Definition uuid1 : jsstring := lit "123e4567-e89b-42d3-a456-426614174000".

Definition post (id : option jsstring) (content : JSON) : Request :=
  mkRequest
    (inr (JObject (match id with
                   | Some i => [(lit "id", JString i)]
                   | None => []
                   end ++ [(lit "content", content)]))).

(** The identifier a handler works with, the state of the collaborators
    once it is known, and the calls made to obtain it. *)
Definition resolved {W : Type} (oracle : Oracle W) (id : option jsstring) (w : W)
  : jsstring * W * list Call :=
  match id with
  | Some i => (i, w, [])
  | None =>
      let (u, w1) := oracle _ RandomUUID w in (u, w1, [Called RandomUUID])
  end.

(** The read-back and the answer, once the row is inserted. *)
Definition after_insert {W : Type} (oracle : Oracle W) (templateId : jsstring)
           (w : W) : Response * W * list Call :=
  run oracle (try_catch (read_back templateId) on_error) w.

Definition templateId_of {W : Type} (r : jsstring * W * list Call) : jsstring :=
  fst (fst r).
Definition world_of {W : Type} (r : jsstring * W * list Call) : W :=
  snd (fst r).

(** The row a call writes, if it is an insert. *)
Definition written (c : Call) : list (jsstring * jsstring) :=
  match c with
  | Called (D1Run _ [id; content]) => [(id, content)]
  | Called (DrizzleInsert _ [(_, id); (_, content)]) => [(id, content)]
  | _ => []
  end.

(** The validation rule in the words of the specification: an optional
    [id] in the canonical UUID format, and a [content] that is a string,
    an object or an array. *)
Definition id_acceptable (v : option JSON) : bool :=
  match v with
  | None => true
  | Some (JString s) => RequestSchema.is_uuid s
  | Some _ => false
  end.

Definition content_acceptable (v : option JSON) : bool :=
  match v with
  | Some (JString _) | Some (JObject _) | Some (JArray _) => true
  | _ => false
  end.

Definition acceptable (b : JSON) : bool :=
  match b with
  | JObject props =>
      id_acceptable (get (lit "id") props) &&
      content_acceptable (get (lit "content") props)
  | _ => false
  end.

(* ===================================================================== *)
(** * Notions used to reason about the scrub *)
(* ===================================================================== *)

Module Overlap.

Definition mem (c : char16) (s : jsstring) : bool := existsb (N.eqb c) s.

(** [clash p t]: [p] and [t] differ at a position both have, so that [p]
    cannot match where [t] stands, whatever follows [t]. *)
Fixpoint clash (p t : jsstring) : bool :=
  match p, t with
  | x :: p', y :: t' => negb (N.eqb x y) || clash p' t'
  | _, _ => false
  end.

(** Every non-empty suffix of [q] clashes with [p]: no match of [p] can
    start inside an occurrence of [q]. *)
Fixpoint tails_clash (p q : jsstring) : bool :=
  match q with
  | [] => true
  | _ :: q' => clash p q && tails_clash p q'
  end.

(** No match of [p] can overlap an occurrence of [q]. *)
Definition apart (p q : jsstring) : bool :=
  tails_clash p q &&
  match q with
  | [] => false
  | q0 :: _ => negb (mem q0 (tl p))
  end.

(** A replacement [rep] cannot create an occurrence of [q]: the first
    character of [q] is not in [rep], and the first character of [rep] is
    not in the rest of [q]. *)
Definition inert (rep q : jsstring) : bool :=
  match rep, q with
  | r0 :: _, q0 :: qt => negb (mem q0 rep) && negb (mem r0 qt)
  | _, _ => false
  end.

(** A code unit that [QuoteJSONString] copies as it is and that is not
    half of a surrogate pair. *)
Definition plain (c : char16) : bool :=
  (negb (c <? 32) && negb (c =? 34) && negb (c =? 92))%N
  && negb (JsString.is_high_surrogate c) && negb (JsString.is_low_surrogate c).

End Overlap.

(* ===================================================================== *)
(** * JSON.parse *)
(* ===================================================================== *)

(** How a client reads the [content] field of the response back.  A number
    literal is kept as it is written, which is the number [JSON.parse]
    gives for a literal that [JSON.stringify] wrote. *)
Module JSONParse.
Import JsString JsNumber.

Definition is_ws (c : char16) : bool :=
  ((c =? 32) || (c =? 9) || (c =? 10) || (c =? 13))%N.

Fixpoint skip_ws (s : jsstring) : jsstring :=
  match s with
  | c :: s' => if is_ws c then skip_ws s' else s
  | [] => []
  end.

Definition hex_value (c : char16) : option N :=
  (if is_digit c then Some (c - 48)
   else if (97 <=? c) && (c <=? 102) then Some (c - 87)
   else if (65 <=? c) && (c <=? 70) then Some (c - 55)
   else None)%N.

(** The character a one-letter escape stands for. *)
Definition unescape (e : char16) : option char16 :=
  (if e =? 34 then Some 34
   else if e =? 92 then Some 92
   else if e =? 47 then Some 47
   else if e =? 98 then Some 8
   else if e =? 102 then Some 12
   else if e =? 110 then Some 10
   else if e =? 114 then Some 13
   else if e =? 116 then Some 9
   else None)%N.

Definition prepend (c : char16) (r : option (jsstring * jsstring))
  : option (jsstring * jsstring) :=
  match r with
  | Some (str, rest) => Some (c :: str, rest)
  | None => None
  end.

(** The characters of a string literal, after its opening quote, up to
    the closing one. *)
Fixpoint parse_chars (s : jsstring) : option (jsstring * jsstring) :=
  match s with
  | [] => None
  | c :: rest =>
      if (c =? 34)%N then Some ([], rest)
      else if (c =? 92)%N then
        match rest with
        | [] => None
        | e :: rest1 =>
            if (e =? 117)%N then
              match rest1 with
              | h1 :: h2 :: h3 :: h4 :: rest2 =>
                  match hex_value h1, hex_value h2, hex_value h3, hex_value h4 with
                  | Some a, Some b, Some c', Some d =>
                      prepend (4096 * a + 256 * b + 16 * c' + d)%N
                              (parse_chars rest2)
                  | _, _, _, _ => None
                  end
              | _ => None
              end
            else
              match unescape e with
              | Some u => prepend u (parse_chars rest1)
              | None => None
              end
        end
      else if (c <? 32)%N then None
      else prepend c (parse_chars rest)
  end.

Fixpoint span (p : char16 -> bool) (s : jsstring) : jsstring * jsstring :=
  match s with
  | c :: s' =>
      if p c then let (a, b) := span p s' in (c :: a, b) else ([], s)
  | [] => ([], [])
  end.

(** [CreateDataProperty] on the object under construction: a repeated key
    overwrites the earlier value; [__proto__] is a key like any other. *)
Definition define_own (o : entries) (kv : jsstring * JSON) : entries :=
  if has_own (fst kv) o then overwrite (fst kv) (snd kv) o else o ++ [kv].

Definition define_all (members : entries) : entries :=
  fold_left define_own members [].

(** One member [key : value] of an object. *)
Definition parse_member (value : jsstring -> option (JSON * jsstring))
           (s : jsstring) : option ((jsstring * JSON) * jsstring) :=
  match skip_ws s with
  | c :: r =>
      if (c =? 34)%N then
        match parse_chars r with
        | Some (k, r1) =>
            match skip_ws r1 with
            | c2 :: r2 =>
                if (c2 =? 58)%N then
                  match value r2 with
                  | Some (v, r3) => Some ((k, v), r3)
                  | None => None
                  end
                else None
            | [] => None
            end
        | None => None
        end
      else None
  | [] => None
  end.

(** A value, then what follows the first element of an array or the first
    member of an object.  [fuel] bounds the number of characters read. *)
Fixpoint parse_value (fuel : nat) (s : jsstring) : option (JSON * jsstring) :=
  match fuel with
  | O => None
  | S f =>
      match skip_ws s with
      | [] => None
      | c :: r =>
          if (c =? 34)%N then
            match parse_chars r with
            | Some (str, r1) => Some (JString str, r1)
            | None => None
            end
          else if (c =? 91)%N then
            match skip_ws r with
            | [] => None
            | d :: r' =>
                if (d =? 93)%N then Some (JArray [], r')
                else
                  match parse_value f r with
                  | Some (v, r1) =>
                      match parse_elements f r1 with
                      | Some (vs, r2) => Some (JArray (v :: vs), r2)
                      | None => None
                      end
                  | None => None
                  end
            end
          else if (c =? 123)%N then
            match skip_ws r with
            | [] => None
            | d :: r' =>
                if (d =? 125)%N then Some (JObject [], r')
                else
                  match parse_member (parse_value f) r with
                  | Some (m, r1) =>
                      match parse_members f r1 with
                      | Some (ms, r2) => Some (JObject (define_all (m :: ms)), r2)
                      | None => None
                      end
                  | None => None
                  end
            end
          else if starts_with (lit "null") (c :: r) then Some (JNull, skipn 3 r)
          else if starts_with (lit "true") (c :: r) then Some (JBool true, skipn 3 r)
          else if starts_with (lit "false") (c :: r) then Some (JBool false, skipn 4 r)
          else
            let (lexeme, r1) := span number_char (c :: r) in
            if is_number lexeme then Some (JNumber lexeme, r1) else None
      end
  end
with parse_elements (fuel : nat) (s : jsstring) : option (list JSON * jsstring) :=
  match fuel with
  | O => None
  | S f =>
      match skip_ws s with
      | [] => None
      | c :: r =>
          if (c =? 93)%N then Some ([], r)
          else if (c =? 44)%N then
            match parse_value f r with
            | Some (v, r1) =>
                match parse_elements f r1 with
                | Some (vs, r2) => Some (v :: vs, r2)
                | None => None
                end
            | None => None
            end
          else None
      end
  end
with parse_members (fuel : nat) (s : jsstring) : option (entries * jsstring) :=
  match fuel with
  | O => None
  | S f =>
      match skip_ws s with
      | [] => None
      | c :: r =>
          if (c =? 125)%N then Some ([], r)
          else if (c =? 44)%N then
            match parse_member (parse_value f) r with
            | Some (m, r1) =>
                match parse_members f r1 with
                | Some (ms, r2) => Some (m :: ms, r2)
                | None => None
                end
            | None => None
            end
          else None
      end
  end.

(** [JSON.parse(text)]; [None] stands for the [SyntaxError]. *)
Definition parse (text : jsstring) : option JSON :=
  match parse_value (S (List.length text)) text with
  | Some (v, rest) =>
      match skip_ws rest with
      | [] => Some v
      | _ :: _ => None
      end
  | None => None
  end.

End JSONParse.

(** Every number of the value is finite: its text is a JSON number
    literal. *)
Fixpoint numbers_ok (v : JSON) : bool :=
  match v with
  | JNumber repr => JsNumber.is_finite repr
  | JArray items => forallb numbers_ok items
  | JObject props => forallb (fun kv => numbers_ok (snd kv)) props
  | _ => true
  end.

(** The [content] field of a response body, parsed. *)
Definition parsed_content (response : Response) : option JSON :=
  match get (lit "content") (own_entries (body response)) with
  | Some (JString text) => JSONParse.parse text
  | _ => None
  end.

(** The characters a number literal can start with. *)
Definition opens_number (c : char16) : bool :=
  ((c =? 45)%N || JsNumber.is_digit c).

(** What may follow a value in a text: nothing, or a character that
    cannot continue a number literal. *)
Definition ends_value (rest : jsstring) : bool :=
  match rest with
  | [] => true
  | c :: _ => negb (JsNumber.number_char c)
  end.

(** The text [JSON.stringify] writes after the first element of an array
    or the first member of an object, and the text of one member. *)
Definition more (parts : list jsstring) : jsstring :=
  flat_map (fun q => 44%N :: q) parts.

Definition member_text (kv : jsstring * JSON) : jsstring :=
  JSONText.quote (fst kv) ++ lit ":" ++ JSONText.stringify (snd kv).


(* ===================================================================== *)
(** * Notions used to describe the calls of a handler *)
(* ===================================================================== *)

(** [schema.responses], lines 40-44: the statuses the route declares. *)
Definition schema_responses : list N := [201; 400; 500]%N.

Definition report (error : Exception) : Event unit :=
  ConsoleError (lit "CreateTemplateApi error:") error.

Definition failed_fetch : jsstring := lit "Failed to fetch inserted template".

Definition is_select (c : Call) : bool :=
  match c with
  | Called (D1First _ _) => true
  | _ => false
  end.

Definition is_log (c : Call) : bool :=
  match c with
  | Called (ConsoleError _ _) => true
  | _ => false
  end.

(** The identifier a call looks up, if it is a lookup. *)
Definition looked_up (c : Call) : list jsstring :=
  match c with
  | Called (D1First _ [id]) => [id]
  | _ => []
  end.

(** The stage of the pipeline a call belongs to: identifier, insert,
    read-back, error report. *)
Definition stage (c : Call) : nat :=
  match c with
  | Called RandomUUID => 0
  | Called (D1Run _ _) => 1
  | Called (DrizzleInsert _ _) => 1
  | Called (D1First _ _) => 2
  | Called (ConsoleError _ _) => 3
  end.

(** [increasing l]: every element is smaller than the next one. *)
Fixpoint increasing (l : list nat) : bool :=
  match l with
  | a :: ((b :: _) as rest) => Nat.ltb a b && increasing rest
  | _ => true
  end.

(** What validation makes of a request: the parsed [{id, content}], or
    nothing when [request.json()] rejects or the schema refuses the body. *)
Definition validated (request : Request) : option (option jsstring * JSON) :=
  match json request with
  | inl _ => None
  | inr b =>
      match RequestSchema.safeParse b with
      | inl _ => None
      | inr r => Some r
      end
  end.

(* ===================================================================== *)
(** * Notions used to describe values and texts *)
(* ===================================================================== *)

(** In every object of the value the keys are pairwise distinct, as in
    every object that [JSON.parse] builds. *)
Inductive DistinctKeys : JSON -> Prop :=
| Distinct_null : DistinctKeys JNull
| Distinct_bool b : DistinctKeys (JBool b)
| Distinct_number r : DistinctKeys (JNumber r)
| Distinct_string s : DistinctKeys (JString s)
| Distinct_array items : Forall DistinctKeys items -> DistinctKeys (JArray items)
| Distinct_object props :
    NoDup (keys props) ->
    Forall (fun kv => DistinctKeys (snd kv)) props ->
    DistinctKeys (JObject props).

(** A text of ASCII characters. *)
Definition ascii_text (s : jsstring) : bool :=
  forallb (fun c => (c <? 128)%N) s.

(** The SQL text of a call to the database, if it carries one. *)
Definition sql_of (c : Call) : list jsstring :=
  match c with
  | Called (D1Run sql _) => [sql]
  | Called (D1First sql _) => [sql]
  | _ => []
  end.

(* ===================================================================== *)
(** * Notions used to describe the stored text *)
(* ===================================================================== *)

(** [over_strings f v]: the value [v] with [f] applied to every string
    value and to every property name; the structure, the numbers, the
    booleans and [null] are kept. *)
Fixpoint over_strings (f : jsstring -> jsstring) (v : JSON) : JSON :=
  match v with
  | JString s => JString (f s)
  | JArray items => JArray (map (over_strings f) items)
  | JObject props =>
      JObject (map (fun kv => (f (fst kv), over_strings f (snd kv))) props)
  | _ => v
  end.

(** What [JSON.parse] makes of the text of [v]: a number that is not
    finite was written [null]; in every object a repeated key keeps its
    first position and its last value. *)
Fixpoint as_parsed (v : JSON) : JSON :=
  match v with
  | JNumber repr => if JsNumber.is_finite repr then v else JNull
  | JArray items => JArray (map as_parsed items)
  | JObject props =>
      JObject (JSONParse.define_all
                 (map (fun kv => (fst kv, as_parsed (snd kv))) props))
  | _ => v
  end.

(** The text of [v] is read as [v'], whatever follows it. *)
Definition reads_as (v v' : JSON) : Prop :=
  forall fuel rest,
    (List.length (JSONText.stringify v) <= fuel)%nat ->
    ends_value rest = true ->
    JSONParse.parse_value fuel (JSONText.stringify v ++ rest) = Some (v', rest).

(* ===================================================================== *)
(** * Notions used to compare bodies and stores *)
(* ===================================================================== *)

(** The fields that [RequestSchema] declares, lines 7-10. *)
Definition known_field (kv : jsstring * JSON) : bool :=
  JsString.eqb (fst kv) (lit "id") || JsString.eqb (fst kv) (lit "content").


(* ===================================================================== *)
(** * Facts about strings and values *)
(* ===================================================================== *)

Lemma JSON_induction (P : JSON -> Prop) :
  P JNull ->
  (forall b, P (JBool b)) ->
  (forall r, P (JNumber r)) ->
  (forall s, P (JString s)) ->
  (forall items, (forall x, In x items -> P x) -> P (JArray items)) ->
  (forall props, (forall k x, In (k, x) props -> P x) -> P (JObject props)) ->
  forall v, P v.
Proof.
  intros Hnull Hbool Hnum Hstr Harr Hobj.
  fix IH 1.
  intros [ | b | r | s | items | props].
  - exact Hnull.
  - apply Hbool.
  - apply Hnum.
  - apply Hstr.
  - apply Harr.
    induction items as [ | y ys IHys]; intros x Hx.
    + destruct Hx.
    + destruct Hx as [<- | Hx]; [apply IH | apply IHys; exact Hx].
  - apply Hobj.
    induction props as [ | [k' y] ps IHps]; intros k x Hx.
    + destruct Hx.
    + destruct Hx as [Heq | Hx].
      * injection Heq as _ <-. apply IH.
      * apply (IHps k x Hx).
Qed.

Module JsStringFacts.
Import JsString.

Lemma eqb_eq a b : eqb a b = true <-> a = b.
Proof.
  revert b; induction a as [ | x a IH]; intros [ | y b]; simpl;
    try (split; [discriminate | discriminate]); try tauto.
  rewrite andb_true_iff, N.eqb_eq, IH.
  split; [intros [-> ->]; reflexivity | intros [= -> ->]; auto].
Qed.

Lemma eqb_refl a : eqb a a = true.
Proof. apply eqb_eq; reflexivity. Qed.

Lemma eqb_neq a b : eqb a b = false <-> a <> b.
Proof.
  rewrite <- eqb_eq. destruct (eqb a b); split; congruence.
Qed.

Lemma eqb_sym a b : eqb a b = eqb b a.
Proof.
  destruct (eqb a b) eqn:E.
  - apply eqb_eq in E; subst; symmetry; apply eqb_refl.
  - symmetry; apply eqb_neq; apply eqb_neq in E; congruence.
Qed.

Lemma starts_with_app p s : starts_with p (p ++ s) = true.
Proof. induction p; simpl; [ | rewrite N.eqb_refl]; auto. Qed.

Lemma starts_with_iff p s :
  starts_with p s = true <-> exists t, s = p ++ t.
Proof.
  revert s; induction p as [ | x p IH]; intros s; simpl.
  - split; [intros _; exists s; reflexivity | reflexivity].
  - destruct s as [ | y s].
    + split; [discriminate | intros [t Ht]; discriminate].
    + rewrite andb_true_iff, N.eqb_eq, IH.
      split.
      * intros [-> [t ->]]; exists t; reflexivity.
      * intros [t [= -> ->]]; split; [reflexivity | exists t; reflexivity].
Qed.

Lemma includes_unfold p c s :
includes p (c :: s) = starts_with p (c :: s) || includes p s.
Proof. reflexivity. Qed.

Lemma includes_iff p s :
  includes p s = true <-> exists a b, s = a ++ p ++ b.
Proof.
  induction s as [ | c s IH]; simpl.
  - rewrite orb_false_r, starts_with_iff. split.
    + intros [t Ht]; exists [], t; exact Ht.
    + intros [a [b H]]. destruct a; [exists b; exact H | discriminate].
  - rewrite orb_true_iff, starts_with_iff, IH. split.
    + intros [[t Ht] | [a [b ->]]].
      * exists [], t; exact Ht.
      * exists (c :: a), b; reflexivity.
    + intros [[ | c' a] [b H]].
      * left; exists b; exact H.
      * right; injection H as _ ->; exists a, b; reflexivity.
Qed.

End JsStringFacts.

(* ===================================================================== *)
(** * Facts about the sanitizer *)
(* ===================================================================== *)

Section SanitizeFacts.
Import JsStringFacts.

Lemma sanitize_array items :
  sanitize (JArray items) = JArray (map sanitize items).
Proof. reflexivity. Qed.

Lemma sanitize_object input :
  sanitize (JObject input) = JObject (sanitize_entries input []).
Proof. reflexivity. Qed.

Lemma sanitize_entries_cons kv input output :
  sanitize_entries (kv :: input) output =
  sanitize_entries input (sanitize_step output kv).
Proof. reflexivity. Qed.

Lemma has_own_In k o : has_own k o = true <-> In k (keys o).
Proof.
  unfold has_own, keys. rewrite existsb_exists, in_map_iff.
  split; intros [kv [H1 H2]]; exists kv.
  - apply eqb_eq in H2. auto.
  - split; [exact H2 | apply eqb_eq; exact H1].
Qed.

Lemma has_own_false k o : has_own k o = false <-> ~ In k (keys o).
Proof.
  rewrite <- has_own_In. destruct (has_own k o); split; congruence.
Qed.

Lemma keys_overwrite k x o : keys (overwrite k x o) = keys o.
Proof.
  induction o as [ | [k' y] o IH]; simpl; [reflexivity | ].
  destruct (JsString.eqb k' k); simpl; [ | rewrite IH]; reflexivity.
Qed.

Lemma In_overwrite k x o k1 x1 :
  In (k1, x1) (overwrite k x o) ->
  (k1 = k /\ x1 = x) \/ In (k1, x1) o.
Proof.
  induction o as [ | [k' y] o IH]; simpl; [tauto | ].
  destruct (JsString.eqb k' k) eqn:E; simpl.
  - apply eqb_eq in E; subst k'.
    intros [[= <- <-] | H]; auto.
  - intros [H | H]; [auto | ].
    destruct (IH H); auto.
Qed.

(** What [output[k] = x] leaves in [output]. *)
Lemma In_assign output k x k1 x1 :
  In (k1, x1) (assign output k x) ->
  (k1 = k /\ x1 = x /\ k <> proto_key) \/ In (k1, x1) output.
Proof.
  unfold assign.
  destruct (JsString.eqb k proto_key) eqn:Ep; [auto | ].
  apply eqb_neq in Ep.
  destruct (has_own k output).
  - intros H; destruct (In_overwrite _ _ _ _ _ H) as [[-> ->] | ?]; auto.
  - rewrite in_app_iff; simpl. intros [H | [[= <- <-] | []]]; auto.
Qed.

Lemma keys_assign output k x :
  keys (assign output k x) =
  if JsString.eqb k proto_key || has_own k output then keys output
  else keys output ++ [k].
Proof.
  unfold assign.
  destruct (JsString.eqb k proto_key); simpl; [reflexivity | ].
  destruct (has_own k output).
  - apply keys_overwrite.
  - unfold keys; rewrite map_app; reflexivity.
Qed.

(** Every pair the loop leaves in its output was either there before,
    or is the sanitized image of an input pair with a permitted key. *)
Lemma In_sanitize_entries input : forall output k x,
  In (k, x) (sanitize_entries input output) ->
  In (k, x) output \/
  (k <> elementScript /\ k <> proto_key /\
   exists v, In (k, v) input /\ x = sanitize v).
Proof.
  induction input as [ | [k0 v0] input IH]; intros output k x H.
  - left; exact H.
  - rewrite sanitize_entries_cons in H.
    destruct (IH _ _ _ H) as [Hin | (Hk & Hp & v & Hv & ->)].
    + unfold sanitize_step in Hin; simpl in Hin.
      destruct (JsString.eqb k0 elementScript) eqn:E; [auto | ].
      apply eqb_neq in E.
      destruct (In_assign _ _ _ _ _ Hin) as [(-> & -> & Hp) | ?]; [ | auto].
      right; repeat split; auto.
      exists v0; split; [left; reflexivity | reflexivity].
    + right; repeat split; auto.
      exists v; split; [right; exact Hv | reflexivity].
Qed.

Lemma NoDup_keys_assign output k x :
  NoDup (keys output) -> NoDup (keys (assign output k x)).
Proof.
  intros H. rewrite keys_assign.
  destruct (JsString.eqb k proto_key); simpl; [exact H | ].
  destruct (has_own k output) eqn:E; [exact H | ].
  apply has_own_false in E.
  apply NoDup_app; [exact H | repeat constructor; intros [] | ].
  intros a Ha [<- | []]; contradiction.
Qed.

Lemma NoDup_keys_sanitize_entries input : forall output,
  NoDup (keys output) -> NoDup (keys (sanitize_entries input output)).
Proof.
  induction input as [ | kv input IH]; intros output H; [exact H | ].
  rewrite sanitize_entries_cons. apply IH.
  unfold sanitize_step.
  destruct (JsString.eqb (fst kv) elementScript);
    [exact H | apply NoDup_keys_assign; exact H].
Qed.

Lemma mentions_sanitize k : forall v,
  k = elementScript -> mentions k (sanitize v) = false.
Proof.
  intros v ->. induction v as [ | b | r | s | items IH | props IH]
    using JSON_induction; try reflexivity.
  - rewrite sanitize_array; simpl.
    destruct (existsb _ _) eqn:E; [ | reflexivity].
    apply existsb_exists in E. destruct E as [y [Hy1 Hy2]].
    apply in_map_iff in Hy1. destruct Hy1 as [x [<- Hx]].
    rewrite (IH x Hx) in Hy2; discriminate.
  - rewrite sanitize_object; simpl.
    destruct (existsb _ _) eqn:E; [ | reflexivity].
    apply existsb_exists in E. destruct E as [[k x] [H1 H2]]; simpl in H2.
    destruct (In_sanitize_entries _ _ _ _ H1) as [[] | (Hk & _ & v & Hv & ->)].
    apply eqb_neq in Hk. rewrite Hk, (IH _ _ Hv) in H2; discriminate.
Qed.

(** [sanitize] lands in the [Sanitized] shape ... *)
Lemma sanitize_Sanitized v : Sanitized (sanitize v).
Proof.
  induction v as [ | b | r | s | items IH | props IH]
    using JSON_induction; try (simpl; constructor).
  - apply Forall_forall. intros y Hy.
    apply in_map_iff in Hy. destruct Hy as [x [<- Hx]]; auto.
  - apply NoDup_keys_sanitize_entries; constructor.
  - apply Forall_forall. intros [k x] H; simpl.
    destruct (In_sanitize_entries _ _ _ _ H) as [[] | (Hk & Hp & v & Hv & ->)].
    repeat split; eauto.
Qed.

Lemma sanitize_entries_fixed input : forall output,
  NoDup (keys output ++ keys input) ->
  Forall (fun kv => fst kv <> elementScript /\ fst kv <> proto_key
                    /\ sanitize (snd kv) = snd kv) input ->
  sanitize_entries input output = output ++ input.
Proof.
  induction input as [ | [k v] input IH]; intros output Hnd Hall.
  - simpl; rewrite app_nil_r; reflexivity.
  - rewrite sanitize_entries_cons.
    inversion Hall as [ | ? ? (Hk & Hp & Hv) Hrest]; subst; simpl in *.
    unfold sanitize_step, assign; simpl.
    apply eqb_neq in Hk, Hp. rewrite Hk, Hp, Hv.
    assert (Hfresh : has_own k output = false).
    { apply has_own_false. intros Hin.
      apply NoDup_remove_2 in Hnd. apply Hnd, in_or_app; auto. }
    rewrite Hfresh, IH; [rewrite <- app_assoc; reflexivity | | exact Hrest].
    unfold keys in *. rewrite map_app; simpl. rewrite <- app_assoc. exact Hnd.
Qed.

(** ... and is the identity on that shape. *)
Lemma sanitize_fixed v : Sanitized v -> sanitize v = v.
Proof.
  induction v as [ | b | r | s | items IH | props IH]
    using JSON_induction; intros Hs; try reflexivity.
  - inversion Hs as [ | | | | ? Hall | ]; subst.
    rewrite sanitize_array. f_equal.
    rewrite <- (map_id items) at 2. apply map_ext_in.
    intros x Hx. apply IH; [exact Hx | ].
    rewrite Forall_forall in Hall; auto.
  - inversion Hs as [ | | | | | ? Hnd Hall]; subst.
    rewrite sanitize_object, sanitize_entries_fixed; [reflexivity | exact Hnd | ].
    rewrite Forall_forall in *. intros [k x] Hin.
    destruct (Hall _ Hin) as (Hk & Hp & Hx); simpl in *.
    repeat split; auto. apply (IH k x Hin Hx).
Qed.

(** What [sanitize] does keep: scalars, the elements of an array in their
    order, and, of an object with distinct keys, every key other than
    [elementScript] and [__proto__], in the order of the input. *)
Lemma sanitize_scalar v :
  match v with JArray _ | JObject _ => True | _ => sanitize v = v end.
Proof. destruct v; auto. Qed.

Lemma sanitize_array_length items :
  List.length (own_items (sanitize (JArray items))) = List.length items /\
  forall i, nth_error (own_items (sanitize (JArray items))) i
            = option_map sanitize (nth_error items i).
Proof.
  rewrite sanitize_array. simpl. split; [apply length_map | ].
  intros i. apply nth_error_map.
Qed.

Lemma sanitize_entries_keys input : forall output,
  NoDup (keys output ++ keys input) ->
  keys (sanitize_entries input output) = keys output ++ filter kept (keys input).
Proof.
  induction input as [ | [k v] input IH]; intros output Hnd.
  - simpl. rewrite app_nil_r. reflexivity.
  - rewrite sanitize_entries_cons. unfold sanitize_step; simpl fst; simpl snd.
    assert (Hrest : NoDup (keys output ++ keys input)).
    { simpl in Hnd. apply NoDup_remove_1 in Hnd. exact Hnd. }
    assert (Hfresh : has_own k output = false).
    { apply has_own_false. intros Hin. simpl in Hnd.
      apply NoDup_remove_2 in Hnd. apply Hnd, in_or_app; auto. }
    simpl keys. simpl filter. unfold kept at 1.
    destruct (JsString.eqb k elementScript); simpl; [apply IH; exact Hrest | ].
    unfold assign. destruct (JsString.eqb k proto_key); simpl;
      [apply IH; exact Hrest | ].
    rewrite Hfresh, IH.
    + unfold keys. rewrite map_app, <- app_assoc. reflexivity.
    + unfold keys in *. rewrite map_app, <- app_assoc. exact Hnd.
Qed.

Lemma sanitize_keys input :
  NoDup (keys input) ->
  keys (own_entries (sanitize (JObject input))) = filter kept (keys input).
Proof.
  intros Hnd. rewrite sanitize_object. simpl.
  apply (sanitize_entries_keys input []). exact Hnd.
Qed.

End SanitizeFacts.

(* ===================================================================== *)
(** * Running the handlers *)
(* ===================================================================== *)

Section RunFacts.
Context {W : Type} (oracle : Oracle W).

Lemma run_bind {A B : Type} (p : Prog A) (f : A -> Prog B) (w : W) :
  run oracle (bind p f) w =
  let '(a, w1, c1) := run oracle p w in
  let '(b, w2, c2) := run oracle (f a) w1 in
  (b, w2, c1 ++ c2).
Proof.
  revert w. induction p as [a | X e k IH]; intros w; simpl.
  - destruct (run oracle (f a) w) as [[b w2] c2]. reflexivity.
  - destruct (oracle X e w) as [x w1]. rewrite IH.
    destruct (run oracle (k x) w1) as [[a w2] c1].
    destruct (run oracle (f a) w2) as [[b w3] c2]. reflexivity.
Qed.

Ltac tidy_calls :=
  simpl; rewrite ?app_nil_r, <- ?app_assoc; simpl; reflexivity.

Lemma run_resolve_id (id : option jsstring) (w : W) :
  run oracle (resolve_id id) w =
  let '(templateId, w1, c1) := resolved oracle id w in
  (inr templateId, w1, c1).
Proof.
  destruct id as [i | ]; simpl; [reflexivity | ].
  destruct (oracle _ RandomUUID w) as [u w1]. reflexivity.
Qed.

(** A body that passes validation runs as follows in the gated handler. *)
Lemma run_gated (b : JSON) (id : option jsstring) (content : JSON) (w : W) :
  RequestSchema.safeParse b = inr (id, content) ->
  run oracle (CreateTemplateApi.handle (mkRequest (inr b))) w =
  let '(templateId, w1, c1) := resolved oracle id w in
  let text := contentForDb (sanitize content) in
  if (CreateTemplateApi.maxBytes <? Blob_size text)%Z
  then (CreateTemplateApi.too_large, w1, c1)
  else
    let insertion := D1Run CreateTemplateApi.insert_sql [templateId; text] in
    let (outcome, w2) := oracle _ insertion w1 in
    match outcome with
    | inl message =>
        if CreateTemplateApi.unique_violation message
        then (CreateTemplateApi.duplicate_id, w2, c1 ++ [Called insertion])
        else
          let '(r, w3, c3) := run oracle (on_error (Error message)) w2 in
          (r, w3, c1 ++ Called insertion :: c3)
    | inr _ =>
        let '(r, w3, c3) := after_insert oracle templateId w2 in
        (r, w3, c1 ++ Called insertion :: c3)
    end.
Proof.
  intros Hparse.
  unfold CreateTemplateApi.handle, CreateTemplateApi.handle_body, try_catch,
    bindA, request_json, RequestSchema.parse, after_insert; simpl json.
  unfold ret at 1; simpl bind. rewrite Hparse. unfold ret at 1; simpl bind.
  rewrite !run_bind, run_resolve_id.
  destruct (resolved oracle id w) as [[templateId w1] c1].
  destruct (CreateTemplateApi.maxBytes <? _)%Z.
  - tidy_calls.
  - cbn [run].
    destruct (oracle _ (D1Run _ _) w1) as [[message | []] w2].
    + destruct (CreateTemplateApi.unique_violation message).
      * tidy_calls.
      * cbn -[on_error].
        destruct (run oracle (on_error (Error message)) w2) as [[r w3] c3].
        tidy_calls.
    + unfold try_catch.
      destruct (run oracle (read_back templateId) w2) as [[[e | r] w3] c3] eqn:E;
        rewrite run_bind, E.
      * destruct (run oracle (on_error e) w3) as [[r' w4] c4].
        tidy_calls.
      * tidy_calls.
Qed.

(** The same body in the handler that inserts through the ORM. *)
Lemma run_orm (b : JSON) (id : option jsstring) (content : JSON) (w : W) :
  RequestSchema.safeParse b = inr (id, content) ->
  run oracle (CreateTemplateApiOrm.handle (mkRequest (inr b))) w =
  let '(templateId, w1, c1) := resolved oracle id w in
  let text := contentForDb (sanitize content) in
  let insertion :=
    DrizzleInsert CreateTemplateApiOrm.templatesTable
      [(lit "id", templateId); (lit "content", text)] in
  let (outcome, w2) := oracle _ insertion w1 in
  match outcome with
  | inl message =>
      let '(r, w3, c3) := run oracle (on_error (Error message)) w2 in
      (r, w3, c1 ++ Called insertion :: c3)
  | inr _ =>
      let '(r, w3, c3) := after_insert oracle templateId w2 in
      (r, w3, c1 ++ Called insertion :: c3)
  end.
Proof.
  intros Hparse.
  unfold CreateTemplateApiOrm.handle, CreateTemplateApiOrm.handle_body,
    try_catch, bindA, request_json, RequestSchema.parse, after_insert;
    simpl json.
  unfold ret at 1; simpl bind. rewrite Hparse. unfold ret at 1; simpl bind.
  rewrite !run_bind, run_resolve_id.
  destruct (resolved oracle id w) as [[templateId w1] c1].
  cbn [run await bind].
  destruct (oracle _ (DrizzleInsert _ _) w1) as [[message | []] w2].
  - cbn -[on_error].
    destruct (run oracle (on_error (Error message)) w2) as [[r w3] c3].
    tidy_calls.
  - unfold throw, ret; cbn [bind]. unfold try_catch.
    destruct (run oracle (read_back templateId) w2) as [[[e | r] w3] c3] eqn:E;
      rewrite run_bind, E.
    + destruct (run oracle (on_error e) w3) as [[r' w4] c4].
      tidy_calls.
    + tidy_calls.
Qed.

End RunFacts.

Section HandlerFacts.
Context {W : Type} (oracle : Oracle W).

Lemma run_on_error (e : Exception) (w : W) :
  run oracle (on_error e) w =
  let report := ConsoleError (lit "CreateTemplateApi error:") e in
  (match e with
   | ZodError errors => validation_failed errors
   | Error message => internal_error message
   end, snd (oracle _ report w), [Called report]).
Proof.
  unfold on_error; cbn [run].
  destruct (oracle _ _ w) as [[] w1]. destruct e; reflexivity.
Qed.

Lemma resolved_calls (id : option jsstring) (w : W) :
  snd (resolved oracle id w) =
  match id with Some _ => [] | None => [Called RandomUUID] end.
Proof.
  destruct id; simpl; [reflexivity | ].
  destruct (oracle _ RandomUUID w); reflexivity.
Qed.

Lemma filter_resolved_calls (f : Call -> bool) (id : option jsstring) (w : W) :
  f (Called RandomUUID) = false ->
  filter f (snd (resolved oracle id w)) = [].
Proof.
  intros Hf. rewrite resolved_calls. destruct id; simpl; [ | rewrite Hf]; reflexivity.
Qed.

(** The read-back makes one lookup, no insert, and answers 201 or 500. *)
Lemma after_insert_calls (templateId : jsstring) (w : W) :
  filter is_insert (snd (after_insert oracle templateId w)) = [] /\
  filter is_random (snd (after_insert oracle templateId w)) = [] /\
  flat_map written (snd (after_insert oracle templateId w)) = [].
Proof.
  unfold after_insert, try_catch, read_back, bindA, await.
  cbn [bind run].
  destruct (oracle _ (D1First _ _) w) as [[m | [row | ]] w1];
    cbn -[on_error]; rewrite ?run_on_error; cbn; auto.
Qed.


End HandlerFacts.

Lemma unique_violation_pattern (message : jsstring) :
  CreateTemplateApi.unique_violation message =
  JsString.regex_test_i [lit "unique constraint failed"] message.
Proof.
  unfold CreateTemplateApi.unique_violation, JsString.regex_test_i.
  cbn [existsb].
  change (map JsString.canonicalize (lit "UNIQUE constraint failed"))
    with (map JsString.canonicalize (lit "unique constraint failed")).
  destruct (JsString.includes _ _); reflexivity.
Qed.

Lemma parse_acceptable (b : JSON) :
  acceptable b = true ->
  exists id content, RequestSchema.safeParse b = inr (id, content).
Proof.
  destruct b as [ | ? | ? | ? | ? | props]; try discriminate.
  unfold acceptable, RequestSchema.safeParse. rewrite andb_true_iff. intros [Hid Hc].
  destruct (get (lit "id") props) as [[ | | | s | | ] | ];
    try discriminate Hid;
    destruct (get (lit "content") props) as [[ | | | ? | ? | ? ] | ];
    try discriminate Hc; simpl in *; rewrite ?Hid; eauto.
Qed.

Lemma parse_unacceptable (b : JSON) :
  acceptable b = false ->
  exists issue issues, RequestSchema.safeParse b = inl (issue :: issues).
Proof.
  destruct b as [ | ? | ? | ? | ? | props]; try (simpl; eauto; fail).
  unfold acceptable, RequestSchema.safeParse. rewrite andb_false_iff.
  destruct (get (lit "id") props) as [[ | | | s | | ] | ];
    destruct (get (lit "content") props) as [[ | | | ? | ? | ? ] | ];
    simpl; try destruct (RequestSchema.is_uuid s); simpl;
    intros [? | ?]; try discriminate; eauto.
Qed.

(* ===================================================================== *)
(** * Facts about [replace_all] *)
(* ===================================================================== *)

Lemma inert_inv (rep q : jsstring) :
  Overlap.inert rep q = true ->
  exists r0 rtl q0 qt,
    rep = r0 :: rtl /\ q = q0 :: qt /\
    Overlap.mem q0 rep = false /\ Overlap.mem r0 qt = false.
Proof.
  unfold Overlap.inert. destruct rep as [ | r0 rtl]; [discriminate | ].
  destruct q as [ | q0 qt]; [discriminate | ].
  rewrite andb_true_iff, !negb_true_iff. intros [H1 H2].
  exists r0, rtl, q0, qt. auto.
Qed.

Section ReplaceFacts.
Import JsString JsStringFacts JSONText Overlap.
Variables pat rep : jsstring.

Lemma replace_all_nil : replace_all pat rep [] = [].
Proof. simp replace_all. reflexivity. Qed.

Lemma replace_all_cons (c : char16) (s : jsstring) :
  replace_all pat rep (c :: s) =
  if starts_with pat (c :: s)
  then rep ++ replace_all pat rep (skipn (Nat.pred (List.length pat)) s)
  else c :: replace_all pat rep s.
Proof.
  simp replace_all. destruct (starts_with pat (c :: s)); reflexivity.
Qed.

(** A text without the pattern is left as it is. *)
Lemma replace_all_absent (s : jsstring) :
  includes pat s = false -> replace_all pat rep s = s.
Proof.
  induction s as [ | c s IH]; intros H.
  - apply replace_all_nil.
  - simpl includes in H. apply orb_false_iff in H. destruct H as [H1 H2].
    rewrite replace_all_cons, H1, (IH H2). reflexivity.
Qed.

Lemma includes_app_r (q x y : jsstring) :
  includes q y = true -> includes q (x ++ y) = true.
Proof.
  rewrite !includes_iff. intros (a & b & ->).
  exists (x ++ a), b. rewrite app_assoc. reflexivity.
Qed.

Lemma includes_prefix (q y : jsstring) : includes q (q ++ y) = true.
Proof. apply includes_iff. exists [], y. reflexivity. Qed.

Lemma includes_cons (q : jsstring) (c : char16) (y : jsstring) :
  includes q y = true -> includes q (c :: y) = true.
Proof. intros H. simpl. rewrite H. apply orb_true_r. Qed.

Lemma mem_In (c : char16) (s : jsstring) : mem c s = true <-> In c s.
Proof.
  unfold mem. rewrite existsb_exists. split.
  - intros (x & Hx & E). apply N.eqb_eq in E. subst. exact Hx.
  - intros H. exists c. split; [exact H | apply N.eqb_refl].
Qed.

(** A pattern that is found is replaced at least once. *)
Lemma replace_all_found (s : jsstring) :
  pat <> [] -> includes pat s = true -> includes rep (replace_all pat rep s) = true.
Proof.
  intros Hpat. induction s as [ | c s IH]; intros H.
  - simpl in H. rewrite orb_false_r in H. destruct pat; [congruence | discriminate].
  - rewrite replace_all_cons. simpl includes in H.
    destruct (starts_with pat (c :: s)).
    + apply includes_prefix.
    + apply includes_cons, IH. exact H.
Qed.

(** The beginning of the result, as long as it avoids the first character
    of the replacement, is the beginning of the text. *)
Lemma starts_with_replaced (r0 : char16) (rtl : jsstring) (s : jsstring) :
  rep = r0 :: rtl ->
  forall q, mem r0 q = false ->
            starts_with q (replace_all pat rep s) = true ->
            starts_with q s = true.
Proof.
  intros Hrep. induction s as [ | c s IH]; intros [ | x q] Hq H; try reflexivity.
  - rewrite replace_all_nil in H. discriminate.
  - rewrite replace_all_cons in H.
    simpl in Hq. apply orb_false_iff in Hq. destruct Hq as [Hx Hq].
    destruct (starts_with pat (c :: s)).
    + rewrite Hrep in H. simpl in H. apply andb_true_iff in H. destruct H as [H _].
      rewrite N.eqb_sym in Hx. congruence.
    + simpl in H |- *. apply andb_true_iff in H. destruct H as [H1 H2].
      rewrite H1. simpl. apply IH; assumption.
Qed.

Lemma includes_after_replacement (q0 : char16) (qt x y : jsstring) :
  mem q0 x = false ->
  includes (q0 :: qt) (x ++ y) = true -> includes (q0 :: qt) y = true.
Proof.
  induction x as [ | r x IH]; intros Hm H; [exact H | ].
  simpl in Hm. apply orb_false_iff in Hm. destruct Hm as [Hr Hm].
  simpl app in H. simpl includes in H. simpl starts_with in H.
  rewrite Hr in H. simpl in H. apply IH; assumption.
Qed.

(** An occurrence of [q] in the result stands where [q] already stood in
    the text, at a place that was not a match. *)
Lemma occurrence_replaced (q : jsstring) :
  inert rep q = true ->
  forall n s, (List.length s <= n)%nat ->
    includes q (replace_all pat rep s) = true ->
    exists a t, s = a ++ t /\ starts_with q t = true
                /\ starts_with pat t = false.
Proof.
  intros Hi.
  destruct (inert_inv _ _ Hi) as (r0 & rtl & q0 & qt & Hrep & -> & Hq0 & Hr0).
  clear Hi.
  induction n as [ | n IH]; intros s Hlen H.
  - destruct s; [ | simpl in Hlen; lia].
    rewrite replace_all_nil in H. discriminate.
  - destruct s as [ | c s]; [rewrite replace_all_nil in H; discriminate | ].
    rewrite replace_all_cons in H. simpl in Hlen.
    destruct (starts_with pat (c :: s)) eqn:Hmatch.
    + apply includes_after_replacement in H; [ | exact Hq0].
      assert (Hl : (List.length (skipn (Nat.pred (List.length pat)) s) <= n)%nat)
        by (rewrite length_skipn; lia).
      destruct (IH _ Hl H) as (a & t & Hs & Ht).
      exists (c :: firstn (Nat.pred (List.length pat)) s ++ a), t.
      split; [ | exact Ht].
      simpl. rewrite <- app_assoc, <- Hs, firstn_skipn. reflexivity.
    + simpl includes in H. apply orb_true_iff in H. destruct H as [H | H].
      * exists [], (c :: s). split; [reflexivity | split; [ | exact Hmatch]].
        simpl in H |- *. apply andb_true_iff in H. destruct H as [H1 H2].
        rewrite H1. simpl.
        apply (starts_with_replaced r0 rtl s Hrep qt Hr0 H2).
      * assert (Hl : (List.length s <= n)%nat) by lia.
        destruct (IH s Hl H) as (a & t & -> & Ht).
        exists (c :: a), t. split; [reflexivity | exact Ht].
Qed.

(** After the replacement no occurrence of the pattern is left. *)
Lemma replace_all_removes (s : jsstring) :
  inert rep pat = true -> includes pat (replace_all pat rep s) = false.
Proof.
  intros Hi. destruct (includes pat (replace_all pat rep s)) eqn:H; [ | reflexivity].
  destruct (occurrence_replaced pat Hi (List.length s) s (le_n _) H)
    as (a & t & _ & H1 & H2).
  congruence.
Qed.

(** The replacement does not create an occurrence of [q]. *)
Lemma replace_all_keeps_absent (q s : jsstring) :
  inert rep q = true ->
  includes q s = false -> includes q (replace_all pat rep s) = false.
Proof.
  intros Hi Hs. destruct (includes q (replace_all pat rep s)) eqn:H; [ | reflexivity].
  destruct (occurrence_replaced q Hi (List.length s) s (le_n _) H)
    as (a & t & -> & H1 & _).
  apply starts_with_iff in H1. destruct H1 as [b ->].
  assert (includes q (a ++ q ++ b) = true)
    by (apply includes_iff; exists a, b; reflexivity).
  congruence.
Qed.

Lemma clash_starts_with (p t b : jsstring) :
  clash p t = true -> starts_with p (t ++ b) = false.
Proof.
  revert t. induction p as [ | x p IH]; intros [ | y t] H; try discriminate.
  simpl in H |- *. destruct (N.eqb x y); simpl in *; [apply IH; exact H | reflexivity].
Qed.

Lemma replace_all_copies (t b : jsstring) :
  tails_clash pat t = true ->
  replace_all pat rep (t ++ b) = t ++ replace_all pat rep b.
Proof.
  induction t as [ | c t IH]; intros H; [reflexivity | ].
  simpl in H. apply andb_true_iff in H. destruct H as [H1 H2].
  simpl app. rewrite replace_all_cons.
  change (c :: t ++ b) with ((c :: t) ++ b).
  rewrite (clash_starts_with _ _ b H1), (IH H2). reflexivity.
Qed.

Lemma starts_with_reaches (x : char16) (p a r : jsstring) :
  starts_with p (a ++ x :: r) = true ->
  (List.length p <= List.length a)%nat \/ In x p.
Proof.
  revert p. induction a as [ | c a IH]; intros [ | y p] H; simpl; try (left; lia).
  - simpl in H. apply andb_true_iff in H. destruct H as [H _].
    apply N.eqb_eq in H. auto.
  - simpl in H. apply andb_true_iff in H. destruct H as [_ H].
    destruct (IH p H); [left; lia | auto].
Qed.

(** An occurrence of [q] that no match can overlap survives. *)
Lemma replace_all_keeps (q : jsstring) :
  apart pat q = true ->
  forall s, includes q s = true -> includes q (replace_all pat rep s) = true.
Proof.
  unfold apart. rewrite andb_true_iff. intros [Htails Hfirst] s Hs.
  destruct q as [ | q0 qt]; [discriminate | ].
  apply negb_true_iff in Hfirst.
  apply includes_iff in Hs. destruct Hs as (a & b & ->).
  assert (Hbase : includes (q0 :: qt)
                    (replace_all pat rep ((q0 :: qt) ++ b)) = true).
  { rewrite (replace_all_copies _ b Htails). apply includes_prefix. }
  remember (List.length a) as n eqn:Hn.
  assert (Hlen : (List.length a <= n)%nat) by lia. clear Hn.
  revert a Hlen. induction n as [ | n IH]; intros a Hlen.
  - destruct a; [exact Hbase | simpl in Hlen; lia].
  - destruct a as [ | c a]; [exact Hbase | ].
    change ((c :: a) ++ (q0 :: qt) ++ b) with (c :: (a ++ (q0 :: qt) ++ b)).
    rewrite replace_all_cons. simpl in Hlen.
    destruct (starts_with pat _) eqn:Hmatch.
    + apply includes_app_r.
      assert (Hfit : (Nat.pred (List.length pat) <= List.length a)%nat).
      { destruct pat as [ | p0 pt]; [simpl; lia | ].
        simpl in Hmatch. apply andb_true_iff in Hmatch. destruct Hmatch as [_ Hm].
        change (a ++ q0 :: qt ++ b) with (a ++ q0 :: (qt ++ b)) in Hm.
        destruct (starts_with_reaches _ _ _ _ Hm) as [Hl | Hin]; [exact Hl | ].
        apply mem_In in Hin. simpl tl in Hfirst. congruence. }
      rewrite skipn_app.
      replace (Nat.pred (List.length pat) - List.length a)%nat with 0%nat by lia.
      simpl skipn at 2. apply IH. rewrite length_skipn. lia.
    + apply includes_cons, IH. lia.
Qed.

End ReplaceFacts.

(* ===================================================================== *)
(** * Facts about [QuoteJSONString] and the scrub *)
(* ===================================================================== *)

Section QuoteFacts.
Import JsString JsStringFacts JSONText Overlap.

Lemma quote_body_cons (c : char16) (s : jsstring) :
  quote_body (c :: s) =
  if is_high_surrogate c then
    match s with
    | d :: s' =>
        if is_low_surrogate d then c :: d :: quote_body s'
        else unicode_escape c ++ quote_body s
    | [] => unicode_escape c
    end
  else quote_unit c ++ quote_body s.
Proof. reflexivity. Qed.

Lemma plain_inv (c : char16) :
  plain c = true ->
  is_high_surrogate c = false /\ is_low_surrogate c = false /\
  quote_unit c = [c].
Proof.
  unfold plain. rewrite !andb_true_iff, !negb_true_iff.
  intros [[[[H32 H34] H92] Hh] Hl]. repeat split; try assumption.
  unfold quote_unit. rewrite H32, H34, H92, Hh, Hl.
  apply N.ltb_ge in H32.
  repeat match goal with
         | |- context [(c =? ?k)%N] =>
             destruct (N.eqb_spec c k); [lia | ]
         end.
  reflexivity.
Qed.

Lemma quote_body_copies (m b : jsstring) :
  forallb plain m = true -> quote_body (m ++ b) = m ++ quote_body b.
Proof.
  induction m as [ | c m IH]; intros H; [reflexivity | ].
  simpl in H. apply andb_true_iff in H. destruct H as [Hc Hm].
  destruct (plain_inv c Hc) as (Hh & _ & Hq).
  simpl app. rewrite quote_body_cons, Hh, Hq, (IH Hm). reflexivity.
Qed.

(** A run of plain characters inside a string shows in its quoted form. *)
Lemma quote_body_includes (m0 : char16) (mt : jsstring) :
  forallb plain (m0 :: mt) = true ->
  forall n s, (List.length s <= n)%nat ->
    includes (m0 :: mt) s = true ->
    includes (m0 :: mt) (quote_body s) = true.
Proof.
  intros Hplain.
  assert (Hm0 : is_low_surrogate m0 = false).
  { simpl in Hplain. apply andb_true_iff in Hplain.
    destruct Hplain as [H _]. apply (plain_inv _ H). }
  induction n as [ | n IH]; intros s Hlen H.
  - destruct s; [discriminate H | simpl in Hlen; lia].
  - destruct s as [ | c s]; [discriminate H | ]. simpl in Hlen.
    rewrite includes_unfold in H. apply orb_true_iff in H. destruct H as [H | H].
    + apply starts_with_iff in H. destruct H as [b ->].
      rewrite (quote_body_copies _ b Hplain). apply includes_prefix.
    + rewrite quote_body_cons. destruct (is_high_surrogate c).
      * destruct s as [ | d s]; [discriminate H | ].
        destruct (is_low_surrogate d) eqn:Hd.
        -- apply includes_cons, includes_cons, IH; [simpl in Hlen; lia | ].
           rewrite includes_unfold in H. apply orb_true_iff in H.
           destruct H as [H | H]; [ | exact H].
           simpl in H. apply andb_true_iff in H. destruct H as [H _].
           apply N.eqb_eq in H. congruence.
        -- apply includes_app_r, IH; [lia | exact H].
      * apply includes_app_r, IH; [lia | exact H].
Qed.

Lemma stringify_string_includes (m s : jsstring) :
  m <> [] -> forallb plain m = true ->
  includes m s = true -> includes m (stringify (JString s)) = true.
Proof.
  intros Hne Hplain H. destruct m as [ | m0 mt]; [congruence | ].
  simpl stringify. unfold quote.
  apply includes_app_r.
  apply includes_iff.
  pose proof (quote_body_includes m0 mt Hplain (List.length s) s (le_n _) H) as Hq.
  apply includes_iff in Hq. destruct Hq as (a & b & ->).
  exists a, (b ++ [34%N]). rewrite <- !app_assoc. reflexivity.
Qed.

Lemma includes_app_l (q x y : jsstring) :
  includes q x = true -> includes q (x ++ y) = true.
Proof.
  rewrite !includes_iff. intros (a & b & ->).
  exists a, (b ++ y). rewrite <- !app_assoc. reflexivity.
Qed.

Lemma includes_join_comma (q p : jsstring) (parts : list jsstring) :
  In p parts -> includes q p = true -> includes q (join_comma parts) = true.
Proof.
  intros Hin Hq. destruct parts as [ | p0 ps]; [destruct Hin | ].
  simpl join_comma. destruct Hin as [-> | Hin]; [apply includes_app_l; exact Hq | ].
  apply includes_app_r.
  induction ps as [ | a ps IH]; [destruct Hin | ].
  simpl flat_map. destruct Hin as [-> | Hin].
  - apply includes_cons, includes_app_l. exact Hq.
  - apply includes_cons, includes_app_r, IH. exact Hin.
Qed.

(** What shows in the quoted form of a string shows in the text of every
    value that holds the string. *)
Lemma stringify_includes_leaf (q s : jsstring) (v : JSON) :
  StringLeaf s v ->
  includes q (quote s) = true -> includes q (stringify v) = true.
Proof.
  intros Hleaf Hq. induction Hleaf as [ | items x Hin _ IH | props k x Hin _ IH].
  - exact Hq.
  - cbn [stringify]. apply includes_app_r, includes_app_l.
    apply (includes_join_comma q (stringify x)); [ | exact IH].
    apply in_map. exact Hin.
  - cbn [stringify]. apply includes_app_r, includes_app_l.
    apply (includes_join_comma q (quote k ++ lit ":" ++ stringify x)).
    + apply (in_map (fun kv => quote (fst kv) ++ lit ":" ++ stringify (snd kv))
                    props (k, x) Hin).
    + apply includes_app_r, includes_app_r. exact IH.
Qed.

(** The scrub removes both markers ... *)
Lemma scrub_removes (text : jsstring) :
  includes script_open (scrub text) = false /\
  includes script_close (scrub text) = false.
Proof.
  unfold scrub. split.
  - apply replace_all_keeps_absent; [reflexivity | ].
    apply replace_all_removes. reflexivity.
  - apply replace_all_removes. reflexivity.
Qed.

(** ... writes the escaped form wherever one stood ... *)
Lemma scrub_escapes (text : jsstring) :
  (includes script_open text = true ->
   includes script_open_escaped (scrub text) = true) /\
  (includes script_close text = true ->
   includes script_close_escaped (scrub text) = true).
Proof.
  unfold scrub. split; intros H.
  - apply replace_all_keeps; [reflexivity | ].
    apply replace_all_found; [discriminate | exact H].
  - apply replace_all_found; [discriminate | ].
    apply replace_all_keeps; [reflexivity | exact H].
Qed.

(** ... and leaves a text without the exact markers alone. *)
Lemma scrub_absent (text : jsstring) :
  includes script_open text = false ->
  includes script_close text = false ->
  scrub text = text.
Proof.
  intros Ho Hc. unfold scrub.
  rewrite (replace_all_absent _ _ _ Ho). apply replace_all_absent. exact Hc.
Qed.

End QuoteFacts.

(* ===================================================================== *)
(** * Reading back what [JSON.stringify] wrote *)
(* ===================================================================== *)

Section ParseStrings.
Import JsString JsNumber JSONText JSONParse.

Lemma hex_value_digit (n : N) :
  (n < 16)%N -> hex_value (hex_digit n) = Some n.
Proof.
  intros Hn. unfold hex_digit, hex_value, is_digit.
  destruct (N.ltb_spec n 10);
    repeat match goal with
           | |- context [(?a <=? ?b)%N] => destruct (N.leb_spec a b)
           end; cbn [andb]; try lia; f_equal; lia.
Qed.

Lemma hex_digits_value (c : N) :
  (4096 * (c / 4096) + 256 * ((c / 256) mod 16)
   + 16 * ((c / 16) mod 16) + c mod 16)%N = c.
Proof.
  pose proof (N.div_mod c 16 ltac:(discriminate)) as H1.
  pose proof (N.div_mod (c / 16) 16 ltac:(discriminate)) as H2.
  pose proof (N.div_mod (c / 256) 16 ltac:(discriminate)) as H3.
  pose proof (N.Div0.div_div c 16 16) as E1.
  change (16 * 16)%N with 256%N in E1.
  pose proof (N.Div0.div_div c 256 16) as E2.
  change (256 * 16)%N with 4096%N in E2.
  rewrite E1 in H2. rewrite E2 in H3.
  generalize dependent (c / 4096)%N. generalize dependent (c / 256)%N.
  generalize dependent (c / 16)%N. intros q1 r1 q2 r2 q3 r3.
  lia.
Qed.

Lemma parse_chars_unicode_escape (c : char16) (t : jsstring) :
  (c < 65536)%N ->
  parse_chars (unicode_escape c ++ t) = prepend c (parse_chars t).
Proof.
  intros Hc. unfold unicode_escape.
  cbn [app parse_chars N.eqb Pos.eqb].
  rewrite !hex_value_digit.
  - rewrite hex_digits_value. reflexivity.
  - apply N.mod_lt. discriminate.
  - apply N.mod_lt. discriminate.
  - apply N.mod_lt. discriminate.
  - apply N.Div0.div_lt_upper_bound. lia.
Qed.

Lemma surrogate_is_16_bit (c : char16) :
  is_high_surrogate c = true \/ is_low_surrogate c = true -> (c < 65536)%N.
Proof.
  unfold is_high_surrogate, is_low_surrogate.
  rewrite !andb_true_iff, !N.leb_le. lia.
Qed.

Lemma parse_chars_raw (c : char16) (t : jsstring) :
  (c =? 34)%N = false -> (c =? 92)%N = false -> (c <? 32)%N = false ->
  parse_chars (c :: t) = prepend c (parse_chars t).
Proof.
  intros H1 H2 H3. cbn [parse_chars]. rewrite H1, H2, H3. reflexivity.
Qed.

Lemma parse_chars_quote_unit (c : char16) (t : jsstring) :
  parse_chars (quote_unit c ++ t) = prepend c (parse_chars t).
Proof.
  unfold quote_unit.
  repeat match goal with
         | |- context [if (c =? ?k)%N then _ else _] =>
             destruct (N.eqb_spec c k) as [-> | ?]; [reflexivity | ]
         end.
  destruct ((c <? 32)%N || is_high_surrogate c || is_low_surrogate c) eqn:E.
  - apply parse_chars_unicode_escape.
    apply orb_true_iff in E. destruct E as [E | E].
    + apply orb_true_iff in E. destruct E as [E | E].
      * apply N.ltb_lt in E. lia.
      * apply surrogate_is_16_bit. auto.
    + apply surrogate_is_16_bit. auto.
  - apply orb_false_iff in E. destruct E as [E _].
    apply orb_false_iff in E. destruct E as [E _].
    apply parse_chars_raw; [ | | exact E]; apply N.eqb_neq; assumption.
Qed.

Lemma surrogate_raw (c : char16) :
  is_high_surrogate c = true \/ is_low_surrogate c = true ->
  (c =? 34)%N = false /\ (c =? 92)%N = false /\ (c <? 32)%N = false.
Proof.
  unfold is_high_surrogate, is_low_surrogate.
  rewrite !andb_true_iff, !N.leb_le, !N.eqb_neq, N.ltb_ge. lia.
Qed.

(** The characters of a quoted string are read back up to the quote. *)
Lemma parse_chars_quote_body (rest : jsstring) :
  forall n s, (List.length s <= n)%nat ->
    parse_chars (quote_body s ++ 34%N :: rest) = Some (s, rest).
Proof.
  induction n as [ | n IH]; intros s Hlen.
  - destruct s; [reflexivity | simpl in Hlen; lia].
  - destruct s as [ | c s]; [reflexivity | ]. simpl in Hlen.
    rewrite quote_body_cons. destruct (is_high_surrogate c) eqn:Hh.
    + destruct s as [ | d s].
      * rewrite parse_chars_unicode_escape by (apply surrogate_is_16_bit; auto).
        reflexivity.
      * destruct (is_low_surrogate d) eqn:Hl.
        -- destruct (surrogate_raw c (or_introl Hh)) as (c1 & c2 & c3).
           destruct (surrogate_raw d (or_intror Hl)) as (d1 & d2 & d3).
           simpl app. rewrite (parse_chars_raw c _ c1 c2 c3), (parse_chars_raw d _ d1 d2 d3).
           rewrite IH by (simpl in Hlen; lia). reflexivity.
        -- rewrite <- app_assoc.
           rewrite parse_chars_unicode_escape by (apply surrogate_is_16_bit; auto).
           rewrite IH by lia. reflexivity.
    + rewrite <- app_assoc, parse_chars_quote_unit, IH by lia. reflexivity.
Qed.

End ParseStrings.

Section ParseValues.
Import JsString JsStringFacts JsNumber JSONText JSONParse.

Lemma span_app (p : char16 -> bool) (a rest : jsstring) :
  forallb p a = true ->
  match rest with [] => True | c :: _ => p c = false end ->
  span p (a ++ rest) = (a, rest).
Proof.
  intros Ha Hrest. induction a as [ | c a IH]; simpl.
  - destruct rest as [ | c rest]; [reflexivity | ]. simpl. rewrite Hrest. reflexivity.
  - simpl in Ha. apply andb_true_iff in Ha. destruct Ha as [Hc Ha].
    rewrite Hc, (IH Ha). reflexivity.
Qed.

Lemma skip_ws_head (c : char16) (r : jsstring) :
  is_ws c = false -> skip_ws (c :: r) = c :: r.
Proof. intros H. simpl. rewrite H. reflexivity. Qed.

Lemma is_number_head (r : jsstring) :
  is_number r = true ->
  exists c t, r = c :: t /\ opens_number c = true
              /\ forallb number_char r = true.
Proof.
  unfold is_number. rewrite andb_true_iff. intros [Hall Hint].
  destruct r as [ | c t]; [discriminate Hint | ].
  exists c, t. repeat split; [ | exact Hall].
  unfold opens_number. destruct (c =? 45)%N eqn:E; [reflexivity | ].
  simpl in Hint |- *. destruct (c =? 48)%N eqn:E0.
  - apply N.eqb_eq in E0. subst c. reflexivity.
  - apply andb_true_iff in Hint. apply Hint.
Qed.

Lemma opens_number_dispatch (c : char16) :
  opens_number c = true ->
  is_ws c = false /\ (c =? 34)%N = false /\ (c =? 91)%N = false
  /\ (c =? 123)%N = false /\ (c =? 110)%N = false /\ (c =? 116)%N = false
  /\ (c =? 102)%N = false /\ (c =? 93)%N = false /\ (c =? 125)%N = false.
Proof.
  unfold opens_number, is_digit, is_ws.
  rewrite orb_true_iff, andb_true_iff, N.eqb_eq, !N.leb_le.
  intros H. rewrite !orb_false_iff, !N.eqb_neq. lia.
Qed.

Lemma parse_value_string (f : nat) (r : jsstring) :
  parse_value (S f) (34%N :: r) =
  match parse_chars r with
  | Some (str, r1) => Some (JString str, r1)
  | None => None
  end.
Proof. reflexivity. Qed.

Lemma parse_value_number (f : nat) (c : char16) (r : jsstring) :
  opens_number c = true ->
  parse_value (S f) (c :: r) =
  let (lexeme, r1) := span number_char (c :: r) in
  if is_number lexeme then Some (JNumber lexeme, r1) else None.
Proof.
  intros H. destruct (opens_number_dispatch c H)
    as (Hws & H34 & H91 & H123 & Hn & Ht & Hf & _).
  cbn [parse_value]. rewrite (skip_ws_head c r Hws), H34, H91, H123.
  change (lit "null") with (110%N :: lit "ull").
  change (lit "true") with (116%N :: lit "rue").
  change (lit "false") with (102%N :: lit "alse").
  cbn [starts_with].
  rewrite (N.eqb_sym 110 c), (N.eqb_sym 116 c), (N.eqb_sym 102 c), Hn, Ht, Hf.
  reflexivity.
Qed.

Lemma parse_value_array (f : nat) (d : char16) (r : jsstring) :
  is_ws d = false -> (d =? 93)%N = false ->
  parse_value (S f) (91%N :: d :: r) =
  match parse_value f (d :: r) with
  | Some (v, r1) =>
      match parse_elements f r1 with
      | Some (vs, r2) => Some (JArray (v :: vs), r2)
      | None => None
      end
  | None => None
  end.
Proof.
  intros Hws Hd. cbn [parse_value].
  rewrite (skip_ws_head 91%N _ eq_refl). cbn [N.eqb Pos.eqb].
  rewrite (skip_ws_head d r Hws), Hd. reflexivity.
Qed.

Lemma parse_value_object (f : nat) (d : char16) (r : jsstring) :
  is_ws d = false -> (d =? 125)%N = false ->
  parse_value (S f) (123%N :: d :: r) =
  match parse_member (parse_value f) (d :: r) with
  | Some (m, r1) =>
      match parse_members f r1 with
      | Some (ms, r2) => Some (JObject (define_all (m :: ms)), r2)
      | None => None
      end
  | None => None
  end.
Proof.
  intros Hws Hd. cbn [parse_value].
  rewrite (skip_ws_head 123%N _ eq_refl). cbn [N.eqb Pos.eqb].
  rewrite (skip_ws_head d r Hws), Hd. reflexivity.
Qed.

Lemma parse_elements_comma (f : nat) (r : jsstring) :
  parse_elements (S f) (44%N :: r) =
  match parse_value f r with
  | Some (v, r1) =>
      match parse_elements f r1 with
      | Some (vs, r2) => Some (v :: vs, r2)
      | None => None
      end
  | None => None
  end.
Proof. reflexivity. Qed.

Lemma parse_members_comma (f : nat) (r : jsstring) :
  parse_members (S f) (44%N :: r) =
  match parse_member (parse_value f) r with
  | Some (m, r1) =>
      match parse_members f r1 with
      | Some (ms, r2) => Some (m :: ms, r2)
      | None => None
      end
  | None => None
  end.
Proof. reflexivity. Qed.

Lemma parse_member_quoted (value : jsstring -> option (JSON * jsstring))
      (k text rest : jsstring) (v : JSON) :
  value (text ++ rest) = Some (v, rest) ->
  parse_member value (quote k ++ 58%N :: text ++ rest) = Some ((k, v), rest).
Proof.
  intros Hv. unfold parse_member, quote.
  cbn [app]. rewrite (skip_ws_head 34%N _ eq_refl). cbn [N.eqb Pos.eqb].
  rewrite <- app_assoc. cbn [app].
  rewrite (parse_chars_quote_body _ (List.length k) k (le_n _)).
  rewrite (skip_ws_head 58%N _ eq_refl). cbn [N.eqb Pos.eqb].
  rewrite Hv. reflexivity.
Qed.


Lemma parse_value_array_nonempty (f : nat) (r : jsstring) :
  (exists d r', r = d :: r' /\ is_ws d = false /\ (d =? 93)%N = false) ->
  parse_value (S f) (91%N :: r) =
  match parse_value f r with
  | Some (v, r1) =>
      match parse_elements f r1 with
      | Some (vs, r2) => Some (JArray (v :: vs), r2)
      | None => None
      end
  | None => None
  end.
Proof. intros (d & r' & -> & H1 & H2). apply parse_value_array; assumption. Qed.


(** Every JSON text begins with a character that is neither white space
    nor a closing bracket. *)
Lemma stringify_opens (v : JSON) :
  exists c t, stringify v = c :: t /\ is_ws c = false
              /\ (c =? 93)%N = false /\ (c =? 125)%N = false.
Proof.
  destruct v as [ | [ | ] | r | s | items | props];
    try (eexists; eexists; split; [reflexivity | repeat split]; fail).
  cbn [stringify]. unfold is_finite. destruct (is_number r) eqn:Hn.
  - destruct (is_number_head r Hn) as (c & t & -> & Hc & _).
    destruct (opens_number_dispatch c Hc)
      as (Hws & _ & _ & _ & _ & _ & _ & H93 & H125).
    exists c, t. auto.
  - eexists. eexists. split; [reflexivity | repeat split].
Qed.

Lemma stringify_head (v : JSON) :
  numbers_ok v = true ->
  exists c t, stringify v = c :: t /\ is_ws c = false
              /\ (c =? 93)%N = false /\ (c =? 125)%N = false.
Proof. intros _. apply stringify_opens. Qed.

Lemma stringify_length (v : JSON) :
  numbers_ok v = true -> (1 <= List.length (stringify v))%nat.
Proof.
  intros Hn. destruct (stringify_head v Hn) as (c & t & -> & _). simpl. lia.
Qed.

Lemma colon_app (t : jsstring) : lit ":" ++ t = 58%N :: t.
Proof. reflexivity. Qed.

Lemma more_cons (p : jsstring) (ps : list jsstring) :
  more (p :: ps) = 44%N :: p ++ more ps.
Proof. reflexivity. Qed.

Lemma length_more_cons (p : jsstring) (ps : list jsstring) :
  List.length (more (p :: ps)) = S (List.length p + List.length (more ps)).
Proof. rewrite more_cons. simpl. rewrite length_app. reflexivity. Qed.

Lemma ends_value_more (ps : list jsstring) (c : char16) (rest : jsstring) :
  number_char c = false -> ends_value (more ps ++ c :: rest) = true.
Proof.
  intros Hc. destruct ps; simpl; [rewrite Hc | ]; reflexivity.
Qed.



Lemma stringify_array_cons (x : JSON) (xs : list JSON) :
  stringify (JArray (x :: xs)) =
  91%N :: stringify x ++ more (map stringify xs) ++ [93%N].
Proof.
  cbn [stringify map join_comma]. unfold more.
  change (lit "[") with [91%N]. change (lit "]") with [93%N].
  cbn [app]. rewrite <- app_assoc. reflexivity.
Qed.

Lemma stringify_object_cons (k : jsstring) (v : JSON) (ps : entries) :
  stringify (JObject ((k, v) :: ps)) =
  123%N :: quote k ++ 58%N :: stringify v ++ more (map member_text ps) ++ [125%N].
Proof.
  cbn [stringify map join_comma fst snd]. unfold more.
  change (lit "{") with [123%N]. change (lit "}") with [125%N].
  cbn [app]. rewrite <- !app_assoc, colon_app. reflexivity.
Qed.

Lemma stringify_array_app (x : JSON) (xs : list JSON) (rest : jsstring) :
  stringify (JArray (x :: xs)) ++ rest =
  91%N :: (stringify x ++ (more (map stringify xs) ++ 93%N :: rest)).
Proof.
  rewrite stringify_array_cons. cbn [app]. rewrite <- !app_assoc. reflexivity.
Qed.

Lemma stringify_object_app (k : jsstring) (v : JSON) (ps : entries)
      (rest : jsstring) :
  stringify (JObject ((k, v) :: ps)) ++ rest =
  123%N :: (quote k ++ 58%N :: stringify v
            ++ (more (map member_text ps) ++ 125%N :: rest)).
Proof.
  rewrite stringify_object_cons. cbn [app]. rewrite <- !app_assoc. cbn [app].
  rewrite <- !app_assoc. reflexivity.
Qed.

Lemma length_stringify_array (x : JSON) (xs : list JSON) :
  List.length (stringify (JArray (x :: xs))) =
  (2 + List.length (stringify x) + List.length (more (map stringify xs)))%nat.
Proof.
  rewrite stringify_array_cons. cbn [List.length].
  rewrite !length_app. cbn [List.length]. lia.
Qed.

Lemma length_stringify_object (k : jsstring) (v : JSON) (ps : entries) :
  List.length (stringify (JObject ((k, v) :: ps))) =
  (3 + List.length (quote k) + List.length (stringify v)
   + List.length (more (map member_text ps)))%nat.
Proof.
  rewrite stringify_object_cons. cbn [List.length].
  rewrite !length_app. cbn [List.length]. rewrite !length_app.
  cbn [List.length]. lia.
Qed.

Lemma parse_value_object_nonempty (f : nat) (r : jsstring) :
  (exists d r', r = d :: r' /\ is_ws d = false /\ (d =? 125)%N = false) ->
  parse_value (S f) (123%N :: r) =
  match parse_member (parse_value f) r with
  | Some (m, r1) =>
      match parse_members f r1 with
      | Some (ms, r2) => Some (JObject (define_all (m :: ms)), r2)
      | None => None
      end
  | None => None
  end.
Proof. intros (d & r' & -> & H1 & H2). apply parse_value_object; assumption. Qed.



End ParseValues.


(* ===================================================================== *)
(** * Deep equality and the size of plain texts *)
(* ===================================================================== *)

Section DeepEqualFacts.
Import JsStringFacts.



End DeepEqualFacts.

Section SizeFacts.
Import JsString JsStringFacts JSONText Overlap.

Lemma utf8_length_ascii (s : jsstring) :
  forallb (fun c => (c <? 128)%N) s = true ->
  utf8_length s = Z.of_nat (List.length s).
Proof.
  induction s as [ | c s IH]; intros H; [reflexivity | ].
  simpl in H. apply andb_true_iff in H. destruct H as [Hc Hs].
  cbn [utf8_length]. rewrite Hc, (IH Hs).
  cbn [List.length]. lia.
Qed.

Lemma includes_needs_first (p0 : char16) (pt s : jsstring) :
  mem p0 s = false -> includes (p0 :: pt) s = false.
Proof.
  induction s as [ | c s IH]; intros H; [reflexivity | ].
  simpl in H. apply orb_false_iff in H. destruct H as [Hc Hs].
  rewrite includes_unfold, (IH Hs). simpl. rewrite Hc. reflexivity.
Qed.

(** A string of [n] letters [a] is stored as [n + 2] bytes: the ceiling is
    reached exactly. *)
Lemma size_of_letters (n : nat) :
  Blob_size (contentForDb (sanitize (JString (repeat 97%N n))))
  = (Z.of_nat n + 2)%Z.
Proof.
  assert (Hall : forall (p : char16 -> bool), p 97%N = true ->
                 forallb p (repeat 97%N n) = true).
  { intros p Hp. induction n; simpl; [ | rewrite Hp]; auto. }
  assert (Htext : stringify (JString (repeat 97%N n))
                  = 34%N :: repeat 97%N n ++ [34%N]).
  { cbn [stringify]. unfold quote. cbn [app].
    rewrite <- (app_nil_r (repeat 97%N n)) at 1.
    rewrite quote_body_copies by (apply Hall; reflexivity).
    rewrite app_nil_r. reflexivity. }
  assert (Hmem : mem 60%N (34%N :: repeat 97%N n ++ [34%N]) = false).
  { unfold mem. cbn [existsb]. rewrite existsb_app. cbn.
    rewrite orb_false_r.
    destruct (existsb (N.eqb 60) (repeat 97%N n)) eqn:E; [ | reflexivity].
    apply existsb_exists in E. destruct E as (x & Hx & E).
    apply repeat_spec in Hx. subst x. discriminate E. }
  unfold contentForDb, Blob_size. cbn [sanitize]. rewrite Htext.
  rewrite scrub_absent by (apply includes_needs_first; exact Hmem).
  rewrite utf8_length_ascii.
  - cbn [List.length]. rewrite length_app, repeat_length. cbn [List.length]. lia.
  - cbn [forallb]. rewrite forallb_app, (Hall _ eq_refl). reflexivity.
Qed.

Lemma ceiling_is_reached :
  exists content,
    Blob_size (contentForDb (sanitize content)) = (900 * 1024)%Z.
Proof.
  exists (JString (repeat 97%N (N.to_nat 921598))).
  rewrite size_of_letters, N_nat_Z. reflexivity.
Qed.

End SizeFacts.

(* ===================================================================== *)
(** * Every path through the handlers *)
(* ===================================================================== *)

Section Paths.
Context {W : Type} (oracle : Oracle W).

Lemma run_report (e : Exception) (w : W) :
  run oracle (on_error e) w =
  (match e with
   | ZodError errors => validation_failed errors
   | Error message => internal_error message
   end, snd (oracle _ (report e) w), [Called (report e)]).
Proof. apply run_on_error. Qed.

Lemma run_gated_malformed (m : jsstring) (w : W) :
  run oracle (CreateTemplateApi.handle (mkRequest (inl m))) w =
  (internal_error m, snd (oracle _ (report (Error m)) w),
   [Called (report (Error m))]).
Proof.
  unfold CreateTemplateApi.handle, CreateTemplateApi.handle_body, try_catch,
    bindA, request_json; simpl json.
  unfold throw; simpl bind. apply run_report.
Qed.

Lemma run_orm_malformed (m : jsstring) (w : W) :
  run oracle (CreateTemplateApiOrm.handle (mkRequest (inl m))) w =
  (internal_error m, snd (oracle _ (report (Error m)) w),
   [Called (report (Error m))]).
Proof.
  unfold CreateTemplateApiOrm.handle, CreateTemplateApiOrm.handle_body,
    try_catch, bindA, request_json; simpl json.
  unfold throw; simpl bind. apply run_report.
Qed.

Lemma run_gated_invalid (b : JSON) (issues : list ZodIssue) (w : W) :
  RequestSchema.safeParse b = inl issues ->
  run oracle (CreateTemplateApi.handle (mkRequest (inr b))) w =
  (validation_failed issues, snd (oracle _ (report (ZodError issues)) w),
   [Called (report (ZodError issues))]).
Proof.
  intros Hparse.
  unfold CreateTemplateApi.handle, CreateTemplateApi.handle_body, try_catch,
    bindA, request_json, RequestSchema.parse; simpl json.
  unfold ret at 1; simpl bind. rewrite Hparse. unfold throw; simpl bind.
  apply run_report.
Qed.

Lemma run_orm_invalid (b : JSON) (issues : list ZodIssue) (w : W) :
  RequestSchema.safeParse b = inl issues ->
  run oracle (CreateTemplateApiOrm.handle (mkRequest (inr b))) w =
  (validation_failed issues, snd (oracle _ (report (ZodError issues)) w),
   [Called (report (ZodError issues))]).
Proof.
  intros Hparse.
  unfold CreateTemplateApiOrm.handle, CreateTemplateApiOrm.handle_body,
    try_catch, bindA, request_json, RequestSchema.parse; simpl json.
  unfold ret at 1; simpl bind. rewrite Hparse. unfold throw; simpl bind.
  apply run_report.
Qed.

(** The three ends of the read-back. *)
Lemma after_insert_cases (templateId : jsstring) (w : W) :
  after_insert oracle templateId w =
  let lookup := D1First select_sql [templateId] in
  let (result, w3) := oracle _ lookup w in
  match result with
  | inr (Some row) => (mkResponse row 201, w3, [Called lookup])
  | inr None =>
      (internal_error failed_fetch,
       snd (oracle _ (report (Error failed_fetch)) w3),
       [Called lookup; Called (report (Error failed_fetch))])
  | inl m =>
      (internal_error m, snd (oracle _ (report (Error m)) w3),
       [Called lookup; Called (report (Error m))])
  end.
Proof.
  unfold after_insert, try_catch, read_back, bindA, await.
  cbn [bind run].
  destruct (oracle _ (D1First _ _) w) as [[m | [row | ]] w3];
    cbn -[on_error report]; rewrite ?run_report; reflexivity.
Qed.

End Paths.

(** Case analysis over every path of a handler: the goal must mention
    [run oracle (handle request) w]. *)
Ltac gated_paths oracle request w :=
  let m := fresh "m" in
  let b := fresh "b" in
  destruct request as [[m | b]];
  [ rewrite (run_gated_malformed oracle m w)
  | let issues := fresh "issues" in
    let id := fresh "id" in
    let content := fresh "content" in
    let Hparse := fresh "Hparse" in
    destruct (RequestSchema.safeParse b) as [issues | [id content]] eqn:Hparse;
    [ rewrite (run_gated_invalid oracle b issues w Hparse)
    | rewrite (run_gated oracle b id content w Hparse); cbv zeta;
      let Hcalls := fresh "Hcalls" in
      let Hsize := fresh "Hsize" in
      pose proof (resolved_calls oracle id w) as Hcalls;
      destruct (resolved oracle id w) as [[?templateId ?w1] ?c1] eqn:?Hresolved;
      simpl snd in Hcalls; subst;
      destruct (Z.ltb CreateTemplateApi.maxBytes _) eqn:Hsize;
      [ | let Hinsert := fresh "Hinsert" in
          destruct (oracle _ (D1Run _ _) _) as [[?message | []] ?w2] eqn:Hinsert;
          [ let Hunique := fresh "Hunique" in
            destruct (CreateTemplateApi.unique_violation _) eqn:Hunique;
            [ | rewrite run_report ]
          | rewrite after_insert_cases; cbv zeta;
            let Hselect := fresh "Hselect" in
            destruct (oracle _ (D1First _ _) _) as [[?m | [?row | ]] ?w3] eqn:Hselect
          ] ] ] ].

Ltac orm_paths oracle request w :=
  let m := fresh "m" in
  let b := fresh "b" in
  destruct request as [[m | b]];
  [ rewrite (run_orm_malformed oracle m w)
  | let issues := fresh "issues" in
    let id := fresh "id" in
    let content := fresh "content" in
    let Hparse := fresh "Hparse" in
    destruct (RequestSchema.safeParse b) as [issues | [id content]] eqn:Hparse;
    [ rewrite (run_orm_invalid oracle b issues w Hparse)
    | rewrite (run_orm oracle b id content w Hparse); cbv zeta;
      let Hcalls := fresh "Hcalls" in
      pose proof (resolved_calls oracle id w) as Hcalls;
      destruct (resolved oracle id w) as [[?templateId ?w1] ?c1] eqn:?Hresolved;
      simpl snd in Hcalls; subst;
      let Hinsert := fresh "Hinsert" in
      destruct (oracle _ (DrizzleInsert _ _) _) as [[?message | []] ?w2] eqn:Hinsert;
      [ rewrite run_report
      | rewrite after_insert_cases; cbv zeta;
        let Hselect := fresh "Hselect" in
        destruct (oracle _ (D1First _ _) _) as [[?m | [?row | ]] ?w3] eqn:Hselect
      ] ] ].

(** Case analysis on the identifier of the request, when there is one. *)
Ltac split_id :=
  match goal with
  | i : option jsstring |- _ => destruct i
  | _ => idtac
  end.

(* ===================================================================== *)
(** * More about the sanitizer *)
(* ===================================================================== *)

Section SanitizeMore.
Import JsStringFacts.

Lemma mentions_sanitize_inv (k : jsstring) (v : JSON) :
  mentions k (sanitize v) = true -> mentions k v = true.
Proof.
  induction v as [ | b | r | s | items IH | props IH] using JSON_induction;
    try (intros H; exact H).
  - rewrite sanitize_array. simpl. rewrite !existsb_exists.
    intros (y & Hy & Hm). apply in_map_iff in Hy. destruct Hy as (x & <- & Hx).
    exists x. split; [exact Hx | apply IH; assumption].
  - rewrite sanitize_object. simpl. rewrite !existsb_exists.
    intros ([k' y] & Hy & Hm). simpl in Hm.
    destruct (In_sanitize_entries _ _ _ _ Hy) as [[] | (_ & _ & x & Hx & ->)].
    exists (k', x). split; [exact Hx | ]. simpl.
    apply orb_true_iff in Hm. apply orb_true_iff.
    destruct Hm as [Hm | Hm]; [left; exact Hm | right; apply (IH k' x Hx Hm)].
Qed.

Lemma leaf_sanitize_inv (s : jsstring) (v : JSON) :
  StringLeaf s (sanitize v) -> StringLeaf s v.
Proof.
  induction v as [ | b | r | s' | items IH | props IH] using JSON_induction;
    try (intros H; exact H).
  - rewrite sanitize_array. intros H.
    inversion H as [ | ? y Hy Hleaf | ]; subst.
    apply in_map_iff in Hy. destruct Hy as (x & <- & Hx).
    apply (Leaf_item s items x Hx). apply IH; assumption.
  - rewrite sanitize_object. intros H.
    inversion H as [ | | ? k y Hy Hleaf]; subst.
    destruct (In_sanitize_entries _ _ _ _ Hy) as [[] | (_ & _ & x & Hx & ->)].
    apply (Leaf_prop s props k x Hx). apply (IH k x Hx Hleaf).
Qed.

Lemma mentions_false_In (k k' : jsstring) (x : JSON) (props : entries) :
  mentions k (JObject props) = false -> In (k', x) props ->
  k' <> k /\ mentions k x = false.
Proof.
  simpl. intros H Hin.
  assert (Hx : JsString.eqb k' k || mentions k x = false).
  { destruct (JsString.eqb k' k || mentions k x) eqn:E; [ | reflexivity].
    rewrite <- H. symmetry. apply existsb_exists. exists (k', x). auto. }
  apply orb_false_iff in Hx. destruct Hx as [H1 H2].
  split; [apply eqb_neq; exact H1 | exact H2].
Qed.

(** A value with distinct keys that has neither key anywhere is already
    in the shape [sanitize] produces. *)
Lemma clean_Sanitized (v : JSON) :
  DistinctKeys v ->
  mentions elementScript v = false -> mentions proto_key v = false ->
  Sanitized v.
Proof.
  induction v as [ | b | r | s | items IH | props IH] using JSON_induction;
    intros Hd He Hp; try constructor.
  - inversion Hd as [ | | | | ? Hall | ]; subst. rewrite Forall_forall in *.
    intros x Hx. simpl in He, Hp.
    apply IH; [exact Hx | apply Hall; exact Hx | | ].
    + destruct (mentions elementScript x) eqn:E; [ | reflexivity].
      rewrite <- He. symmetry. apply existsb_exists. exists x. auto.
    + destruct (mentions proto_key x) eqn:E; [ | reflexivity].
      rewrite <- Hp. symmetry. apply existsb_exists. exists x. auto.
  - inversion Hd; assumption.
  - inversion Hd as [ | | | | | ? Hnd Hall]; subst. rewrite Forall_forall in *.
    intros [k x] Hin. simpl.
    destruct (mentions_false_In _ _ _ _ He Hin) as [Hk1 Hx1].
    destruct (mentions_false_In _ _ _ _ Hp Hin) as [Hk2 Hx2].
    repeat split; [exact Hk1 | exact Hk2 | ].
    apply (IH k x Hin); [apply (Hall (k, x) Hin) | exact Hx1 | exact Hx2].
Qed.

(** On an object with distinct keys the loop keeps the permitted pairs,
    in their order, with sanitized values. *)
Lemma sanitize_entries_distinct input : forall output,
  NoDup (keys output ++ keys input) ->
  sanitize_entries input output =
  output ++ map (fun kv => (fst kv, sanitize (snd kv)))
                (filter (fun kv => kept (fst kv)) input).
Proof.
  induction input as [ | [k v] input IH]; intros output Hnd.
  - simpl. rewrite app_nil_r. reflexivity.
  - rewrite sanitize_entries_cons. unfold sanitize_step; simpl fst; simpl snd.
    assert (Hrest : NoDup (keys output ++ keys input)).
    { simpl in Hnd. apply NoDup_remove_1 in Hnd. exact Hnd. }
    assert (Hfresh : has_own k output = false).
    { apply has_own_false. intros Hin. simpl in Hnd.
      apply NoDup_remove_2 in Hnd. apply Hnd, in_or_app; auto. }
    simpl filter. unfold kept at 1. simpl fst.
    destruct (JsString.eqb k elementScript); simpl; [apply IH; exact Hrest | ].
    unfold assign. destruct (JsString.eqb k proto_key); simpl;
      [apply IH; exact Hrest | ].
    rewrite Hfresh, IH.
    + rewrite <- app_assoc. reflexivity.
    + unfold keys in *. rewrite map_app, <- app_assoc. exact Hnd.
Qed.

End SanitizeMore.

Section TextLength.
Import JsString JSONText.

Lemma length_join_comma (parts : list jsstring) :
  List.length (join_comma parts) = Nat.pred (List.length (more parts)).
Proof.
  destruct parts as [ | p ps]; [reflexivity | ].
  rewrite length_more_cons. simpl join_comma. rewrite length_app.
  reflexivity.
Qed.

Lemma length_more_filter {A : Type} (f g : A -> jsstring) (p : A -> bool)
      (l : list A) :
  (forall x, In x l -> List.length (f x) <= List.length (g x))%nat ->
  (List.length (more (map f (filter p l))) <= List.length (more (map g l)))%nat.
Proof.
  induction l as [ | x l IH]; intros H; [simpl; lia | ].
  assert (Hl : (List.length (more (map f (filter p l)))
                <= List.length (more (map g l)))%nat).
  { apply IH. intros y Hy. apply H. right. exact Hy. }
  pose proof (H x (or_introl eq_refl)) as Hx.
  simpl filter. simpl map. rewrite length_more_cons.
  destruct (p x); [simpl map; rewrite length_more_cons | ]; lia.
Qed.

(** Sanitizing never makes the JSON text longer. *)
Lemma length_stringify_sanitize (v : JSON) :
  DistinctKeys v ->
  (List.length (stringify (sanitize v)) <= List.length (stringify v))%nat.
Proof.
  induction v as [ | b | r | s | items IH | props IH] using JSON_induction;
    intros Hd; try (simpl; lia).
  - inversion Hd as [ | | | | ? Hall | ]; subst. rewrite Forall_forall in Hall.
    rewrite sanitize_array. cbn [stringify].
    rewrite !length_app, !length_join_comma, map_map.
    assert (H : (List.length (more (map (fun x => stringify (sanitize x))
                                        (filter (fun _ => true) items)))
                 <= List.length (more (map stringify items)))%nat).
    { apply length_more_filter. intros x Hx. apply IH; auto. }
    replace (filter (fun _ : JSON => true) items) with items in H.
    + change (List.length (lit "[")) with 1%nat.
      change (List.length (lit "]")) with 1%nat. lia.
    + clear. induction items as [ | x l IHl]; simpl; [ | rewrite <- IHl]; reflexivity.
  - inversion Hd as [ | | | | | ? Hnd Hall]; subst. rewrite Forall_forall in Hall.
    rewrite sanitize_object.
    rewrite (sanitize_entries_distinct props []) by exact Hnd.
    cbn [stringify app].
    rewrite !length_app, !length_join_comma, map_map. cbn [fst snd].
    assert (H : (List.length
                   (more (map (fun kv => quote (fst kv) ++ lit ":"
                                         ++ stringify (sanitize (snd kv)))
                              (filter (fun kv => kept (fst kv)) props)))
                 <= List.length
                      (more (map (fun kv => quote (fst kv) ++ lit ":"
                                            ++ stringify (snd kv)) props)))%nat).
    { apply length_more_filter. intros [k x] Hx. cbn [fst snd].
      rewrite !length_app.
      pose proof (IH k x Hx (Hall (k, x) Hx)). lia. }
    change (List.length (lit "{")) with 1%nat.
    change (List.length (lit "}")) with 1%nat. lia.
Qed.

End TextLength.

(* ===================================================================== *)
(** * Bytes and the scrub *)
(* ===================================================================== *)

Section Bytes.
Import JsString JsStringFacts JSONText.

Lemma utf8_length_cons (c : char16) (s : jsstring) :
  utf8_length (c :: s) =
  (if (c <? 128)%N then 1 + utf8_length s
   else if (c <? 2048)%N then 2 + utf8_length s
   else if is_high_surrogate c then
     match s with
     | d :: s' =>
         if is_low_surrogate d then 4 + utf8_length s'
         else 3 + utf8_length s
     | [] => 3
     end
   else 3 + utf8_length s)%Z.
Proof. reflexivity. Qed.

(** A text of [n] code units takes between [n] and [3 n] bytes. *)
Lemma utf8_length_bounds :
  forall n s, (List.length s <= n)%nat ->
    (Z.of_nat (List.length s) <= utf8_length s <= 3 * Z.of_nat (List.length s))%Z.
Proof.
  induction n as [ | n IH]; intros s Hlen.
  - destruct s; [simpl; lia | simpl in Hlen; lia].
  - destruct s as [ | c s]; [simpl; lia | ]. simpl in Hlen.
    rewrite utf8_length_cons.
    pose proof (IH s ltac:(lia)) as Hs.
    change (List.length (c :: s)) with (S (List.length s)).
    destruct (c <? 128)%N; [lia | ].
    destruct (c <? 2048)%N; [lia | ].
    destruct (is_high_surrogate c); [ | lia].
    destruct s as [ | d s']; [simpl; lia | ].
    destruct (is_low_surrogate d); [ | lia].
    simpl in Hlen. pose proof (IH s' ltac:(lia)) as Hs'.
    change (List.length (d :: s')) with (S (List.length s')) in *. lia.
Qed.

Lemma utf8_length_ascii_app (a s : jsstring) :
  ascii_text a = true ->
  utf8_length (a ++ s) = (Z.of_nat (List.length a) + utf8_length s)%Z.
Proof.
  unfold ascii_text. induction a as [ | c a IH]; intros H; [reflexivity | ].
  simpl in H. apply andb_true_iff in H. destruct H as [Hc Ha].
  simpl app. rewrite utf8_length_cons, Hc, (IH Ha).
  change (List.length (c :: a)) with (S (List.length a)). lia.
Qed.

Lemma ascii_not_low (c : char16) :
  (c <? 128)%N = true -> is_low_surrogate c = false.
Proof.
  intros H. apply N.ltb_lt in H. unfold is_low_surrogate.
  apply andb_false_iff. left. apply N.leb_gt. lia.
Qed.

Lemma low_not_ascii (c : char16) :
  is_low_surrogate c = true -> (c <? 128)%N = false.
Proof.
  intros H. destruct (c <? 128)%N eqn:E; [ | reflexivity].
  rewrite (ascii_not_low c E) in H. discriminate.
Qed.

Section Replace.
Variables pat rep : jsstring.
Variables (p0 r0 : char16) (pt rt : jsstring).
Hypothesis Hpat : pat = p0 :: pt.
Hypothesis Hrep : rep = r0 :: rt.
Hypothesis Hpat_ascii : ascii_text pat = true.
Hypothesis Hrep_ascii : ascii_text rep = true.
Hypothesis Hgrow : (List.length pat <= List.length rep)%nat.

Lemma p0_ascii : (p0 <? 128)%N = true.
Proof.
  rewrite Hpat in Hpat_ascii. simpl in Hpat_ascii.
  apply andb_true_iff in Hpat_ascii. apply Hpat_ascii.
Qed.

Lemma r0_ascii : (r0 <? 128)%N = true.
Proof.
  rewrite Hrep in Hrep_ascii. simpl in Hrep_ascii.
  apply andb_true_iff in Hrep_ascii. apply Hrep_ascii.
Qed.

(** What the result begins with is a low surrogate only if the text
    begins with it. *)
Lemma replace_all_head (d : char16) (s : jsstring) :
  replace_all pat rep (d :: s) = rep ++ replace_all pat rep
                                          (skipn (Nat.pred (List.length pat)) s)
  \/ replace_all pat rep (d :: s) = d :: replace_all pat rep s.
Proof.
  rewrite replace_all_cons. destruct (starts_with pat (d :: s)); auto.
Qed.

Lemma replace_all_low (d : char16) (s : jsstring) :
  is_low_surrogate d = true ->
  replace_all pat rep (d :: s) = d :: replace_all pat rep s.
Proof.
  intros Hd. rewrite replace_all_cons.
  destruct (starts_with pat (d :: s)) eqn:E; [ | reflexivity].
  rewrite Hpat in E. simpl in E. apply andb_true_iff in E. destruct E as [E _].
  apply N.eqb_eq in E. subst d.
  rewrite (ascii_not_low p0 p0_ascii) in Hd. discriminate.
Qed.

(** A replacement of ASCII by at least as much ASCII never takes bytes
    away. *)
Lemma utf8_length_replace_all :
  forall n s, (List.length s <= n)%nat ->
    (utf8_length s <= utf8_length (replace_all pat rep s))%Z.
Proof.
  induction n as [ | n IH]; intros s Hlen.
  - destruct s; [rewrite replace_all_nil; lia | simpl in Hlen; lia].
  - destruct s as [ | c s]; [rewrite replace_all_nil; lia | ]. simpl in Hlen.
    rewrite replace_all_cons. destruct (starts_with pat (c :: s)) eqn:Hmatch.
    + apply starts_with_iff in Hmatch. destruct Hmatch as [rest Hrest].
      rewrite Hrest at 1.
      assert (Hskip : skipn (Nat.pred (List.length pat)) s = rest).
      { rewrite Hpat in Hrest |- *. simpl in Hrest. injection Hrest as _ ->.
        simpl. rewrite skipn_app, skipn_all, Nat.sub_diag. reflexivity. }
      rewrite Hskip, !utf8_length_ascii_app by assumption.
      assert (Hl : (List.length rest <= n)%nat).
      { rewrite <- Hskip, length_skipn. lia. }
      pose proof (IH rest Hl). lia.
    + rewrite !utf8_length_cons.
      pose proof (IH s ltac:(lia)) as Hs.
      destruct (c <? 128)%N; [lia | ].
      destruct (c <? 2048)%N; [lia | ].
      destruct (is_high_surrogate c); [ | lia].
      destruct s as [ | d s']; [rewrite replace_all_nil; lia | ].
      destruct (is_low_surrogate d) eqn:Hd.
      * rewrite (replace_all_low d s' Hd), Hd. simpl in Hlen.
        pose proof (IH s' ltac:(lia)). lia.
      * destruct (replace_all_head d s') as [E | E]; rewrite E in Hs |- *.
        -- rewrite Hrep in Hs |- *. cbn [app] in Hs |- *.
           rewrite (ascii_not_low r0 r0_ascii). lia.
        -- rewrite Hd. lia.
Qed.

(** Nor does it make the text shorter. *)
Lemma length_replace_all :
  forall n s, (List.length s <= n)%nat ->
    (List.length s <= List.length (replace_all pat rep s))%nat.
Proof.
  induction n as [ | n IH]; intros s Hlen.
  - destruct s; [rewrite replace_all_nil; simpl; lia | simpl in Hlen; lia].
  - destruct s as [ | c s]; [rewrite replace_all_nil; simpl; lia | ].
    simpl in Hlen. rewrite replace_all_cons.
    destruct (starts_with pat (c :: s)) eqn:Hmatch.
    + rewrite length_app.
      assert (Hl : (List.length (skipn (Nat.pred (List.length pat)) s) <= n)%nat).
      { rewrite length_skipn. lia. }
      pose proof (IH _ Hl) as H. rewrite length_skipn in H.
      assert (Hp : List.length pat = S (List.length pt))
        by (rewrite Hpat; reflexivity).
      change (List.length (c :: s)) with (S (List.length s)). lia.
    + change (List.length (c :: ?x)) with (S (List.length x)).
      pose proof (IH s ltac:(lia)). simpl. lia.
Qed.

End Replace.

Lemma Blob_size_scrub (text : jsstring) :
  (Blob_size text <= Blob_size (scrub text))%Z.
Proof.
  unfold Blob_size, scrub.
  etransitivity.
  - eapply (utf8_length_replace_all script_open script_open_escaped
              _ _ _ _ eq_refl eq_refl eq_refl eq_refl
              ltac:(vm_compute; lia) (List.length text) text (le_n _)).
  - eapply (utf8_length_replace_all script_close script_close_escaped
              _ _ _ _ eq_refl eq_refl eq_refl eq_refl
              ltac:(vm_compute; lia) _ _ (le_n _)).
Qed.

Lemma scrub_idempotent (text : jsstring) : scrub (scrub text) = scrub text.
Proof.
  destruct (scrub_removes text) as [Ho Hc].
  apply scrub_absent; assumption.
Qed.

(** A key shows in the text of every value that has it, at any depth. *)
Lemma stringify_includes_key (q k : jsstring) (v : JSON) :
  mentions k v = true ->
  includes q (quote k) = true -> includes q (stringify v) = true.
Proof.
  intros Hm Hq. revert Hm.
  induction v as [ | b | r | s | items IH | props IH] using JSON_induction;
    try discriminate.
  - simpl mentions. rewrite existsb_exists. intros (x & Hx & Hm).
    cbn [stringify]. apply includes_app_r, includes_app_l.
    apply (includes_join_comma q (stringify x)); [ | apply IH; assumption].
    apply in_map. exact Hx.
  - simpl mentions. rewrite existsb_exists. intros ([k' x] & Hx & Hm).
    simpl in Hm. cbn [stringify]. apply includes_app_r, includes_app_l.
    apply (includes_join_comma q (quote k' ++ lit ":" ++ stringify x)).
    + apply (in_map (fun kv => quote (fst kv) ++ lit ":" ++ stringify (snd kv))
                    props (k', x) Hx).
    + apply orb_true_iff in Hm. destruct Hm as [Hm | Hm].
      * apply eqb_eq in Hm. subst k'. apply includes_app_l. exact Hq.
      * apply includes_app_r, includes_app_r. apply (IH k' x Hx Hm).
Qed.

End Bytes.

Section SchemaFacts.
Import JsStringFacts.

Lemma get_skip (k : jsstring) (extra props : entries) :
  (forall kv, In kv extra -> fst kv <> k) ->
  get k (extra ++ props) = get k props.
Proof.
  induction extra as [ | [k' v] extra IH]; intros H; [reflexivity | ].
  simpl. assert (Hk : JsString.eqb k' k = false).
  { apply eqb_neq. apply (H (k', v)). left. reflexivity. }
  rewrite Hk. apply IH. intros kv Hkv. apply H. right. exact Hkv.
Qed.

Lemma get_filter (k : jsstring) (f : jsstring * JSON -> bool) (props : entries) :
  (forall kv, JsString.eqb (fst kv) k = true -> f kv = true) ->
  get k (filter f props) = get k props.
Proof.
  intros Hf. induction props as [ | [k' v] props IH]; [reflexivity | ].
  cbn [filter get]. destruct (f (k', v)) eqn:E.
  - cbn [get]. rewrite IH. reflexivity.
  - destruct (JsString.eqb k' k) eqn:Hk; [ | exact IH].
    rewrite (Hf (k', v) Hk) in E. discriminate E.
Qed.

Lemma handle_depends_on_safeParse (b1 b2 : JSON) :
  RequestSchema.safeParse b1 = RequestSchema.safeParse b2 ->
  CreateTemplateApi.handle (mkRequest (inr b1))
  = CreateTemplateApi.handle (mkRequest (inr b2))
  /\ CreateTemplateApiOrm.handle (mkRequest (inr b1))
     = CreateTemplateApiOrm.handle (mkRequest (inr b2)).
Proof.
  intros H.
  unfold CreateTemplateApi.handle, CreateTemplateApi.handle_body,
    CreateTemplateApiOrm.handle, CreateTemplateApiOrm.handle_body,
    bindA, request_json, RequestSchema.parse; cbn [json].
  unfold ret; cbn [bind]. rewrite H. split; reflexivity.
Qed.

Lemma safeParse_id (b : JSON) (i : jsstring) (content : JSON) :
  RequestSchema.safeParse b = inr (Some i, content) ->
  RequestSchema.is_uuid i = true.
Proof.
  destruct b as [ | ? | ? | ? | ? | props]; try discriminate.
  unfold RequestSchema.safeParse, RequestSchema.check_id.
  destruct (get (lit "id") props) as [[ | | | s | | ] | ];
    try (destruct (RequestSchema.check_content _); discriminate).
  destruct (RequestSchema.is_uuid s) eqn:E;
    destruct (RequestSchema.check_content _); try discriminate.
  intros [= <- _]. exact E.
Qed.

End SchemaFacts.

Lemma unique_violation_found (a v b : jsstring) :
  map JsString.canonicalize v
  = map JsString.canonicalize (lit "unique constraint failed") ->
  CreateTemplateApi.unique_violation (a ++ v ++ b) = true.
Proof.
  intros Hv. unfold CreateTemplateApi.unique_violation, JsString.regex_test_i.
  cbn [existsb]. apply orb_true_iff. left.
  rewrite !map_app, Hv. apply JsStringFacts.includes_iff.
  eexists. eexists. reflexivity.
Qed.

(* ===================================================================== *)
(** * The scrub, seen through the structure of the text *)
(* ===================================================================== *)

Section ScrubStructure.
Import JsString JsStringFacts JSONText Overlap.

(** A pattern that begins with [<] and a replacement, both made of
    characters that [QuoteJSONString] copies. *)
Variables (pt rep : jsstring) (r0 : char16) (rt : jsstring).
Hypothesis Hpt : forallb plain pt = true.
Hypothesis Hrep : rep = r0 :: rt.
Hypothesis Hrep_plain : forallb plain rep = true.

Lemma pat_plain : forallb plain (60%N :: pt) = true.
Proof. cbn [forallb]. rewrite Hpt. reflexivity. Qed.

Lemma mem_tails_clash (t : jsstring) :
  mem 60%N t = false -> tails_clash (60%N :: pt) t = true.
Proof.
  induction t as [ | a t IH]; intros H; [reflexivity | ].
  cbn [mem existsb] in H. apply orb_false_iff in H. destruct H as [Ha Ht].
  cbn [tails_clash clash]. rewrite Ha, (IH Ht). reflexivity.
Qed.

(** A text without [<] is copied. *)
Lemma replace_all_skips (t b : jsstring) :
  mem 60%N t = false -> (replace_all (60%N :: pt) rep) (t ++ b) = t ++ (replace_all (60%N :: pt) rep) b.
Proof. intros H. apply replace_all_copies, mem_tails_clash, H. Qed.

Lemma replace_all_skip (c : N) (b : list N) :
  (60 =? c)%N = false ->
  replace_all (60%N :: pt) rep (c :: b) = c :: replace_all (60%N :: pt) rep b.
Proof.
  intros H. apply (replace_all_skips [c] b). cbn [mem existsb].
  rewrite H. reflexivity.
Qed.

Lemma replace_all_match (x : jsstring) : (replace_all (60%N :: pt) rep) ((60%N :: pt) ++ x) = rep ++ (replace_all (60%N :: pt) rep) x.
Proof.
  cbn [app]. rewrite replace_all_cons.
  change (60%N :: pt ++ x) with ((60%N :: pt) ++ x). rewrite starts_with_app.
  cbn [List.length Nat.pred].
  rewrite skipn_app, skipn_all, Nat.sub_diag. reflexivity.
Qed.

Lemma hex_digit_not_lt (n : N) : (60 =? hex_digit n)%N = false.
Proof.
  unfold hex_digit. apply N.eqb_neq.
  destruct (N.ltb_spec n 10); lia.
Qed.

Lemma unicode_escape_not_lt (c : char16) : mem 60%N (unicode_escape c) = false.
Proof.
  unfold unicode_escape. cbn [mem existsb].
  rewrite !hex_digit_not_lt. reflexivity.
Qed.

Lemma plain_not_special (x : char16) :
  plain x = true ->
  (x =? 34)%N = false /\ (x =? 92)%N = false
  /\ is_high_surrogate x = false /\ is_low_surrogate x = false.
Proof.
  unfold plain. rewrite !andb_true_iff, !negb_true_iff. tauto.
Qed.

(** A code unit is written as it is, or as an escape that begins with a
    backslash and holds no [<]. *)
Lemma quote_unit_shape (c : char16) :
  (quote_unit c = [c] /\ plain c = true)
  \/ (exists t, quote_unit c = 92%N :: t /\ mem 60%N t = false).
Proof.
  unfold quote_unit.
  destruct (c =? 8)%N eqn:E8; [right; eexists; split; reflexivity | ].
  destruct (c =? 9)%N eqn:E9; [right; eexists; split; reflexivity | ].
  destruct (c =? 10)%N eqn:E10; [right; eexists; split; reflexivity | ].
  destruct (c =? 12)%N eqn:E12; [right; eexists; split; reflexivity | ].
  destruct (c =? 13)%N eqn:E13; [right; eexists; split; reflexivity | ].
  destruct (c =? 34)%N eqn:E34; [right; eexists; split; reflexivity | ].
  destruct (c =? 92)%N eqn:E92; [right; eexists; split; reflexivity | ].
  destruct ((c <? 32)%N || is_high_surrogate c || is_low_surrogate c) eqn:E.
  - right. eexists. split; [reflexivity | ].
    cbn [mem existsb]. rewrite !hex_digit_not_lt. reflexivity.
  - left. split; [reflexivity | ].
    apply orb_false_iff in E. destruct E as [E El].
    apply orb_false_iff in E. destruct E as [E32 Eh].
    unfold plain. rewrite E32, E34, E92, Eh, El. reflexivity.
Qed.

(** A text of copied characters that stands at the head of a quoted
    string stands at the head of the string. *)
Lemma starts_with_quote_body (p : jsstring) :
  forallb plain p = true ->
  forall s b, starts_with p (quote_body s ++ 34%N :: b) = true ->
              starts_with p s = true.
Proof.
  induction p as [ | x p IH]; intros Hp s b H; [destruct s; reflexivity | ].
  cbn [forallb] in Hp. apply andb_true_iff in Hp. destruct Hp as [Hx Hp].
  destruct (plain_not_special x Hx) as (H34 & H92 & Hh & Hl).
  destruct s as [ | y s].
  - cbn [quote_body app starts_with] in H. rewrite H34 in H. discriminate H.
  - rewrite quote_body_cons in H.
    assert (Hesc : forall t, starts_with (x :: p) (unicode_escape y ++ t) = true
                             -> False).
    { intros t Ht. unfold unicode_escape in Ht. cbn [app starts_with] in Ht.
      rewrite H92 in Ht. discriminate Ht. }
    destruct (is_high_surrogate y) eqn:Hy.
    + destruct s as [ | d s'].
      * destruct (Hesc _ H).
      * destruct (is_low_surrogate d).
        -- cbn [app starts_with] in H. apply andb_true_iff in H.
           destruct H as [H _]. apply N.eqb_eq in H. subst y.
           rewrite Hh in Hy. discriminate Hy.
        -- rewrite <- app_assoc in H. destruct (Hesc _ H).
    + rewrite <- app_assoc in H.
      destruct (quote_unit_shape y) as [[Hq _] | (t & Hq & _)];
        rewrite Hq in H; cbn [app starts_with] in H.
      * apply andb_true_iff in H. destruct H as [Hxy H].
        cbn [starts_with]. rewrite Hxy. apply (IH Hp s b H).
      * rewrite H92 in H. discriminate H.
Qed.

Lemma r0_not_low : is_low_surrogate r0 = false.
Proof.
  pose proof Hrep_plain as H. rewrite Hrep in H. cbn [forallb] in H.
  apply andb_true_iff in H. destruct H as [H _].
  apply (plain_not_special r0 H).
Qed.

Lemma surrogate_not_lt (c : char16) :
  is_high_surrogate c = true \/ is_low_surrogate c = true ->
  (60 =? c)%N = false.
Proof.
  unfold is_high_surrogate, is_low_surrogate.
  rewrite !andb_true_iff, !N.leb_le, N.eqb_neq. lia.
Qed.

(** Replacing in the quoted string is quoting the replaced string. *)
Lemma replace_all_quote_body :
  forall n s, (List.length s <= n)%nat ->
    forall b, (replace_all (60%N :: pt) rep) (quote_body s ++ 34%N :: b)
              = quote_body ((replace_all (60%N :: pt) rep) s) ++ 34%N :: (replace_all (60%N :: pt) rep) b.
Proof.
  induction n as [ | n IH]; intros s Hlen b.
  - destruct s; [ | simpl in Hlen; lia].
    rewrite replace_all_nil. cbn [quote_body app].
    apply (replace_all_skips [34%N] b eq_refl).
  - destruct s as [ | c s].
    { rewrite replace_all_nil. cbn [quote_body app].
      apply (replace_all_skips [34%N] b eq_refl). }
    simpl in Hlen. rewrite (replace_all_cons (60%N :: pt) rep c s).
    destruct (starts_with (60%N :: pt) (c :: s)) eqn:Hm.
    + apply starts_with_iff in Hm. destruct Hm as [t Ht].
      cbn [app] in Ht. injection Ht as -> ->.
      change (60%N :: pt ++ t) with ((60%N :: pt) ++ t).
      erewrite quote_body_copies by exact pat_plain.
      rewrite <- app_assoc, replace_all_match.
      cbn [List.length Nat.pred].
      rewrite skipn_app, skipn_all, Nat.sub_diag. cbn [skipn app].
      erewrite quote_body_copies by exact Hrep_plain.
      rewrite <- app_assoc.
      rewrite IH; [reflexivity | ]. rewrite length_app in Hlen. lia.
    + rewrite (quote_body_cons c s), (quote_body_cons c ((replace_all (60%N :: pt) rep) s)).
      destruct (is_high_surrogate c) eqn:Hc.
      * destruct s as [ | d s'].
        -- rewrite replace_all_nil.
           rewrite (replace_all_skips _ _ (unicode_escape_not_lt c)).
           rewrite (replace_all_skip 34%N b eq_refl). reflexivity.
        -- destruct (is_low_surrogate d) eqn:Hd.
           ++ assert (Hds : (replace_all (60%N :: pt) rep) (d :: s') = d :: (replace_all (60%N :: pt) rep) s').
              { rewrite replace_all_cons. cbn [starts_with].
                rewrite (surrogate_not_lt d (or_intror Hd)). reflexivity. }
              rewrite Hds, Hd.
              change ((c :: d :: quote_body s') ++ 34%N :: b)
                with ([c; d] ++ (quote_body s' ++ 34%N :: b)).
              rewrite replace_all_skips.
              ** rewrite IH; [reflexivity | simpl in Hlen; lia].
              ** cbn [mem existsb].
                 rewrite (surrogate_not_lt c (or_introl Hc)),
                   (surrogate_not_lt d (or_intror Hd)). reflexivity.
           ++ rewrite <- app_assoc.
              rewrite (replace_all_skips _ _ (unicode_escape_not_lt c)).
              rewrite (IH (d :: s') ltac:(lia)).
              assert (Hhead : exists h tl, (replace_all (60%N :: pt) rep) (d :: s') = h :: tl
                                           /\ is_low_surrogate h = false).
              { rewrite replace_all_cons.
                destruct (starts_with (60%N :: pt) (d :: s')).
                - rewrite Hrep. eexists. eexists. split; [reflexivity | ].
                  apply r0_not_low.
                - eexists. eexists. split; [reflexivity | exact Hd]. }
              destruct Hhead as (h & tl & Hh & Hlow).
              rewrite Hh, Hlow, <- app_assoc. reflexivity.
      * rewrite <- !app_assoc.
        assert (Hunit : forall x, (replace_all (60%N :: pt) rep) (quote_unit c ++ quote_body s ++ 34%N :: x)
                          = quote_unit c ++ (replace_all (60%N :: pt) rep) (quote_body s ++ 34%N :: x)).
        { intros x.
          destruct (quote_unit_shape c) as [[Hq _] | (t & Hq & Ht)]; rewrite Hq.
          - cbn [app]. rewrite replace_all_cons. cbn [starts_with].
            cbn [starts_with] in Hm.
            destruct (60 =? c)%N; [ | reflexivity]. cbn [andb] in Hm |- *.
            destruct (starts_with pt (quote_body s ++ 34%N :: x)) eqn:E;
              [ | reflexivity].
            rewrite (starts_with_quote_body pt Hpt s x E) in Hm. discriminate Hm.
          - apply replace_all_skips. cbn [mem existsb]. exact Ht. }
        rewrite Hunit, (IH s ltac:(lia)). reflexivity.
Qed.

Lemma replace_all_quote (k rest : jsstring) :
  (replace_all (60%N :: pt) rep) (quote k ++ rest) = quote ((replace_all (60%N :: pt) rep) k) ++ (replace_all (60%N :: pt) rep) rest.
Proof.
  unfold quote. cbn [app]. rewrite <- !app_assoc. cbn [app].
  rewrite (replace_all_skip 34%N _ eq_refl). cbn [app].
  rewrite (replace_all_quote_body (List.length k) k (le_n _)). reflexivity.
Qed.

Lemma number_not_lt (r : jsstring) :
  forallb JsNumber.number_char r = true -> mem 60%N r = false.
Proof.
  induction r as [ | c r IH]; intros H; [reflexivity | ].
  cbn [forallb] in H. apply andb_true_iff in H. destruct H as [Hc Hr].
  cbn [mem existsb]. fold (mem 60%N r). rewrite (IH Hr), orb_false_r.
  destruct (60 =? c)%N eqn:E; [ | reflexivity].
  apply N.eqb_eq in E. subst c. discriminate Hc.
Qed.

(** One pass of the replacement over a JSON text is the text of the value
    whose strings and keys went through the replacement. *)
Lemma replace_all_stringify (v : JSON) :
  forall rest, (replace_all (60%N :: pt) rep) (stringify v ++ rest) = stringify (over_strings (replace_all (60%N :: pt) rep) v) ++ (replace_all (60%N :: pt) rep) rest.
Proof.
  induction v as [ | b | r | s | items IH | props IH] using JSON_induction;
    intros rest.
  - apply (replace_all_skips (lit "null") rest eq_refl).
  - destruct b; [apply (replace_all_skips (lit "true") rest eq_refl)
                | apply (replace_all_skips (lit "false") rest eq_refl)].
  - cbn [stringify over_strings]. unfold JsNumber.is_finite.
    destruct (JsNumber.is_number r) eqn:Hn.
    + apply replace_all_skips, number_not_lt.
      unfold JsNumber.is_number in Hn. apply andb_true_iff in Hn. apply Hn.
    + apply (replace_all_skips (lit "null") rest eq_refl).
  - cbn [stringify over_strings]. apply replace_all_quote.
  - destruct items as [ | x xs].
    + apply (replace_all_skips (lit "[]") rest eq_refl).
    + cbn [over_strings map]. rewrite !stringify_array_app.
      rewrite (replace_all_skip 91%N _ eq_refl). cbn [app].
      rewrite (IH x (or_introl eq_refl)).
      do 2 f_equal.
      assert (Hmore : forall ys, (forall y, In y ys -> In y xs) ->
                (replace_all (60%N :: pt) rep) (more (map stringify ys) ++ 93%N :: rest)
                = more (map stringify (map (over_strings (replace_all (60%N :: pt) rep)) ys)) ++ 93%N :: (replace_all (60%N :: pt) rep) rest).
      { induction ys as [ | y ys IHys]; intros Hys.
        - apply (replace_all_skips [93%N] rest eq_refl).
        - cbn [map]. rewrite !more_cons. cbn [app]. rewrite <- !app_assoc.
          rewrite (replace_all_skip 44%N _ eq_refl). cbn [app].
          rewrite (IH y); [ | right; apply Hys; left; reflexivity].
          rewrite IHys; [reflexivity | ].
          intros z Hz. apply Hys. right. exact Hz. }
      apply Hmore. auto.
  - destruct props as [ | [k x] ps].
    + apply (replace_all_skips (lit "{}") rest eq_refl).
    + cbn [over_strings map fst snd]. rewrite !stringify_object_app.
      rewrite (replace_all_skip 123%N _ eq_refl). cbn [app].
      rewrite replace_all_quote.
      rewrite (replace_all_skip 58%N _ eq_refl). cbn [app].
      rewrite (IH k x (or_introl eq_refl)).
      do 4 f_equal.
      assert (Hmore : forall qs, (forall q, In q qs -> In q ps) ->
                (replace_all (60%N :: pt) rep) (more (map member_text qs) ++ 125%N :: rest)
                = more (map member_text
                          (map (fun kv => ((replace_all (60%N :: pt) rep) (fst kv), over_strings (replace_all (60%N :: pt) rep) (snd kv))) qs))
                  ++ 125%N :: (replace_all (60%N :: pt) rep) rest).
      { induction qs as [ | [k' y] qs IHqs]; intros Hqs.
        - apply (replace_all_skips [125%N] rest eq_refl).
        - cbn [map fst snd]. rewrite !more_cons. cbn [app].
          unfold member_text at 1 3. cbn [fst snd].
          rewrite <- !app_assoc, !colon_app.
          rewrite (replace_all_skip 44%N _ eq_refl). cbn [app].
          rewrite replace_all_quote.
          rewrite (replace_all_skip 58%N _ eq_refl). cbn [app].
          assert (Hin : In (k', y) ((k, x) :: ps)).
          { right. apply Hqs. left. reflexivity. }
          rewrite (IH k' y Hin).
          rewrite IHqs; [reflexivity | ].
          intros z Hz. apply Hqs. right. exact Hz. }
      apply Hmore. auto.
Qed.

End ScrubStructure.

Section StoredText.
Import JsString JsStringFacts JsNumber JSONText JSONParse.

Lemma over_strings_compose (f g : jsstring -> jsstring) (v : JSON) :
  over_strings f (over_strings g v) = over_strings (fun s => f (g s)) v.
Proof.
  induction v as [ | b | r | s | items IH | props IH] using JSON_induction;
    try reflexivity.
  - cbn [over_strings]. rewrite map_map. f_equal.
    apply map_ext_in. exact IH.
  - cbn [over_strings]. rewrite map_map. f_equal.
    apply map_ext_in. intros [k x] Hkx. cbn [fst snd]. f_equal.
    apply (IH k x Hkx).
Qed.

(** The stored text is the JSON text of the value whose strings and keys
    went through the scrub. *)
Lemma scrub_stringify (v : JSON) :
  scrub (stringify v) = stringify (over_strings scrub v).
Proof.
  unfold scrub.
  pose proof (replace_all_stringify (lit "script>") script_open_escaped
                38%N (lit "lt;script&gt;") eq_refl eq_refl eq_refl v []) as H1.
  rewrite replace_all_nil, !app_nil_r in H1.
  change (60%N :: lit "script>") with script_open in H1. rewrite H1.
  pose proof (replace_all_stringify (lit "/script>") script_close_escaped
                38%N (lit "lt;/script&gt;") eq_refl eq_refl eq_refl
                (over_strings (replace_all script_open script_open_escaped) v)
                []) as H2.
  rewrite replace_all_nil, !app_nil_r in H2.
  change (60%N :: lit "/script>") with script_close in H2. rewrite H2.
  rewrite over_strings_compose. reflexivity.
Qed.

Lemma parse_elements_as (xs : list JSON) :
  (forall x, In x xs -> reads_as x (as_parsed x)) ->
  forall fuel rest,
    (List.length (more (map stringify xs)) < fuel)%nat ->
    parse_elements fuel (more (map stringify xs) ++ 93%N :: rest)
    = Some (map as_parsed xs, rest).
Proof.
  intros Hxs. induction xs as [ | x xs IH]; intros fuel rest Hlen.
  - destruct fuel as [ | f]; [lia | reflexivity].
  - destruct fuel as [ | f]; [lia | ].
    cbn [map] in Hlen |- *. rewrite length_more_cons in Hlen.
    rewrite more_cons. cbn [app]. rewrite <- app_assoc.
    rewrite parse_elements_comma.
    rewrite (Hxs x (or_introl eq_refl));
      [ | lia | apply ends_value_more; reflexivity].
    rewrite IH; [reflexivity | | lia].
    intros y Hy. apply Hxs. right. exact Hy.
Qed.

Lemma parse_members_as (ps : entries) :
  (forall k x, In (k, x) ps -> reads_as x (as_parsed x)) ->
  forall fuel rest,
    (List.length (more (map member_text ps)) < fuel)%nat ->
    parse_members fuel (more (map member_text ps) ++ 125%N :: rest)
    = Some (map (fun kv => (fst kv, as_parsed (snd kv))) ps, rest).
Proof.
  intros Hps. induction ps as [ | [k x] ps IH]; intros fuel rest Hlen.
  - destruct fuel as [ | f]; [lia | reflexivity].
  - destruct fuel as [ | f]; [lia | ].
    cbn [map] in Hlen |- *. rewrite length_more_cons in Hlen.
    rewrite more_cons. cbn [app].
    unfold member_text at 1 in Hlen. unfold member_text at 1.
    cbn [fst snd] in Hlen |- *.
    rewrite !length_app in Hlen. change (List.length (lit ":")) with 1%nat in Hlen.
    rewrite <- !app_assoc, colon_app.
    rewrite parse_members_comma.
    rewrite (parse_member_quoted (parse_value f) k (stringify x) _ (as_parsed x)).
    + rewrite IH; [reflexivity | | lia].
      intros k' y Hy. apply (Hps k' y). right. exact Hy.
    + apply (Hps k x (or_introl eq_refl));
        [lia | apply ends_value_more; reflexivity].
Qed.

(** Every value is read from its JSON text, up to the numbers that are
    not finite and the repeated keys of its objects. *)
Lemma parse_value_as_parsed (v : JSON) : reads_as v (as_parsed v).
Proof.
  induction v as [ | b | r | s | items IH | props IH] using JSON_induction;
    intros fuel rest Hlen Hrest.
  - destruct fuel as [ | f]; [simpl in Hlen; lia | reflexivity].
  - destruct fuel as [ | f]; [destruct b; simpl in Hlen; lia | ].
    destruct b; reflexivity.
  - cbn [stringify as_parsed] in Hlen |- *. unfold is_finite in Hlen |- *.
    destruct (is_number r) eqn:Hn.
    + destruct (is_number_head r Hn) as (c & t & -> & Hc & Hall).
      destruct fuel as [ | f]; [simpl in Hlen; lia | ].
      cbn [app]. rewrite (parse_value_number f c _ Hc).
      change (c :: t ++ rest) with ((c :: t) ++ rest).
      rewrite (span_app number_char (c :: t) rest Hall), Hn; [reflexivity | ].
      destruct rest as [ | d rest]; [exact I | ].
      simpl in Hrest. apply negb_true_iff in Hrest. exact Hrest.
    + destruct fuel as [ | f]; [simpl in Hlen; lia | reflexivity].
  - destruct fuel as [ | f]; [simpl in Hlen; lia | ].
    cbn [stringify as_parsed]. unfold quote. cbn [app]. rewrite <- app_assoc.
    cbn [app]. rewrite parse_value_string.
    erewrite parse_chars_quote_body by apply le_n. reflexivity.
  - destruct items as [ | x xs].
    + destruct fuel as [ | f]; [simpl in Hlen; lia | reflexivity].
    + rewrite length_stringify_array in Hlen. rewrite stringify_array_app.
      destruct fuel as [ | f]; [lia | ].
      rewrite parse_value_array_nonempty.
      * rewrite (IH x (or_introl eq_refl));
          [ | lia | apply ends_value_more; reflexivity].
        rewrite parse_elements_as; [reflexivity | | lia].
        intros y Hy. apply IH. right. exact Hy.
      * destruct (stringify_opens x) as (c & t & -> & H1 & H2 & _).
        exists c, (t ++ more (map stringify xs) ++ 93%N :: rest). auto.
  - destruct props as [ | [k x] ps].
    + destruct fuel as [ | f]; [simpl in Hlen; lia | reflexivity].
    + rewrite length_stringify_object in Hlen. rewrite stringify_object_app.
      destruct fuel as [ | f]; [lia | ].
      rewrite parse_value_object_nonempty;
        [ | eexists; eexists; split; [reflexivity | split; reflexivity]].
      assert (Hx : reads_as x (as_parsed x)).
      { apply (IH k x (or_introl eq_refl)). }
      rewrite (parse_member_quoted (parse_value f) k (stringify x) _ (as_parsed x)).
      * rewrite parse_members_as; [reflexivity | | lia].
        intros k' y Hy. apply (IH k' y). right. exact Hy.
      * apply Hx; [lia | apply ends_value_more; reflexivity].
Qed.

Lemma parse_stringify_as_parsed (v : JSON) :
  parse (stringify v) = Some (as_parsed v).
Proof.
  unfold parse.
  pose proof (parse_value_as_parsed v (S (List.length (stringify v))) []) as H.
  rewrite app_nil_r in H. rewrite H; [reflexivity | lia | reflexivity].
Qed.

End StoredText.

(* ===================================================================== *)
(** * The properties of the pipeline *)
(* ===================================================================== *)

Example contentForDb_script_string :
  contentForDb (sanitize (JString (lit "<script>alert(1)</script>")))
  = [34%N] ++ lit "&lt;script&gt;alert(1)&lt;/script&gt;" ++ [34%N].
Proof. vm_compute. reflexivity. Qed.

Example contentForDb_object :
  contentForDb
    (sanitize (JObject [(lit "a", JNumber (lit "1"));
                        (elementScript, JString (lit "x"))]))
  = lit "{" ++ [34%N] ++ lit "a" ++ [34%N] ++ lit ":1}".
Proof. vm_compute. reflexivity. Qed.

Example mentions_nested :
  mentions elementScript
    (JObject [(lit "a", JArray [JObject [(elementScript, JString (lit "x"))]])])
  = true.
Proof. reflexivity. Qed.

(** C1: the result of the recursive sanitizer has no object key equal to
    [elementScript] at any nesting depth; an array is sanitized element
    by element; every pair an object keeps has another key and carries the
    sanitized value of an input pair with that key (a dropped pair leaves
    nothing behind). *)
Theorem C1_sanitize_drops_elementScript :
  (forall V, mentions elementScript (sanitize V) = false) /\
  (forall items, sanitize (JArray items) = JArray (map sanitize items)) /\
  (forall input k x,
      In (k, x) (own_entries (sanitize (JObject input))) ->
      k <> elementScript /\ exists v, In (k, v) input /\ x = sanitize v).
Proof.
  split; [ | split].
  - intros V. apply mentions_sanitize. reflexivity.
  - intros items. apply sanitize_array.
  - intros input k x H. rewrite sanitize_object in H; simpl in H.
    destruct (In_sanitize_entries _ _ _ _ H) as [[] | (Hk & _ & v & Hv & ->)].
    split; [exact Hk | exists v; auto].
Qed.

Lemma C1_sanitize_drops_elementScript_witness :
  let input := [(lit "a", JArray [JObject [(elementScript, JNull)]]);
                (elementScript, JString (lit "x"))] in
  lit "a" <> elementScript /\
  exists v, In (lit "a", v) input /\ JArray [JObject []] = sanitize v.
Proof.
  intros input.
  refine (proj2 (proj2 C1_sanitize_drops_elementScript) input (lit "a")
            (JArray [JObject []]) _).
  vm_compute. left. reflexivity.
Defined.

(** C2: the stored text is the JSON text of the sanitized structure in
    which every [<script>] was replaced by [&lt;script&gt;] and then every
    [</script>] by [&lt;/script&gt;]: neither marker is left in it, and
    wherever the JSON text had a marker the stored text has the escaped
    form, in particular when the content is a string that contains the
    marker, or holds such a string as a value at any depth. *)
Theorem C2_script_markers_escaped :
  (forall V,
      contentForDb V =
      JSONText.replace_all script_close script_close_escaped
        (JSONText.replace_all script_open script_open_escaped
           (JSONText.stringify V)))
  /\ (forall V,
        JsString.includes script_open (contentForDb V) = false /\
        JsString.includes script_close (contentForDb V) = false)
  /\ (forall V,
        (JsString.includes script_open (JSONText.stringify V) = true ->
         JsString.includes script_open_escaped (contentForDb V) = true) /\
        (JsString.includes script_close (JSONText.stringify V) = true ->
         JsString.includes script_close_escaped (contentForDb V) = true))
  /\ (forall s,
        (JsString.includes script_open s = true ->
         JsString.includes script_open_escaped
           (contentForDb (sanitize (JString s))) = true) /\
        (JsString.includes script_close s = true ->
         JsString.includes script_close_escaped
           (contentForDb (sanitize (JString s))) = true))
  /\ (forall V s,
        StringLeaf s (sanitize V) ->
        (JsString.includes script_open s = true ->
         JsString.includes script_open_escaped
           (contentForDb (sanitize V)) = true) /\
        (JsString.includes script_close s = true ->
         JsString.includes script_close_escaped
           (contentForDb (sanitize V)) = true)).
Proof.
  assert (Hleaf : forall V s,
             StringLeaf s V ->
             (JsString.includes script_open s = true ->
              JsString.includes script_open_escaped (contentForDb V) = true) /\
             (JsString.includes script_close s = true ->
              JsString.includes script_close_escaped (contentForDb V) = true)).
  { intros V s Hs. unfold contentForDb. split; intros H.
    - apply scrub_escapes, (stringify_includes_leaf _ s V Hs).
      apply (stringify_string_includes script_open s);
        [discriminate | reflexivity | exact H].
    - apply scrub_escapes, (stringify_includes_leaf _ s V Hs).
      apply (stringify_string_includes script_close s);
        [discriminate | reflexivity | exact H]. }
  split; [reflexivity | ].
  split; [intros V; apply scrub_removes | ].
  split; [intros V; apply scrub_escapes | ].
  split.
  - intros s. apply Hleaf. simpl. constructor.
  - intros V s. apply Hleaf.
Qed.

Lemma C2_script_markers_escaped_witness :
  let s := lit "a<script>b</script>" in
  JsString.includes script_open_escaped (contentForDb (sanitize (JString s))) = true /\
  JsString.includes script_close_escaped (contentForDb (sanitize (JString s))) = true.
Proof.
  intros s.
  destruct C2_script_markers_escaped as (_ & _ & _ & H & _).
  destruct (H s) as [Ho Hc].
  split; [apply Ho | apply Hc]; reflexivity.
Defined.

Example nested_leaf_is_scrubbed :
  contentForDb
    (sanitize (JObject [(lit "a", JArray [JString (lit "<script>x</script>")])]))
  = lit "{" ++ [34%N] ++ lit "a" ++ [34%N] ++ lit ":[" ++ [34%N]
    ++ lit "&lt;script&gt;x&lt;/script&gt;" ++ [34%N] ++ lit "]}".
Proof. vm_compute. reflexivity. Qed.

(** C3: the size gate looks at the byte length of the sanitized and
    scrubbed text.  Above 900 KiB the handler answers 413 with the
    "Payload too large" body and makes no insert call; at 900 KiB or below
    (in particular at exactly 900 KiB) the insert of that very text is
    attempted. *)
Theorem C3_size_gate :
  forall (W : Type) (oracle : Oracle W) (w : W) (b : JSON)
         (id : option jsstring) (content : JSON),
    RequestSchema.safeParse b = inr (id, content) ->
    let text := contentForDb (sanitize content) in
    let r := resolved oracle id w in
    let out := run oracle (CreateTemplateApi.handle (mkRequest (inr b))) w in
    let attempted :=
      exists rest,
        calls_of out =
        snd r ++
        Called (D1Run CreateTemplateApi.insert_sql [templateId_of r; text])
        :: rest in
    ((900 * 1024 < Blob_size text)%Z ->
       response_of out =
         mkResponse
           (JObject [(lit "error", JString (lit "Payload too large"));
                     (lit "details",
                      JString (lit "content exceeds size limit"))])
           413
       /\ filter is_insert (calls_of out) = [])
    /\ ((Blob_size text <= 900 * 1024)%Z -> attempted)
    /\ (Blob_size text = (900 * 1024)%Z -> attempted).
Proof.
  intros W oracle w b id content Hparse text r out attempted.
  assert (Hle : (Blob_size text <= 900 * 1024)%Z -> attempted).
  { intros Hsize. subst attempted out.
    rewrite (run_gated oracle _ _ _ w Hparse). cbv zeta. fold text. subst r.
    destruct (resolved oracle id w) as [[templateId w1] c1].
    destruct (Z.ltb_spec CreateTemplateApi.maxBytes (Blob_size text)) as [Hlt | _];
      [unfold CreateTemplateApi.maxBytes in Hlt; lia | ].
    cbv zeta. unfold templateId_of, calls_of; simpl fst; simpl snd.
    destruct (oracle _ (D1Run _ _) w1) as [[message | []] w2].
    - destruct (CreateTemplateApi.unique_violation message).
      + exists []. reflexivity.
      + cbn. destruct (oracle _ (ConsoleError _ _) w2). eexists. reflexivity.
    - destruct (after_insert oracle templateId w2) as [[r3 w3] c3].
      exists c3. reflexivity. }
  split; [ | split; [exact Hle | intros Heq; apply Hle; lia]].
  intros Hsize. subst out.
  rewrite (run_gated oracle _ _ _ w Hparse). cbv zeta. fold text.
  pose proof (filter_resolved_calls oracle is_insert id w eq_refl) as Hc.
  destruct (resolved oracle id w) as [[templateId w1] c1].
  destruct (Z.ltb_spec CreateTemplateApi.maxBytes (Blob_size text)) as [_ | Hge];
    [ | unfold CreateTemplateApi.maxBytes in Hge; lia].
  split; [reflexivity | exact Hc].
Qed.

Lemma C3_size_gate_witness :
  let b := JObject [(lit "id", JString uuid1); (lit "content", JString (lit "x"))] in
  RequestSchema.safeParse b = inr (Some uuid1, JString (lit "x")) /\
  exists rest,
    calls_of (run D1.oracle (CreateTemplateApi.handle (mkRequest (inr b))) D1.empty)
    = Called (D1Run CreateTemplateApi.insert_sql
                [uuid1; contentForDb (sanitize (JString (lit "x")))]) :: rest.
Proof.
  intros b. split; [reflexivity | ].
  refine (proj1 (proj2 (C3_size_gate _ D1.oracle D1.empty b (Some uuid1)
                          (JString (lit "x")) eq_refl)) _).
  apply Z.leb_le. vm_compute. reflexivity.
Defined.

(** C4: when the insert fails with a message that matches
    [unique constraint failed] without regard to case, the handler answers
    409 with the "Duplicate id" body; when the message does not match, it
    answers 500 with the message as details.  Either way one insert call
    was made, and the identifier generator was not called again. *)
Theorem C4_insert_failure :
  forall (W : Type) (oracle : Oracle W) (w w2 : W) (b : JSON)
         (id : option jsstring) (content : JSON) (message : jsstring),
    RequestSchema.safeParse b = inr (id, content) ->
    let text := contentForDb (sanitize content) in
    let r := resolved oracle id w in
    (Blob_size text <= 900 * 1024)%Z ->
    oracle _ (D1Run CreateTemplateApi.insert_sql [templateId_of r; text])
      (world_of r) = (inl message, w2) ->
    let out := run oracle (CreateTemplateApi.handle (mkRequest (inr b))) w in
    (if JsString.regex_test_i [lit "unique constraint failed"] message
     then response_of out =
          mkResponse
            (JObject [(lit "error", JString (lit "Duplicate id"));
                      (lit "details",
                       JString (lit "Template with this id already exists"))])
            409
     else response_of out =
          mkResponse
            (JObject [(lit "error", JString (lit "Internal server error"));
                      (lit "details", JString message)])
            500)
    /\ filter is_insert (calls_of out) =
       [Called (D1Run CreateTemplateApi.insert_sql [templateId_of r; text])]
    /\ filter is_random (calls_of out) =
       match id with Some _ => [] | None => [Called RandomUUID] end.
Proof.
  intros W oracle w w2 b id content message Hparse text r Hsize Hins out.
  subst out. rewrite (run_gated oracle _ _ _ w Hparse). cbv zeta. fold text.
  pose proof (filter_resolved_calls oracle is_insert id w eq_refl) as Hci.
  pose proof (resolved_calls oracle id w) as Hcr.
  subst r. destruct (resolved oracle id w) as [[templateId w1] c1].
  unfold templateId_of, world_of in *; simpl fst in *; simpl snd in *.
  destruct (Z.ltb_spec CreateTemplateApi.maxBytes (Blob_size text)) as [Hlt | _];
    [unfold CreateTemplateApi.maxBytes in Hlt; lia | ].
  rewrite Hins, <- unique_violation_pattern.
  destruct (CreateTemplateApi.unique_violation message).
  - unfold calls_of, response_of; simpl fst; simpl snd.
    rewrite !filter_app, Hci. subst c1.
    repeat split; destruct id; reflexivity.
  - cbn. destruct (oracle _ (ConsoleError _ _) w2) as [[] w3].
    unfold calls_of, response_of; simpl fst; simpl snd.
    rewrite !filter_app, Hci. subst c1.
    repeat split; destruct id; reflexivity.
Qed.

Lemma C4_insert_failure_witness :
  let b := JObject [(lit "id", JString uuid1); (lit "content", JString (lit "x"))] in
  let w := D1.mkWorld [(uuid1, lit "old")] [] None in
  response_of (run D1.oracle (CreateTemplateApi.handle (mkRequest (inr b))) w)
  = CreateTemplateApi.duplicate_id.
Proof.
  intros b w.
  exact (proj1 (C4_insert_failure _ D1.oracle w w b (Some uuid1) (JString (lit "x"))
                  D1.unique_failed eq_refl
                  ltac:(apply Z.leb_le; vm_compute; reflexivity) eq_refl)).
Defined.

Example insert_outage_is_500 :
  let b := JObject [(lit "content", JString (lit "x"))] in
  let w := D1.mkWorld [] [uuid1] (Some (lit "D1_ERROR: no such table")) in
  response_of (run D1.oracle (CreateTemplateApi.handle (mkRequest (inr b))) w)
  = internal_error (lit "D1_ERROR: no such table").
Proof. vm_compute. reflexivity. Qed.


(** It fails as well where [JSON.stringify] changes a value: a number
    that is not finite (the number a literal such as [1e400] is read as)
    is stored as [null], and [null] is what the content field parses to. *)
Example non_finite_number_reads_back_as_null :
  let content := JArray [JNumber (lit "Infinity")] in
  let response :=
    response_of
      (run D1.oracle (CreateTemplateApi.handle (post (Some uuid1) content))
           D1.empty) in
  status response = 201%N /\
  sanitize content = content /\
  contentForDb (sanitize content) = lit "[null]" /\
  parsed_content response = Some (JArray [JNull]) /\
  deep_equal (JArray [JNull]) (sanitize content) = false.
Proof. vm_compute. repeat split. Qed.



(** C6, at the input where it fails: an object inside the content that
    has the own key [__proto__] (as [JSON.parse] creates it) loses that
    key, although it is not the disallowed field name. *)
Theorem C6_proto_key_is_lost :
  let V := JArray [JObject [(proto_key, JNumber (lit "1"));
                            (lit "a", JNumber (lit "2"))]] in
  sanitize V = JArray [JObject [(lit "a", JNumber (lit "2"))]] /\
  proto_key <> elementScript.
Proof.
  split; [vm_compute; reflexivity | discriminate].
Qed.

(** C7: a body whose [id] is present and is not a string in the canonical
    UUID format, or whose [content] is missing or is a number, a boolean or
    null, is answered with status 400, the error "Validation failed" and
    at least one violation in the details, without any call to the store;
    every other body (an object whose [id] is absent or a UUID and whose
    [content] is a string, an object or an array) passes validation. *)
Theorem C7_validation :
  forall (W : Type) (oracle : Oracle W) (w : W) (b : JSON),
    (acceptable b = false ->
       exists violation violations,
         response_of (run oracle (CreateTemplateApi.handle (mkRequest (inr b))) w)
         = mkResponse
             (JObject [(lit "error", JString (lit "Validation failed"));
                       (lit "details", JArray (violation :: violations))])
             400
         /\ filter is_insert
              (calls_of (run oracle (CreateTemplateApi.handle (mkRequest (inr b))) w))
            = [])
    /\ (acceptable b = true ->
          exists id content,
            RequestSchema.safeParse b = inr (id, content)
            /\ id_acceptable (option_map JString id) = true
            /\ content_acceptable (Some content) = true).
Proof.
  intros W oracle w b. split.
  - intros Hb. destruct (parse_unacceptable b Hb) as (issue & issues & Hparse).
    exists (issue_json issue), (map issue_json issues).
    unfold CreateTemplateApi.handle, CreateTemplateApi.handle_body, try_catch,
      bindA, request_json, RequestSchema.parse; simpl json.
    unfold ret at 1; simpl bind. rewrite Hparse. unfold throw; simpl bind.
    rewrite run_on_error. split; reflexivity.
  - intros Hb. destruct (parse_acceptable b Hb) as (id & content & Hparse).
    exists id, content. split; [exact Hparse | ].
    destruct b as [ | ? | ? | ? | ? | props]; try discriminate.
    unfold acceptable in Hb. apply andb_true_iff in Hb. destruct Hb as [Hid Hc].
    unfold RequestSchema.safeParse in Hparse.
    destruct (get (lit "id") props) as [[ | | | s | | ] | ];
      try discriminate Hid;
      destruct (get (lit "content") props) as [[ | | | ? | ? | ? ] | ];
      try discriminate Hc; simpl in *; rewrite ?Hid in Hparse;
      injection Hparse as <- <-; simpl; auto.
Qed.

Example post_not_a_uuid :
  response_of
    (run D1.oracle
       (CreateTemplateApi.handle (post (Some (lit "not-a-uuid")) (JString (lit "x"))))
       D1.empty)
  = mkResponse
      (JObject [(lit "error", JString (lit "Validation failed"));
                (lit "details",
                 JArray [JObject [(lit "validation", JString (lit "uuid"));
                                  (lit "code", JString (lit "invalid_string"));
                                  (lit "message", JString (lit "Invalid uuid"));
                                  (lit "path", JArray [JString (lit "id")])]])])
      400.
Proof. vm_compute. reflexivity. Qed.

Example number_content_rejected :
  acceptable (JObject [(lit "content", JNumber (lit "1"))]) = false /\
  acceptable (JObject [(lit "content", JNull)]) = false /\
  acceptable (JObject [(lit "content", JBool true)]) = false /\
  acceptable (JObject [(lit "id", JString uuid1)]) = false /\
  acceptable (JObject [(lit "content", JArray [])]) = true.
Proof. repeat split. Qed.

Lemma C7_validation_witness :
  let b := JObject [(lit "id", JString (lit "not-a-uuid"));
                    (lit "content", JString (lit "x"))] in
  acceptable b = false /\
  exists violation violations,
    response_of (run D1.oracle (CreateTemplateApi.handle (mkRequest (inr b))) D1.empty)
    = mkResponse
        (JObject [(lit "error", JString (lit "Validation failed"));
                  (lit "details", JArray (violation :: violations))])
        400
    /\ filter is_insert
         (calls_of
            (run D1.oracle (CreateTemplateApi.handle (mkRequest (inr b))) D1.empty))
       = [].
Proof.
  intros b. split; [reflexivity | ].
  exact (proj1 (C7_validation _ D1.oracle D1.empty b) eq_refl).
Defined.




(** What the simpler handler omits: beyond the ceiling it still inserts,
    and a uniqueness violation is answered as any other failure. *)
Lemma orm_has_no_gate (W : Type) (oracle : Oracle W) (w : W) (b : JSON)
      (id : option jsstring) (content : JSON) :
  RequestSchema.safeParse b = inr (id, content) ->
  let r := resolved oracle id w in
  flat_map written
    (calls_of (run oracle (CreateTemplateApiOrm.handle (mkRequest (inr b))) w))
  = [(templateId_of r, contentForDb (sanitize content))].
Proof.
  intros Hparse r. rewrite (run_orm oracle _ _ _ w Hparse). cbv zeta.
  assert (Hc : flat_map written (snd r) = []).
  { subst r. rewrite resolved_calls. destruct id; reflexivity. }
  subst r. destruct (resolved oracle id w) as [[templateId w1] c1].
  unfold templateId_of in *; simpl fst in *; simpl snd in *.
  destruct (oracle _ (DrizzleInsert _ _) w1) as [[message | []] w2].
  - cbn. destruct (oracle _ (ConsoleError _ _) w2) as [[] w3].
    unfold calls_of; simpl snd. rewrite !flat_map_app, Hc. reflexivity.
  - pose proof (after_insert_calls oracle templateId w2) as (_ & _ & Hw).
    destruct (after_insert oracle templateId w2) as [[r3 w3] c3].
    unfold calls_of; simpl snd in *.
    rewrite !flat_map_app, Hc. simpl. rewrite Hw. reflexivity.
Qed.

(** The same identifier twice: 201, then 409. *)
Example same_id_twice :
  let request := post (Some uuid1) (JString (lit "x")) in
  let first := run D1.oracle (CreateTemplateApi.handle request) D1.empty in
  let second := run D1.oracle (CreateTemplateApi.handle request) (snd (fst first)) in
  status (response_of first) = 201%N /\
  response_of second = CreateTemplateApi.duplicate_id.
Proof. vm_compute. split; reflexivity. Qed.

Example duplicate_in_both_variants :
  let b := JObject [(lit "id", JString uuid1); (lit "content", JString (lit "x"))] in
  let w := D1.mkWorld [(uuid1, lit "old")] [] None in
  response_of (run D1.oracle (CreateTemplateApi.handle (mkRequest (inr b))) w)
  = CreateTemplateApi.duplicate_id /\
  response_of (run D1.oracle (CreateTemplateApiOrm.handle (mkRequest (inr b))) w)
  = internal_error D1.unique_failed.
Proof. split; vm_compute; reflexivity. Qed.

(** C9: the sanitizer is idempotent, [sanitize (sanitize V) = sanitize V]
    for every JSON value [V]. *)
Theorem C9_sanitize_idempotent :
  forall V, sanitize (sanitize V) = sanitize V.
Proof.
  intros V. apply sanitize_fixed, sanitize_Sanitized.
Qed.

(** C10: the scrub matches the exact lower-case markers only.  For the
    string content [<SCRIPT>alert(1)</SCRIPT>] the stored text is the JSON
    text of the content, upper-case markers included; more generally a
    text without the exact markers is stored unchanged. *)
Theorem C10_scrub_is_case_sensitive :
  let content := JString (lit "<SCRIPT>alert(1)</SCRIPT>") in
  contentForDb (sanitize content) = JSONText.stringify content
  /\ contentForDb (sanitize content)
     = [34%N] ++ lit "<SCRIPT>alert(1)</SCRIPT>" ++ [34%N]
  /\ JsString.includes (lit "<SCRIPT>") (contentForDb (sanitize content)) = true
  /\ JsString.includes (lit "</SCRIPT>") (contentForDb (sanitize content)) = true
  /\ (forall text,
        JsString.includes script_open text = false ->
        JsString.includes script_close text = false ->
        scrub text = text).
Proof.
  repeat split; try (vm_compute; reflexivity).
  intros text. apply scrub_absent.
Qed.

Lemma C10_scrub_is_case_sensitive_witness :
  scrub (lit "<Script>x</scripT>") = lit "<Script>x</scripT>".
Proof.
  refine (proj2 (proj2 (proj2 (proj2 C10_scrub_is_case_sensitive))) _ _ _);
    reflexivity.
Defined.

(* ===================================================================== *)
(** * Further properties of the handlers *)
(* ===================================================================== *)

(** X1: whatever the request and whatever the collaborators answer, the
    handler that inserts through the ORM answers with a status that
    [schema.responses] declares (201, 400 or 500); the size-gated handler
    answers with one of these or with 409 or 413, which the schema does
    not declare. *)
Theorem X1_statuses :
  forall (W : Type) (oracle : Oracle W) (w : W) (request : Request),
    In (status (response_of (run oracle (CreateTemplateApiOrm.handle request) w)))
       schema_responses
    /\ In (status (response_of (run oracle (CreateTemplateApi.handle request) w)))
          (schema_responses ++ [409; 413]%N)
    /\ ~ In 409%N schema_responses /\ ~ In 413%N schema_responses.
Proof.
  intros W oracle w request. split; [ | split].
  - orm_paths oracle request w; unfold response_of; simpl; auto.
  - gated_paths oracle request w; unfold response_of; simpl; auto 10.
  - split; simpl; intuition discriminate.
Qed.

(** X2: an error is written to the console exactly once when the answer is
    400 or 500, and never when it is 201, 409 or 413: the "Payload too
    large" and "Duplicate id" answers are returned without a report.  The
    same holds for the handler that inserts through the ORM. *)
Theorem X2_console_reports :
  forall (W : Type) (oracle : Oracle W) (w : W) (request : Request),
    let reports (out : Response * W * list Call) :=
      List.length (filter is_log (calls_of out)) in
    let expected (out : Response * W * list Call) :=
      if ((status (response_of out) =? 400) || (status (response_of out) =? 500))%N
      then 1%nat else 0%nat in
    reports (run oracle (CreateTemplateApi.handle request) w)
    = expected (run oracle (CreateTemplateApi.handle request) w)
    /\ reports (run oracle (CreateTemplateApiOrm.handle request) w)
       = expected (run oracle (CreateTemplateApiOrm.handle request) w).
Proof.
  intros W oracle w request reports expected. subst reports expected. split.
  - gated_paths oracle request w; unfold response_of, calls_of; simpl;
      rewrite ?filter_app; split_id; reflexivity.
  - orm_paths oracle request w; unfold response_of, calls_of; simpl;
      rewrite ?filter_app; split_id; reflexivity.
Qed.

(** X3: the calls of a request come in the order of the pipeline
    (identifier, insert, read-back, error report) and each stage is
    entered at most once: nothing is retried, and no store call follows
    an error report.  This holds for both handlers. *)
Theorem X3_calls_follow_the_pipeline :
  forall (W : Type) (oracle : Oracle W) (w : W) (request : Request),
    increasing
      (map stage (calls_of (run oracle (CreateTemplateApi.handle request) w)))
    = true
    /\ increasing
         (map stage (calls_of (run oracle (CreateTemplateApiOrm.handle request) w)))
       = true.
Proof.
  intros W oracle w request. split.
  - gated_paths oracle request w; unfold calls_of; simpl;
      split_id; reflexivity.
  - orm_paths oracle request w; unfold calls_of; simpl;
      split_id; reflexivity.
Qed.

(** X4: a lookup is made only for the identifier of the row that the same
    request has just written: whenever the calls contain a lookup of
    [id'], they contain exactly one write, and it is a write under [id'].
    This holds for both handlers. *)
Theorem X4_lookup_follows_write :
  forall (W : Type) (oracle : Oracle W) (w : W) (request : Request) (id' : jsstring),
    (In id' (flat_map looked_up
               (calls_of (run oracle (CreateTemplateApi.handle request) w))) ->
     exists text,
       flat_map written
         (calls_of (run oracle (CreateTemplateApi.handle request) w))
       = [(id', text)])
    /\ (In id' (flat_map looked_up
                  (calls_of (run oracle (CreateTemplateApiOrm.handle request) w))) ->
        exists text,
          flat_map written
            (calls_of (run oracle (CreateTemplateApiOrm.handle request) w))
          = [(id', text)]).
Proof.
  intros W oracle w request id'. split.
  - gated_paths oracle request w; unfold calls_of; simpl snd;
      rewrite ?flat_map_app; split_id; simpl; intros H;
      first [ contradiction
            | destruct H as [<- | []]; eexists; reflexivity ].
  - orm_paths oracle request w; unfold calls_of; simpl snd;
      rewrite ?flat_map_app; split_id; simpl; intros H;
      first [ contradiction
            | destruct H as [<- | []]; eexists; reflexivity ].
Qed.

Lemma X4_lookup_follows_write_witness :
  let out :=
    run D1.oracle (CreateTemplateApi.handle (post (Some uuid1) (JString (lit "x"))))
        D1.empty in
  In uuid1 (flat_map looked_up (calls_of out)) /\
  exists text, flat_map written (calls_of out) = [(uuid1, text)].
Proof.
  intros out. split; [vm_compute; left; reflexivity | ].
  apply (proj1 (X4_lookup_follows_write _ D1.oracle D1.empty
                  (post (Some uuid1) (JString (lit "x"))) uuid1)).
  vm_compute. left. reflexivity.
Defined.

(** X5: the handler answers 201 only when the body passed validation, the
    text was within the ceiling, the insert resolved and the lookup
    returned a row; the body of the answer is that row, exactly as the
    store returned it. *)
Theorem X5_created_only_after_read_back :
  forall (W : Type) (oracle : Oracle W) (w : W) (request : Request),
    status (response_of (run oracle (CreateTemplateApi.handle request) w)) = 201%N ->
    exists id content,
      validated request = Some (id, content)
      /\ let text := contentForDb (sanitize content) in
         let r := resolved oracle id w in
         (Blob_size text <= 900 * 1024)%Z
         /\ exists w2 w3,
              oracle _ (D1Run CreateTemplateApi.insert_sql [templateId_of r; text])
                (world_of r) = (inr tt, w2)
              /\ oracle _ (D1First select_sql [templateId_of r]) w2
                 = (inr (Some (body (response_of
                                       (run oracle (CreateTemplateApi.handle request) w)))),
                    w3).
Proof.
  intros W oracle w request.
  gated_paths oracle request w; unfold response_of; simpl fst;
    try (simpl; discriminate).
  intros _. exists id, content. unfold validated; cbn [json]. rewrite Hparse.
  rewrite Hresolved. unfold templateId_of, world_of; cbn [fst snd body].
  split; [reflexivity | split].
  - apply Z.ltb_ge in Hsize. exact Hsize.
  - exists w2, w3. split; assumption.
Qed.

Lemma X5_created_only_after_read_back_witness :
  let request := post (Some uuid1) (JString (lit "x")) in
  status (response_of (run D1.oracle (CreateTemplateApi.handle request) D1.empty))
  = 201%N /\
  exists id content, validated request = Some (id, content).
Proof.
  intros request. split; [reflexivity | ].
  destruct (X5_created_only_after_read_back _ D1.oracle D1.empty request eq_refl)
    as (id & content & H & _).
  exists id, content. exact H.
Defined.


(** X6: when the insert resolved and the lookup then finds no row, the
    answer is 500 with the details "Failed to fetch inserted template";
    when the lookup itself rejects, the answer is 500 with its message.
    In both cases the row has been written and the only later call is the
    error report: nothing removes the row again. *)
Theorem X6_read_back_failure :
  forall (W : Type) (oracle : Oracle W) (w w2 w3 : W) (b : JSON)
         (id : option jsstring) (content : JSON)
         (result : jsstring + option JSON),
    RequestSchema.safeParse b = inr (id, content) ->
    let text := contentForDb (sanitize content) in
    let r := resolved oracle id w in
    (Blob_size text <= 900 * 1024)%Z ->
    oracle _ (D1Run CreateTemplateApi.insert_sql [templateId_of r; text])
      (world_of r) = (inr tt, w2) ->
    oracle _ (D1First select_sql [templateId_of r]) w2 = (result, w3) ->
    (forall row, result <> inr (Some row)) ->
    let out := run oracle (CreateTemplateApi.handle (mkRequest (inr b))) w in
    let details :=
      match result with
      | inl m => m
      | inr _ => lit "Failed to fetch inserted template"
      end in
    response_of out = internal_error details
    /\ calls_of out =
       snd r ++ [Called (D1Run CreateTemplateApi.insert_sql [templateId_of r; text]);
                 Called (D1First select_sql [templateId_of r]);
                 Called (report (Error details))].
Proof.
  intros W oracle w w2 w3 b id content result Hparse text r Hsize Hins Hsel
    Hrow out details.
  subst out. rewrite (run_gated oracle b id content w Hparse). cbv zeta. fold text.
  subst r. destruct (resolved oracle id w) as [[templateId w1] c1].
  unfold templateId_of, world_of in *; cbn [fst snd] in *.
  destruct (Z.ltb_spec CreateTemplateApi.maxBytes (Blob_size text)) as [Hlt | _];
    [unfold CreateTemplateApi.maxBytes in Hlt; lia | ].
  rewrite Hins, after_insert_cases. cbv zeta. rewrite Hsel.
  subst details. destruct result as [m | [row | ]].
  - split; reflexivity.
  - exfalso. apply (Hrow row). reflexivity.
  - split; reflexivity.
Qed.

Lemma X6_read_back_failure_witness :
  let b := JObject [(lit "id", JString uuid1); (lit "content", JString (lit "x"))] in
  let vanishing : Oracle D1.World :=
    fun X e =>
      match e in Event X return D1.World -> X * D1.World with
      | D1First _ _ => fun w => (inr None, w)
      | e' => D1.oracle _ e'
      end in
  response_of (run vanishing (CreateTemplateApi.handle (mkRequest (inr b))) D1.empty)
  = internal_error (lit "Failed to fetch inserted template").
Proof.
  intros b vanishing.
  refine (proj1 (X6_read_back_failure _ vanishing D1.empty _ _ b (Some uuid1)
                   (JString (lit "x")) (inr None) eq_refl _ eq_refl eq_refl _)).
  - apply Z.leb_le. vm_compute. reflexivity.
  - intros row. discriminate.
Defined.

(** X7: a supplied [id] is used as it is, for the insert and for the
    lookup, and the identifier generator is not called; without an [id]
    the generator is called once, first, and its answer is used for both,
    even when the request is then refused as too large or as a
    duplicate. *)
Theorem X7_identifier_resolution :
  forall (W : Type) (oracle : Oracle W) (w : W) (b : JSON)
         (id : option jsstring) (content : JSON),
    RequestSchema.safeParse b = inr (id, content) ->
    let calls := calls_of (run oracle (CreateTemplateApi.handle (mkRequest (inr b))) w) in
    let templateId :=
      match id with
      | Some i => i
      | None => fst (oracle _ RandomUUID w)
      end in
    (exists rest,
        calls = match id with Some _ => [] | None => [Called RandomUUID] end ++ rest
        /\ filter is_random rest = [])
    /\ (forall i text, In (i, text) (flat_map written calls) -> i = templateId)
    /\ (forall i, In i (flat_map looked_up calls) -> i = templateId).
Proof.
  intros W oracle w b id content Hparse calls templateId. subst calls.
  rewrite (run_gated oracle b id content w Hparse). cbv zeta.
  assert (Hid : templateId_of (resolved oracle id w) = templateId
                /\ snd (resolved oracle id w)
                   = match id with Some _ => [] | None => [Called RandomUUID] end).
  { subst templateId. destruct id; simpl; [auto | ].
    destruct (oracle _ RandomUUID w); auto. }
  destruct Hid as [Hid Hc].
  destruct (resolved oracle id w) as [[t w1] c1].
  unfold templateId_of in Hid; cbn [fst snd] in Hid, Hc. subst t c1.
  destruct (Z.ltb CreateTemplateApi.maxBytes _).
  { unfold calls_of; cbn [snd]. split; [exists []; rewrite app_nil_r; auto | ].
    destruct id; simpl; split; intros; contradiction. }
  destruct (oracle _ (D1Run _ _) w1) as [[message | []] w2].
  - destruct (CreateTemplateApi.unique_violation message).
    + unfold calls_of; cbn [snd]. split; [eexists; split; reflexivity | ].
      rewrite !flat_map_app. destruct id; simpl; split; intros;
        repeat match goal with
               | H : _ \/ _ |- _ => destruct H
               | H : False |- _ => contradiction
               | H : (_, _) = (_, _) |- _ => injection H as <- _
               end; reflexivity.
    + rewrite run_report. unfold calls_of; cbn [snd].
      split; [eexists; split; reflexivity | ].
      rewrite !flat_map_app. destruct id; simpl; split; intros;
        repeat match goal with
               | H : _ \/ _ |- _ => destruct H
               | H : False |- _ => contradiction
               | H : (_, _) = (_, _) |- _ => injection H as <- _
               end; reflexivity.
  - rewrite after_insert_cases. cbv zeta.
    destruct (oracle _ (D1First _ _) w2) as [[m | [row | ]] w3];
      unfold calls_of; cbn [snd];
      (split; [eexists; split; reflexivity | ]);
      rewrite !flat_map_app; destruct id; simpl; split; intros;
        repeat match goal with
               | H : _ \/ _ |- _ => destruct H
               | H : False |- _ => contradiction
               | H : (_, _) = (_, _) |- _ => injection H as <- _
               | H : _ = _ |- _ => subst
               end; reflexivity.
Qed.

Lemma X7_identifier_resolution_witness :
  let b := JObject [(lit "content", JString (lit "x"))] in
  let w := D1.mkWorld [] [uuid1] None in
  let calls := calls_of (run D1.oracle (CreateTemplateApi.handle (mkRequest (inr b))) w) in
  In (uuid1, contentForDb (sanitize (JString (lit "x")))) (flat_map written calls)
  /\ forall i text, In (i, text) (flat_map written calls) -> i = uuid1.
Proof.
  intros b w calls. split; [vm_compute; left; reflexivity | ].
  exact (proj1 (proj2 (X7_identifier_resolution _ D1.oracle w b None
                         (JString (lit "x")) eq_refl))).
Defined.

(** X8: a request whose body cannot be read, or is refused by the schema,
    is answered without any call to the identifier generator or to the
    store: the only call is the error report, and the answer is 400 or
    500.  The two handlers do exactly the same on such a request. *)
Theorem X8_refused_before_the_store :
  forall (W : Type) (oracle : Oracle W) (w : W) (request : Request),
    validated request = None ->
    let out := run oracle (CreateTemplateApi.handle request) w in
    run oracle (CreateTemplateApiOrm.handle request) w = out
    /\ (exists e, calls_of out = [Called (report e)])
    /\ (status (response_of out) = 400%N \/ status (response_of out) = 500%N).
Proof.
  intros W oracle w request Hv out. subst out.
  destruct request as [[m | b]]; unfold validated in Hv; cbn [json] in Hv.
  - rewrite run_orm_malformed, run_gated_malformed.
    split; [reflexivity | split; [eexists; reflexivity | right; reflexivity]].
  - destruct (RequestSchema.safeParse b) as [issues | r] eqn:Hparse;
      [ | discriminate].
    rewrite (run_orm_invalid oracle b issues w Hparse),
      (run_gated_invalid oracle b issues w Hparse).
    split; [reflexivity | split; [eexists; reflexivity | left; reflexivity]].
Qed.

Lemma X8_refused_before_the_store_witness :
  let request := mkRequest (inl (lit "Unexpected end of JSON input")) in
  response_of (run D1.oracle (CreateTemplateApi.handle request) D1.empty)
  = internal_error (lit "Unexpected end of JSON input")
  /\ run D1.oracle (CreateTemplateApiOrm.handle request) D1.empty
     = run D1.oracle (CreateTemplateApi.handle request) D1.empty.
Proof.
  intros request. split; [reflexivity | ].
  exact (proj1 (X8_refused_before_the_store _ D1.oracle D1.empty request eq_refl)).
Defined.

(** X9: in the handler that inserts through the ORM, an insert that fails
    is answered 500 with the message of the failure as details, whatever
    the message: a uniqueness violation is not told apart.  No lookup is
    made. *)
Theorem X9_orm_insert_failure :
  forall (W : Type) (oracle : Oracle W) (w w2 : W) (b : JSON)
         (id : option jsstring) (content : JSON) (message : jsstring),
    RequestSchema.safeParse b = inr (id, content) ->
    let text := contentForDb (sanitize content) in
    let r := resolved oracle id w in
    oracle _ (DrizzleInsert CreateTemplateApiOrm.templatesTable
                [(lit "id", templateId_of r); (lit "content", text)])
      (world_of r) = (inl message, w2) ->
    let out := run oracle (CreateTemplateApiOrm.handle (mkRequest (inr b))) w in
    response_of out = internal_error message
    /\ filter is_select (calls_of out) = [].
Proof.
  intros W oracle w w2 b id content message Hparse text r Hins out.
  subst out. rewrite (run_orm oracle b id content w Hparse). cbv zeta. fold text.
  pose proof (filter_resolved_calls oracle is_select id w eq_refl) as Hc.
  subst r. destruct (resolved oracle id w) as [[templateId w1] c1].
  unfold templateId_of, world_of in *; cbn [fst snd] in *.
  rewrite Hins, run_report. unfold response_of, calls_of; cbn [fst snd].
  rewrite filter_app, Hc. split; reflexivity.
Qed.

Lemma X9_orm_insert_failure_witness :
  let b := JObject [(lit "id", JString uuid1); (lit "content", JString (lit "x"))] in
  let w := D1.mkWorld [(uuid1, lit "old")] [] None in
  response_of (run D1.oracle (CreateTemplateApiOrm.handle (mkRequest (inr b))) w)
  = internal_error D1.unique_failed.
Proof.
  intros b w.
  exact (proj1 (X9_orm_insert_failure _ D1.oracle w w b (Some uuid1)
                  (JString (lit "x")) D1.unique_failed eq_refl eq_refl)).
Defined.

(** X10: the handler that inserts through the ORM has no size gate: for
    every body that passes validation it makes exactly one insert, of the
    sanitized and scrubbed text under the resolved identifier, however
    large the text is. *)
Theorem X10_orm_always_inserts :
  forall (W : Type) (oracle : Oracle W) (w : W) (b : JSON)
         (id : option jsstring) (content : JSON),
    RequestSchema.safeParse b = inr (id, content) ->
    let r := resolved oracle id w in
    filter is_insert
      (calls_of (run oracle (CreateTemplateApiOrm.handle (mkRequest (inr b))) w))
    = [Called (DrizzleInsert CreateTemplateApiOrm.templatesTable
                 [(lit "id", templateId_of r);
                  (lit "content", contentForDb (sanitize content))])].
Proof.
  intros W oracle w b id content Hparse r.
  rewrite (run_orm oracle b id content w Hparse). cbv zeta.
  pose proof (filter_resolved_calls oracle is_insert id w eq_refl) as Hc.
  subst r. destruct (resolved oracle id w) as [[templateId w1] c1].
  unfold templateId_of; cbn [fst snd] in *.
  destruct (oracle _ (DrizzleInsert _ _) w1) as [[message | []] w2].
  - rewrite run_report. unfold calls_of; cbn [snd].
    rewrite filter_app, Hc. reflexivity.
  - pose proof (after_insert_calls oracle templateId w2) as (Hi & _ & _).
    destruct (after_insert oracle templateId w2) as [[r3 w3] c3].
    unfold calls_of; cbn [snd] in *.
    rewrite filter_app, Hc. simpl. rewrite Hi. reflexivity.
Qed.

Lemma X10_orm_always_inserts_witness :
  let b := JObject [(lit "id", JString uuid1); (lit "content", JArray [])] in
  List.length
    (filter is_insert
       (calls_of (run D1.oracle (CreateTemplateApiOrm.handle (mkRequest (inr b)))
                      D1.empty)))
  = 1%nat.
Proof.
  intros b.
  rewrite (X10_orm_always_inserts _ D1.oracle D1.empty b (Some uuid1) (JArray [])
             eq_refl).
  reflexivity.
Defined.

(* ===================================================================== *)
(** * Further properties of the sanitizer and of the stored text *)
(* ===================================================================== *)

(** X11: the sanitizer adds nothing: every key that some object of
    [sanitize V] has is a key of some object of [V], and every string
    value inside [sanitize V] is a string value inside [V]. *)
Theorem X11_sanitize_adds_nothing :
  forall V : JSON,
    (forall k, mentions k (sanitize V) = true -> mentions k V = true)
    /\ (forall s, StringLeaf s (sanitize V) -> StringLeaf s V).
Proof.
  intros V. split.
  - intros k. apply mentions_sanitize_inv.
  - intros s. apply leaf_sanitize_inv.
Qed.

Lemma X11_sanitize_adds_nothing_witness :
  let V := JObject [(lit "a", JArray [JString (lit "x")]);
                    (elementScript, JString (lit "y"))] in
  StringLeaf (lit "x") (sanitize V) /\ StringLeaf (lit "x") V.
Proof.
  intros V.
  assert (H : StringLeaf (lit "x") (sanitize V)).
  { apply (Leaf_prop (lit "x") _ (lit "a") (JArray [JString (lit "x")]));
      [left; reflexivity | ].
    apply (Leaf_item (lit "x") _ (JString (lit "x"))); [left; reflexivity | ].
    constructor. }
  split; [exact H | ].
  exact (proj2 (X11_sanitize_adds_nothing V) (lit "x") H).
Defined.

(** X12: a value whose objects have pairwise distinct keys and that has
    neither the key [elementScript] nor the key [__proto__] at any depth
    is returned by the sanitizer unchanged. *)
Theorem X12_sanitize_leaves_clean_values :
  forall V : JSON,
    DistinctKeys V ->
    mentions elementScript V = false ->
    mentions proto_key V = false ->
    sanitize V = V.
Proof.
  intros V Hd He Hp. apply sanitize_fixed, clean_Sanitized; assumption.
Qed.

Lemma X12_sanitize_leaves_clean_values_witness :
  let V := JObject [(lit "a", JNumber (lit "1"));
                    (lit "b", JArray [JObject [(lit "a", JNull)]])] in
  sanitize V = V.
Proof.
  intros V. apply X12_sanitize_leaves_clean_values; [ | reflexivity | reflexivity].
  constructor.
  - repeat constructor; simpl; intuition discriminate.
  - repeat constructor; simpl; intuition discriminate.
Defined.

(** X13: the JSON text of the sanitized value is never longer than the
    JSON text of the value, for a value whose objects have pairwise
    distinct keys: the sanitizer only removes. *)
Theorem X13_sanitize_does_not_lengthen :
  forall V : JSON,
    DistinctKeys V ->
    (List.length (JSONText.stringify (sanitize V))
     <= List.length (JSONText.stringify V))%nat.
Proof.
  intros V Hd. apply length_stringify_sanitize. exact Hd.
Qed.

Lemma X13_sanitize_does_not_lengthen_witness :
  let V := JArray [JObject [(elementScript, JString (lit "x"))]] in
  (List.length (JSONText.stringify (sanitize V))
   <= List.length (JSONText.stringify V))%nat.
Proof.
  intros V. apply X13_sanitize_does_not_lengthen.
  repeat constructor; simpl; intuition discriminate.
Defined.

(** X14: the stored text is a fixed point of the scrub: applying the two
    replacements to it again changes nothing, for any sanitized
    structure. *)
Theorem X14_scrub_is_idempotent :
  forall (text : jsstring) (V : JSON),
    scrub (scrub text) = scrub text
    /\ scrub (contentForDb V) = contentForDb V.
Proof.
  intros text V. split; [apply scrub_idempotent | ].
  unfold contentForDb. apply scrub_idempotent.
Qed.

(** X15: the scrub never takes bytes away, so the size that the gate
    measures is at least the size of the JSON text of the sanitized
    structure: a request whose sanitized JSON text is above 900 KiB is
    always answered 413. *)
Theorem X15_scrub_only_grows :
  forall (W : Type) (oracle : Oracle W) (w : W) (b : JSON)
         (id : option jsstring) (content : JSON),
    RequestSchema.safeParse b = inr (id, content) ->
    (Blob_size (JSONText.stringify (sanitize content))
     <= Blob_size (contentForDb (sanitize content)))%Z
    /\ ((900 * 1024 < Blob_size (JSONText.stringify (sanitize content)))%Z ->
        response_of (run oracle (CreateTemplateApi.handle (mkRequest (inr b))) w)
        = CreateTemplateApi.too_large).
Proof.
  intros W oracle w b id content Hparse.
  pose proof (Blob_size_scrub (JSONText.stringify (sanitize content))) as Hgrow.
  fold (contentForDb (sanitize content)) in Hgrow.
  split; [exact Hgrow | ]. intros Hbig.
  rewrite (run_gated oracle b id content w Hparse). cbv zeta.
  destruct (resolved oracle id w) as [[templateId w1] c1].
  destruct (Z.ltb_spec CreateTemplateApi.maxBytes
              (Blob_size (contentForDb (sanitize content)))) as [_ | Hle];
    [reflexivity | unfold CreateTemplateApi.maxBytes in Hle; lia].
Qed.

Lemma X15_scrub_only_grows_witness :
  let content := JString (lit "<script>") in
  (Blob_size (JSONText.stringify (sanitize content))
   <= Blob_size (contentForDb (sanitize content)))%Z.
Proof.
  intros content.
  exact (proj1 (X15_scrub_only_grows _ D1.oracle D1.empty
                  (JObject [(lit "content", content)]) None content eq_refl)).
Defined.

(** X16: the scrub works on the text, so it rewrites object keys as well:
    when some object of the sanitized structure has a key that contains a
    marker, the stored text carries the escaped form (and the key that is
    stored is not the key that was submitted). *)
Theorem X16_scrub_rewrites_keys :
  forall (V : JSON) (k : jsstring),
    mentions k V = true ->
    (JsString.includes script_open k = true ->
     JsString.includes script_open_escaped (contentForDb V) = true)
    /\ (JsString.includes script_close k = true ->
        JsString.includes script_close_escaped (contentForDb V) = true).
Proof.
  intros V k Hk. unfold contentForDb. split; intros H.
  - apply scrub_escapes, (stringify_includes_key _ k V Hk).
    apply (stringify_string_includes script_open k);
      [discriminate | reflexivity | exact H].
  - apply scrub_escapes, (stringify_includes_key _ k V Hk).
    apply (stringify_string_includes script_close k);
      [discriminate | reflexivity | exact H].
Qed.

Lemma X16_scrub_rewrites_keys_witness :
  let V := JArray [JObject [(lit "<script>", JNull)]] in
  JsString.includes script_open_escaped (contentForDb V) = true.
Proof.
  intros V.
  apply (proj1 (X16_scrub_rewrites_keys V (lit "<script>") eq_refl)).
  reflexivity.
Defined.

(** X17: the gate counts bytes of UTF-8, between one and three per code
    unit of the stored text.  A request whose stored text has more than
    921600 code units is always answered 413, and one whose stored text
    has at most 307200 code units is never answered 413. *)
Theorem X17_size_in_code_units :
  forall (W : Type) (oracle : Oracle W) (w : W) (b : JSON)
         (id : option jsstring) (content : JSON),
    RequestSchema.safeParse b = inr (id, content) ->
    let text := contentForDb (sanitize content) in
    let response :=
      response_of (run oracle (CreateTemplateApi.handle (mkRequest (inr b))) w) in
    (Z.of_nat (List.length text) <= Blob_size text <= 3 * Z.of_nat (List.length text))%Z
    /\ ((921600 < Z.of_nat (List.length text))%Z ->
        response = CreateTemplateApi.too_large)
    /\ ((Z.of_nat (List.length text) <= 307200)%Z -> status response <> 413%N).
Proof.
  intros W oracle w b id content Hparse text response.
  pose proof (utf8_length_bounds (List.length text) text (le_n _)) as Hb.
  fold (Blob_size text) in Hb. split; [exact Hb | ].
  subst response. rewrite (run_gated oracle b id content w Hparse). cbv zeta.
  fold text. destruct (resolved oracle id w) as [[templateId w1] c1].
  destruct (Z.ltb_spec CreateTemplateApi.maxBytes (Blob_size text)) as [Hlt | Hle];
    unfold CreateTemplateApi.maxBytes in *.
  - split; [reflexivity | ]. intros Hsmall. exfalso. lia.
  - split; [intros Hbig; exfalso; lia | ]. intros _.
    destruct (oracle _ (D1Run _ _) w1) as [[message | []] w2].
    + destruct (CreateTemplateApi.unique_violation message);
        [ | rewrite run_report]; unfold response_of; simpl; discriminate.
    + rewrite after_insert_cases. cbv zeta.
      destruct (oracle _ (D1First _ _) w2) as [[m | [row | ]] w3];
        unfold response_of; simpl; discriminate.
Qed.

Lemma X17_size_in_code_units_witness :
  let b := JObject [(lit "content", JString (lit "x"))] in
  status (response_of (run D1.oracle (CreateTemplateApi.handle (mkRequest (inr b)))
                           D1.empty)) <> 413%N.
Proof.
  intros b.
  refine (proj2 (proj2 (X17_size_in_code_units _ D1.oracle D1.empty b None
                          (JString (lit "x")) eq_refl)) _).
  apply Z.leb_le. vm_compute. reflexivity.
Defined.

(* ===================================================================== *)
(** * Further properties of validation and of the store calls *)
(* ===================================================================== *)

(** X18: the duplicate check looks for the phrase anywhere in the message
    and in any mix of upper and lower case: whenever the message of the
    failed insert contains a spelling of "unique constraint failed", the
    answer is 409. *)
Theorem X18_duplicate_phrase_anywhere :
  forall (W : Type) (oracle : Oracle W) (w w2 : W) (b : JSON)
         (id : option jsstring) (content : JSON) (before phrase after : jsstring),
    RequestSchema.safeParse b = inr (id, content) ->
    map JsString.canonicalize phrase
    = map JsString.canonicalize (lit "unique constraint failed") ->
    let text := contentForDb (sanitize content) in
    let r := resolved oracle id w in
    (Blob_size text <= 900 * 1024)%Z ->
    oracle _ (D1Run CreateTemplateApi.insert_sql [templateId_of r; text])
      (world_of r) = (inl (before ++ phrase ++ after), w2) ->
    response_of (run oracle (CreateTemplateApi.handle (mkRequest (inr b))) w)
    = CreateTemplateApi.duplicate_id.
Proof.
  intros W oracle w w2 b id content before phrase after Hparse Hphrase text r
    Hsize Hins.
  rewrite (run_gated oracle b id content w Hparse). cbv zeta. fold text.
  subst r. destruct (resolved oracle id w) as [[templateId w1] c1].
  unfold templateId_of, world_of in *; cbn [fst snd] in *.
  destruct (Z.ltb_spec CreateTemplateApi.maxBytes (Blob_size text)) as [Hlt | _];
    [unfold CreateTemplateApi.maxBytes in Hlt; lia | ].
  rewrite Hins, (unique_violation_found before phrase after Hphrase).
  reflexivity.
Qed.

Lemma X18_duplicate_phrase_anywhere_witness :
  let b := JObject [(lit "id", JString uuid1); (lit "content", JString (lit "x"))] in
  let shouting : Oracle D1.World :=
    fun X e =>
      match e in Event X return D1.World -> X * D1.World with
      | D1Run _ _ => fun w => (inl (lit "E: Unique CONSTRAINT Failed!"), w)
      | e' => D1.oracle _ e'
      end in
  response_of (run shouting (CreateTemplateApi.handle (mkRequest (inr b))) D1.empty)
  = CreateTemplateApi.duplicate_id.
Proof.
  intros b shouting.
  refine (X18_duplicate_phrase_anywhere _ shouting D1.empty D1.empty b (Some uuid1)
            (JString (lit "x")) (lit "E: ") (lit "Unique CONSTRAINT Failed")
            (lit "!") eq_refl eq_refl _ eq_refl).
  apply Z.leb_le. vm_compute. reflexivity.
Defined.

(** X19: fields of the body other than [id] and [content] are ignored,
    wherever they stand: a body is validated and handled as the body
    without these fields is, by both handlers. *)
Theorem X19_unknown_fields_are_ignored :
  forall (props : entries),
    let declared := filter known_field props in
    RequestSchema.safeParse (JObject props)
    = RequestSchema.safeParse (JObject declared)
    /\ CreateTemplateApi.handle (mkRequest (inr (JObject props)))
       = CreateTemplateApi.handle (mkRequest (inr (JObject declared)))
    /\ CreateTemplateApiOrm.handle (mkRequest (inr (JObject props)))
       = CreateTemplateApiOrm.handle (mkRequest (inr (JObject declared))).
Proof.
  intros props declared.
  assert (Hs : RequestSchema.safeParse (JObject props)
               = RequestSchema.safeParse (JObject declared)).
  { subst declared. unfold RequestSchema.safeParse.
    rewrite !get_filter; [reflexivity | | ];
      intros kv Hkv; unfold known_field; rewrite Hkv;
      [apply orb_true_r | reflexivity]. }
  split; [exact Hs | ]. apply handle_depends_on_safeParse. exact Hs.
Qed.

Lemma X19_unknown_fields_are_ignored_witness :
  CreateTemplateApi.handle
    (mkRequest (inr (JObject [(lit "name", JString (lit "n"));
                              (lit "content", JArray []);
                              (lit "extra", JNull)])))
  = CreateTemplateApi.handle
      (mkRequest (inr (JObject [(lit "content", JArray [])]))).
Proof.
  exact (proj1 (proj2 (X19_unknown_fields_are_ignored
                         [(lit "name", JString (lit "n"));
                          (lit "content", JArray []);
                          (lit "extra", JNull)]))).
Defined.

(** X20: an identifier that is written to the store either was supplied
    with the request and passed the UUID check of the schema, or is the
    answer of the identifier generator, which is used unchecked. *)
Theorem X20_written_identifiers :
  forall (W : Type) (oracle : Oracle W) (w : W) (b : JSON)
         (id : option jsstring) (content : JSON) (i text : jsstring),
    RequestSchema.safeParse b = inr (id, content) ->
    In (i, text)
       (flat_map written
          (calls_of (run oracle (CreateTemplateApi.handle (mkRequest (inr b))) w))) ->
    (id = Some i /\ RequestSchema.is_uuid i = true)
    \/ (id = None /\ i = fst (oracle _ RandomUUID w)).
Proof.
  intros W oracle w b id content i text Hparse Hin.
  assert (Hi : i = match id with
                   | Some i' => i'
                   | None => fst (oracle _ RandomUUID w)
                   end).
  { revert Hin. rewrite (run_gated oracle b id content w Hparse). cbv zeta.
    assert (Hid : templateId_of (resolved oracle id w)
                  = match id with
                    | Some i' => i'
                    | None => fst (oracle _ RandomUUID w)
                    end
                  /\ flat_map written (snd (resolved oracle id w)) = []).
    { destruct id; simpl; [auto | ]. destruct (oracle _ RandomUUID w); auto. }
    destruct Hid as [Hid Hc].
    destruct (resolved oracle id w) as [[t w1] c1].
    unfold templateId_of in Hid; cbn [fst snd] in Hid, Hc. rewrite <- Hid.
    destruct (Z.ltb CreateTemplateApi.maxBytes _).
    { unfold calls_of; cbn [snd]. rewrite Hc. intros []. }
    destruct (oracle _ (D1Run _ _) w1) as [[message | []] w2].
    - destruct (CreateTemplateApi.unique_violation message);
        [ | rewrite run_report]; unfold calls_of; cbn [snd];
        rewrite flat_map_app, Hc; simpl; intros [[= <- _] | []]; reflexivity.
    - rewrite after_insert_cases. cbv zeta.
      destruct (oracle _ (D1First _ _) w2) as [[m | [row | ]] w3];
        unfold calls_of; cbn [snd];
        rewrite flat_map_app, Hc; simpl; intros [[= <- _] | []]; reflexivity. }
  destruct id as [i' | ].
  - left. subst i'. split; [reflexivity | ].
    apply (safeParse_id b i content Hparse).
  - right. split; [reflexivity | exact Hi].
Qed.

Lemma X20_written_identifiers_witness :
  let b := JObject [(lit "id", JString uuid1); (lit "content", JString (lit "x"))] in
  RequestSchema.is_uuid uuid1 = true.
Proof.
  intros b.
  destruct (X20_written_identifiers _ D1.oracle D1.empty b (Some uuid1)
              (JString (lit "x")) uuid1
              (contentForDb (sanitize (JString (lit "x")))) eq_refl)
    as [[_ H] | [H _]].
  - vm_compute. left. reflexivity.
  - exact H.
  - discriminate H.
Defined.

(** X21: the request never reaches the text of a statement: whatever the
    request, the SQL text of every database call of the size-gated handler
    is one of the two constant statements; identifier and content travel
    as bound values only. *)
Theorem X21_sql_is_constant :
  forall (W : Type) (oracle : Oracle W) (w : W) (request : Request) (sql : jsstring),
    In sql (flat_map sql_of
              (calls_of (run oracle (CreateTemplateApi.handle request) w))) ->
    sql = CreateTemplateApi.insert_sql \/ sql = select_sql.
Proof.
  intros W oracle w request sql.
  gated_paths oracle request w; unfold calls_of; cbn [snd];
    rewrite ?flat_map_app; split_id; simpl; intros H;
    repeat match goal with
           | H : _ \/ _ |- _ => destruct H
           | H : False |- _ => contradiction
           end; subst; auto.
Qed.

Lemma X21_sql_is_constant_witness :
  let request := post (Some uuid1) (JString (lit "'); DROP TABLE templates_table;--")) in
  In CreateTemplateApi.insert_sql
     (flat_map sql_of
        (calls_of (run D1.oracle (CreateTemplateApi.handle request) D1.empty)))
  /\ (CreateTemplateApi.insert_sql = CreateTemplateApi.insert_sql
      \/ CreateTemplateApi.insert_sql = select_sql).
Proof.
  intros request.
  assert (H : In CreateTemplateApi.insert_sql
                (flat_map sql_of
                   (calls_of (run D1.oracle (CreateTemplateApi.handle request)
                                  D1.empty)))).
  { vm_compute. left. reflexivity. }
  split; [exact H | ].
  exact (X21_sql_is_constant _ D1.oracle D1.empty request _ H).
Defined.

(* ===================================================================== *)
(** * The stored text as JSON *)
(* ===================================================================== *)

(** X22: the two replacements work inside the string literals only: the
    text that is stored is the JSON text of the sanitized content in which
    every string value and every property name went through the scrub;
    brackets, separators, numbers, booleans and [null] are as
    [JSON.stringify] wrote them. *)
Theorem X22_scrub_works_inside_strings :
  forall (sanitizedContent : JSON),
    contentForDb sanitizedContent
    = JSONText.stringify (over_strings scrub sanitizedContent).
Proof.
  intros sanitizedContent. unfold contentForDb. apply scrub_stringify.
Qed.

Lemma X22_scrub_works_inside_strings_witness :
  contentForDb
    (JObject [(lit "<script>",
               JArray [JString (lit "a</script>"); JNumber (lit "1");
                       JNumber (lit "Infinity")])])
  = JSONText.stringify
      (JObject [(lit "&lt;script&gt;",
                 JArray [JString (lit "a&lt;/script&gt;"); JNumber (lit "1");
                         JNull])]).
Proof.
  rewrite (X22_scrub_works_inside_strings
             (JObject [(lit "<script>",
                        JArray [JString (lit "a</script>"); JNumber (lit "1");
                                JNumber (lit "Infinity")])])).
  vm_compute. reflexivity.
Defined.

(** X23: the stored text is always well-formed JSON: a client that parses
    it gets the sanitized content with every string value and property
    name scrubbed, where a number that is not finite is read as [null]
    and property names that the scrub made equal are merged as
    [JSON.parse] merges repeated keys. *)
Theorem X23_stored_text_parses :
  forall (content : JSON),
    JSONParse.parse (contentForDb (sanitize content))
    = Some (as_parsed (over_strings scrub (sanitize content))).
Proof.
  intros content. unfold contentForDb. rewrite scrub_stringify.
  apply parse_stringify_as_parsed.
Qed.

Lemma X23_stored_text_parses_witness :
  JSONParse.parse
    (contentForDb
       (sanitize (JObject [(lit "<script>", JNumber (lit "1"));
                           (lit "&lt;script&gt;", JNumber (lit "-Infinity"))])))
  = Some (JObject [(lit "&lt;script&gt;", JNull)]).
Proof.
  rewrite (X23_stored_text_parses
             (JObject [(lit "<script>", JNumber (lit "1"));
                       (lit "&lt;script&gt;", JNumber (lit "-Infinity"))])).
  vm_compute. reflexivity.
Defined.
